(** * WURFL Microservice client (package wmclient): caches, invalidation,
      capability registry and auxiliary tables.

    A shallow embedding of [scientiamobile/wmclient/wmclient.go] and
    [model.go].  The client record, its caches and its tables are plain
    data; every method of [*WmClient] is a function that takes the client
    (and, where it talks to the server, the log of the HTTP exchanges made
    so far) and returns the updated client next to its Go results.

    External collaborators are modelled by what the Go code observes of
    them: [crypto/md5] and [encoding/hex] by the MD5 algorithm itself,
    [github.com/golang/groupcache/lru] by an ordered list of entries, the
    HTTP transport together with [encoding/json] by an oracle that yields,
    for each exchange, either an error or the decoded value, and
    [strings.ToLower] by a function of which only the ASCII path is
    known. *)

From Stdlib Require Import ZArith List String Ascii Lia Bool Permutation Sorted.
From stdpp Require Import base option list strings gmap.

Local Open Scope string_scope.
Local Open Scope list_scope.

(** ** Strings as Go sees them *)

(** Go's [len(s)] for a string: its number of bytes. *)
Definition len (s : string) : nat := String.length s.

(** [strings.ToLower] on one byte of an ASCII string. *)
Definition lower_ascii (a : ascii) : ascii :=
  let n := nat_of_ascii a in
  if (65 <=? n)%nat && (n <=? 90)%nat then ascii_of_nat (n + 32) else a.

(** Whether every byte of [s] is below [utf8.RuneSelf] (0x80): the test
    by which [strings.ToLower] takes its ASCII path. *)
Fixpoint isASCII (s : string) : bool :=
  match s with
  | EmptyString => true
  | String a s' => (nat_of_ascii a <? 128)%nat && isASCII s'
  end.

(** The ASCII path of [strings.ToLower]: 'A'..'Z' go to 'a'..'z' and
    every other byte is left alone. *)
Fixpoint lowerASCII (s : string) : string :=
  match s with
  | EmptyString => EmptyString
  | String a s' => String (lower_ascii a) (lowerASCII s')
  end.

(** [strings.ToLower].  On a string that is not ASCII the Go function
    maps [unicode.ToLower] over the runes (U+0130 and U+212A go to the
    ASCII letters i and k, an invalid byte to U+FFFD); the Unicode
    tables are no part of the client.  The function is therefore kept
    abstract, known by its ASCII path only: what is proved of the
    client is proved for every function that agrees with [lowerASCII]
    on ASCII strings, Go's among them, and header names are any
    strings. *)
Class Lowering := {
  ToLower : string -> string;
  ToLower_ASCII : forall s, isASCII s = true -> ToLower s = lowerASCII s
}.

(** The lowering that takes the ASCII path on every string.  It is
    [strings.ToLower] on ASCII strings, as the sample data are. *)
Definition asciiLowering : Lowering :=
  {| ToLower := lowerASCII; ToLower_ASCII := fun _ _ => eq_refl |}.

(** ** crypto/md5 and encoding/hex *)

Module MD5.
Local Open Scope Z_scope.

Definition mask32 : Z := 0xFFFFFFFF.
Definition w32 (x : Z) : Z := Z.land x mask32.
Definition add32 (x y : Z) : Z := w32 (x + y).
Definition not32 (x : Z) : Z := Z.lxor x mask32.
Definition rotl32 (x s : Z) : Z :=
  w32 (Z.lor (Z.shiftl x s) (Z.shiftr x (32 - s))).

(** floor(2^32 * |sin(i+1)|), i = 0..63 *)
Definition K : list Z :=
  [ 0xd76aa478; 0xe8c7b756; 0x242070db; 0xc1bdceee; 0xf57c0faf; 0x4787c62a; 0xa8304613; 0xfd469501;
    0x698098d8; 0x8b44f7af; 0xffff5bb1; 0x895cd7be; 0x6b901122; 0xfd987193; 0xa679438e; 0x49b40821;
    0xf61e2562; 0xc040b340; 0x265e5a51; 0xe9b6c7aa; 0xd62f105d; 0x02441453; 0xd8a1e681; 0xe7d3fbc8;
    0x21e1cde6; 0xc33707d6; 0xf4d50d87; 0x455a14ed; 0xa9e3e905; 0xfcefa3f8; 0x676f02d9; 0x8d2a4c8a;
    0xfffa3942; 0x8771f681; 0x6d9d6122; 0xfde5380c; 0xa4beea44; 0x4bdecfa9; 0xf6bb4b60; 0xbebfbc70;
    0x289b7ec6; 0xeaa127fa; 0xd4ef3085; 0x04881d05; 0xd9d4d039; 0xe6db99e5; 0x1fa27cf8; 0xc4ac5665;
    0xf4292244; 0x432aff97; 0xab9423a7; 0xfc93a039; 0x655b59c3; 0x8f0ccc92; 0xffeff47d; 0x85845dd1;
    0x6fa87e4f; 0xfe2ce6e0; 0xa3014314; 0x4e0811a1; 0xf7537e82; 0xbd3af235; 0x2ad7d2bb; 0xeb86d391 ].

(** per-round left rotations *)
Definition S : list Z :=
  [ 7; 12; 17; 22; 7; 12; 17; 22; 7; 12; 17; 22; 7; 12; 17; 22;
    5; 9; 14; 20; 5; 9; 14; 20; 5; 9; 14; 20; 5; 9; 14; 20;
    4; 11; 16; 23; 4; 11; 16; 23; 4; 11; 16; 23; 4; 11; 16; 23;
    6; 10; 15; 21; 6; 10; 15; 21; 6; 10; 15; 21; 6; 10; 15; 21 ].

Definition bytes_of_string (s : string) : list Z :=
  map (fun a => Z.of_nat (nat_of_ascii a)) (list_ascii_of_string s).

(** little-endian bytes of [x], [n] of them *)
Fixpoint le_bytes (n : nat) (x : Z) : list Z :=
  match n with
  | O => []
  | Datatypes.S n' => Z.land x 0xFF :: le_bytes n' (Z.shiftr x 8)
  end.

Fixpoint le_word (bs : list Z) : Z :=
  match bs with
  | [] => 0
  | b :: bs' => Z.lor b (Z.shiftl (le_word bs') 8)
  end.

(** message, 0x80, zeros up to 56 mod 64, then the bit length on 8 bytes *)
Definition pad (msg : list Z) : list Z :=
  let n := Z.of_nat (List.length msg) in
  let zeros := Z.to_nat ((55 - n) mod 64) in
  msg ++ [0x80] ++ repeat 0 zeros ++ le_bytes 8 (8 * n).

(** cut a list in pieces of [k] elements; [fuel] bounds the number of pieces *)
Fixpoint chunks {A} (fuel k : nat) (l : list A) : list (list A) :=
  match fuel with
  | O => []
  | Datatypes.S fuel' =>
      match l with
      | [] => []
      | _ => firstn k l :: chunks fuel' k (skipn k l)
      end
  end.

Definition words_of_block (blk : list Z) : list Z :=
  map le_word (chunks 16 4 blk).

Definition round (M : list Z) (st : Z * Z * Z * Z) (i : nat) : Z * Z * Z * Z :=
  let '(a, b, c, d) := st in
  let '(f, g) :=
    if (i <? 16)%nat then
      (Z.lor (Z.land b c) (Z.land (not32 b) d), i)
    else if (i <? 32)%nat then
      (Z.lor (Z.land d b) (Z.land (not32 d) c), ((5 * i + 1) mod 16)%nat)
    else if (i <? 48)%nat then
      (Z.lxor (Z.lxor b c) d, ((3 * i + 5) mod 16)%nat)
    else
      (Z.lxor c (Z.lor b (not32 d)), ((7 * i) mod 16)%nat) in
  let f' := add32 (add32 (add32 f a) (nth i K 0)) (nth g M 0) in
  (d, add32 b (rotl32 f' (nth i S 0)), b, c).

Definition block (st : Z * Z * Z * Z) (blk : list Z) : Z * Z * Z * Z :=
  let M := words_of_block blk in
  let '(a0, b0, c0, d0) := st in
  let '(a, b, c, d) := fold_left (round M) (seq 0 64) st in
  (add32 a0 a, add32 b0 b, add32 c0 c, add32 d0 d).

(** [md5.Sum]: the 16 bytes of the digest *)
Definition Sum (msg : list Z) : list Z :=
  let p := pad msg in
  let '(a, b, c, d) :=
    fold_left block (chunks (List.length p) 64 p)
              (0x67452301, 0xefcdab89, 0x98badcfe, 0x10325476) in
  le_bytes 4 a ++ le_bytes 4 b ++ le_bytes 4 c ++ le_bytes 4 d.

Definition hexdigit (n : Z) : ascii :=
  nth (Z.to_nat n)
      (list_ascii_of_string "0123456789abcdef") "0"%char.

(** [hex.EncodeToString] *)
Fixpoint EncodeToString (bs : list Z) : string :=
  match bs with
  | [] => EmptyString
  | b :: bs' =>
      String (hexdigit (Z.shiftr b 4))
             (String (hexdigit (Z.land b 0xF)) (EncodeToString bs'))
  end.

Definition hexsum (s : string) : string :=
  EncodeToString (Sum (bytes_of_string s)).
End MD5.

(** ** model.go: the data exchanged with the server *)

(** A Go [error] value, by its message; [option error] is a possibly nil
    error. *)
Definition error : Type := string.

(** JSONInfoData - server and API informations *)
Record JSONInfoData := {
  WurflAPIVersion : string;
  WurflInfo : string;
  WmVersion : string;
  info_ImportantHeaders : list string;
  info_StaticCaps : list string;
  info_VirtualCaps : list string;
  info_Ltime : string
}.

(** Request - the object sent to the server in POST requests.  A nil
    slice is [None]: the setters below test their argument against nil. *)
Record Request := {
  req_LookupHeaders : gmap string string;
  req_RequestedCaps : option (list string);
  req_RequestedVCaps : option (list string);
  req_WurflID : string;
  req_TacCode : string
}.

(** JSONDeviceData - a device in string-only format *)
Record JSONDeviceData := {
  APIVersion : string;
  Capabilities : gmap string string;
  Error : string;
  Mtime : Z;
  Ltime : string
}.

Record JSONMakeModel := {
  BrandName : string;
  mm_ModelName : string;
  mm_MarketingName : string
}.

Record JSONModelMktName := {
  ModelName : string;
  MarketingName : string
}.

Record JSONDeviceOsVersions := {
  OsName : string;
  OsVersion : string
}.

(** ** github.com/golang/groupcache/lru

    The cache of the groupcache library, as the client uses it: string
    keys, device data as values.  [ll] is the library's linked list, most
    recently used entry first; the library's index map only speeds up the
    search in that list.  [MaxEntries] zero means no limit. *)
Module lru.
Record Cache := {
  MaxEntries : Z;
  ll : list (string * JSONDeviceData)
}.

Definition New (maxEntries : Z) : Cache :=
  {| MaxEntries := maxEntries; ll := [] |}.

Fixpoint find (key : string) (l : list (string * JSONDeviceData))
  : option JSONDeviceData :=
  match l with
  | [] => None
  | (k, v) :: l' => if String.eqb k key then Some v else find key l'
  end.

(** unlink the entry of [key] *)
Fixpoint unlink (key : string) (l : list (string * JSONDeviceData))
  : list (string * JSONDeviceData) :=
  match l with
  | [] => []
  | (k, v) :: l' => if String.eqb k key then l' else (k, v) :: unlink key l'
  end.

Definition Len (c : Cache) : nat := length (ll c).

(** RemoveOldest drops the entry at the back of the list. *)
Definition RemoveOldest (c : Cache) : Cache :=
  {| MaxEntries := MaxEntries c; ll := removelast (ll c) |}.

(** Add: an entry already present is moved to the front and given the
    new value; a new entry is pushed at the front, and the oldest
    entry goes when the length exceeds a non-zero MaxEntries. *)
Definition Add (key : string) (value : JSONDeviceData) (c : Cache) : Cache :=
  match find key (ll c) with
  | Some _ =>
      {| MaxEntries := MaxEntries c; ll := (key, value) :: unlink key (ll c) |}
  | None =>
      let c' := {| MaxEntries := MaxEntries c; ll := (key, value) :: ll c |} in
      if negb (MaxEntries c =? 0)%Z && (MaxEntries c <? Z.of_nat (Len c'))%Z
      then RemoveOldest c' else c'
  end.

(** Get: a hit moves the entry to the front. *)
Definition Get (key : string) (c : Cache) : option JSONDeviceData * Cache :=
  match find key (ll c) with
  | Some v =>
      (Some v, {| MaxEntries := MaxEntries c; ll := (key, v) :: unlink key (ll c) |})
  | None => (None, c)
  end.

Definition Clear (c : Cache) : Cache :=
  {| MaxEntries := MaxEntries c; ll := [] |}.
End lru.

(** ** wmclient.go: the client *)

Definition userAgentHeader : string := "User-Agent".
Definition deviceDefaultCacheSize : Z := 20000.

(** WmClient.  The mutexes are left out (the model runs one operation at
    a time) and so are the [http.Client] and its timeouts (the transport
    is the oracle [Server] below).  A nil cache pointer is [None]; the
    requested lists keep nil apart from empty; for the other slices and
    for the maps, which the code only measures and reads, nil is the
    empty list and the empty map. *)
Record WmClient := {
  scheme : string;
  host : string;
  port : string;
  baseURI : string;
  StaticCaps : list string;
  VirtualCaps : list string;
  requestedStaticCaps : option (list string);
  requestedVirtualCaps : option (list string);
  ImportantHeaders : list string;
  deviceCache : option lru.Cache;
  userAgentCache : option lru.Cache;
  mkModels : list JSONMakeModel;
  deviceMakes : list string;
  deviceMakesMap : gmap string (list JSONModelMktName);
  deviceOses : list string;
  deviceOsVerMap : gmap string (list string);
  clientLtime : string
}.

(** [&WmClient{}] *)
Definition zeroClient : WmClient :=
  {| scheme := ""; host := ""; port := ""; baseURI := "";
     StaticCaps := []; VirtualCaps := [];
     requestedStaticCaps := None; requestedVirtualCaps := None;
     ImportantHeaders := [];
     deviceCache := None; userAgentCache := None;
     mkModels := []; deviceMakes := []; deviceMakesMap := ∅;
     deviceOses := []; deviceOsVerMap := ∅;
     clientLtime := "" |}.

(** Field assignments [c.f = v]. *)
Definition set_endpoint (s h p b : string) (c : WmClient) : WmClient :=
  {| scheme := s; host := h; port := p; baseURI := b;
     StaticCaps := StaticCaps c; VirtualCaps := VirtualCaps c;
     requestedStaticCaps := requestedStaticCaps c;
     requestedVirtualCaps := requestedVirtualCaps c;
     ImportantHeaders := ImportantHeaders c;
     deviceCache := deviceCache c; userAgentCache := userAgentCache c;
     mkModels := mkModels c; deviceMakes := deviceMakes c;
     deviceMakesMap := deviceMakesMap c;
     deviceOses := deviceOses c; deviceOsVerMap := deviceOsVerMap c;
     clientLtime := clientLtime c |}.

Definition set_registry (ih sc vc : list string) (c : WmClient) : WmClient :=
  {| scheme := scheme c; host := host c; port := port c; baseURI := baseURI c;
     StaticCaps := sc; VirtualCaps := vc;
     requestedStaticCaps := requestedStaticCaps c;
     requestedVirtualCaps := requestedVirtualCaps c;
     ImportantHeaders := ih;
     deviceCache := deviceCache c; userAgentCache := userAgentCache c;
     mkModels := mkModels c; deviceMakes := deviceMakes c;
     deviceMakesMap := deviceMakesMap c;
     deviceOses := deviceOses c; deviceOsVerMap := deviceOsVerMap c;
     clientLtime := clientLtime c |}.

Definition set_requestedStaticCaps (l : option (list string)) (c : WmClient) : WmClient :=
  {| scheme := scheme c; host := host c; port := port c; baseURI := baseURI c;
     StaticCaps := StaticCaps c; VirtualCaps := VirtualCaps c;
     requestedStaticCaps := l;
     requestedVirtualCaps := requestedVirtualCaps c;
     ImportantHeaders := ImportantHeaders c;
     deviceCache := deviceCache c; userAgentCache := userAgentCache c;
     mkModels := mkModels c; deviceMakes := deviceMakes c;
     deviceMakesMap := deviceMakesMap c;
     deviceOses := deviceOses c; deviceOsVerMap := deviceOsVerMap c;
     clientLtime := clientLtime c |}.

Definition set_requestedVirtualCaps (l : option (list string)) (c : WmClient) : WmClient :=
  {| scheme := scheme c; host := host c; port := port c; baseURI := baseURI c;
     StaticCaps := StaticCaps c; VirtualCaps := VirtualCaps c;
     requestedStaticCaps := requestedStaticCaps c;
     requestedVirtualCaps := l;
     ImportantHeaders := ImportantHeaders c;
     deviceCache := deviceCache c; userAgentCache := userAgentCache c;
     mkModels := mkModels c; deviceMakes := deviceMakes c;
     deviceMakesMap := deviceMakesMap c;
     deviceOses := deviceOses c; deviceOsVerMap := deviceOsVerMap c;
     clientLtime := clientLtime c |}.

Definition set_deviceCache (dc : option lru.Cache) (c : WmClient) : WmClient :=
  {| scheme := scheme c; host := host c; port := port c; baseURI := baseURI c;
     StaticCaps := StaticCaps c; VirtualCaps := VirtualCaps c;
     requestedStaticCaps := requestedStaticCaps c;
     requestedVirtualCaps := requestedVirtualCaps c;
     ImportantHeaders := ImportantHeaders c;
     deviceCache := dc; userAgentCache := userAgentCache c;
     mkModels := mkModels c; deviceMakes := deviceMakes c;
     deviceMakesMap := deviceMakesMap c;
     deviceOses := deviceOses c; deviceOsVerMap := deviceOsVerMap c;
     clientLtime := clientLtime c |}.

Definition set_userAgentCache (uc : option lru.Cache) (c : WmClient) : WmClient :=
  {| scheme := scheme c; host := host c; port := port c; baseURI := baseURI c;
     StaticCaps := StaticCaps c; VirtualCaps := VirtualCaps c;
     requestedStaticCaps := requestedStaticCaps c;
     requestedVirtualCaps := requestedVirtualCaps c;
     ImportantHeaders := ImportantHeaders c;
     deviceCache := deviceCache c; userAgentCache := uc;
     mkModels := mkModels c; deviceMakes := deviceMakes c;
     deviceMakesMap := deviceMakesMap c;
     deviceOses := deviceOses c; deviceOsVerMap := deviceOsVerMap c;
     clientLtime := clientLtime c |}.

Definition set_mkModels (l : list JSONMakeModel) (c : WmClient) : WmClient :=
  {| scheme := scheme c; host := host c; port := port c; baseURI := baseURI c;
     StaticCaps := StaticCaps c; VirtualCaps := VirtualCaps c;
     requestedStaticCaps := requestedStaticCaps c;
     requestedVirtualCaps := requestedVirtualCaps c;
     ImportantHeaders := ImportantHeaders c;
     deviceCache := deviceCache c; userAgentCache := userAgentCache c;
     mkModels := l; deviceMakes := deviceMakes c;
     deviceMakesMap := deviceMakesMap c;
     deviceOses := deviceOses c; deviceOsVerMap := deviceOsVerMap c;
     clientLtime := clientLtime c |}.

Definition set_deviceMakes (dm : list string)
    (dmMap : gmap string (list JSONModelMktName)) (c : WmClient) : WmClient :=
  {| scheme := scheme c; host := host c; port := port c; baseURI := baseURI c;
     StaticCaps := StaticCaps c; VirtualCaps := VirtualCaps c;
     requestedStaticCaps := requestedStaticCaps c;
     requestedVirtualCaps := requestedVirtualCaps c;
     ImportantHeaders := ImportantHeaders c;
     deviceCache := deviceCache c; userAgentCache := userAgentCache c;
     mkModels := mkModels c; deviceMakes := dm;
     deviceMakesMap := dmMap;
     deviceOses := deviceOses c; deviceOsVerMap := deviceOsVerMap c;
     clientLtime := clientLtime c |}.

Definition set_deviceOses (ov : list string)
    (ovMap : gmap string (list string)) (c : WmClient) : WmClient :=
  {| scheme := scheme c; host := host c; port := port c; baseURI := baseURI c;
     StaticCaps := StaticCaps c; VirtualCaps := VirtualCaps c;
     requestedStaticCaps := requestedStaticCaps c;
     requestedVirtualCaps := requestedVirtualCaps c;
     ImportantHeaders := ImportantHeaders c;
     deviceCache := deviceCache c; userAgentCache := userAgentCache c;
     mkModels := mkModels c; deviceMakes := deviceMakes c;
     deviceMakesMap := deviceMakesMap c;
     deviceOses := ov; deviceOsVerMap := ovMap;
     clientLtime := clientLtime c |}.

Definition set_clientLtime (t : string) (c : WmClient) : WmClient :=
  {| scheme := scheme c; host := host c; port := port c; baseURI := baseURI c;
     StaticCaps := StaticCaps c; VirtualCaps := VirtualCaps c;
     requestedStaticCaps := requestedStaticCaps c;
     requestedVirtualCaps := requestedVirtualCaps c;
     ImportantHeaders := ImportantHeaders c;
     deviceCache := deviceCache c; userAgentCache := userAgentCache c;
     mkModels := mkModels c; deviceMakes := deviceMakes c;
     deviceMakesMap := deviceMakesMap c;
     deviceOses := deviceOses c; deviceOsVerMap := deviceOsVerMap c;
     clientLtime := t |}.

(** GetAPIVersion returns the version number of WM Client API *)
Definition GetAPIVersion : string := "2.1.3".

(** *** The capability registry *)

(** [sort.Search]: the smallest index in [0, n) at which [f] holds, by
    bisection.  Every turn of the loop shrinks [j - i], so [n] turns are
    enough; [fuel] counts them. *)
Fixpoint bisect (fuel : nat) (f : nat -> bool) (i j : nat) : nat :=
  match fuel with
  | O => i
  | S fuel' =>
      if (i <? j)%nat then
        let h := ((i + j) / 2)%nat in
        if negb (f h) then bisect fuel' f (h + 1)%nat j
        else bisect fuel' f i h
      else i
  end.

Definition sort_Search (n : nat) (f : nat -> bool) : nat := bisect n f 0%nat n.

(** [sort.SearchStrings(a, x)]: search for [a[i] >= x] *)
Definition SearchStrings (a : list string) (x : string) : nat :=
  sort_Search (length a) (fun i => String.leb x (nth i a "")).

(** checks whether the given value is present in the given slice of strings *)
Definition sliceHasValue (slist : list string) (value : string) : bool :=
  let index := SearchStrings slist value in
  (index <? length slist)%nat && String.eqb value (nth index slist "").

Definition HasStaticCapability (c : WmClient) (CapName : string) : bool :=
  sliceHasValue (StaticCaps c) CapName.

Definition HasVirtualCapability (c : WmClient) (CapName : string) : bool :=
  sliceHasValue (VirtualCaps c) CapName.

(** [sort.Strings]: ascending byte-wise order.  Equal strings are
    indistinguishable, so every sorting algorithm gives this list. *)
Fixpoint insert_sorted (x : string) (l : list string) : list string :=
  match l with
  | [] => [x]
  | y :: l' => if String.leb x y then x :: l else y :: insert_sorted x l'
  end.

Definition sort_Strings (l : list string) : list string :=
  fold_right insert_sorted [] l.

(** A slice in ascending order, as [sort.Strings] leaves it. *)
Definition ascending (l : list string) : Prop :=
  forall i j, (i <= j)%nat -> (j < length l)%nat ->
              String.leb (nth i l "") (nth j l "") = true.

(** *** Caches *)

(** clearCache removes all entries from the caches and drops the
    auxiliary tables. *)
Definition clearCache (c : WmClient) : WmClient :=
  let c :=
    match userAgentCache c with
    | Some uc =>
        if (0 <? lru.Len uc)%nat
        then set_userAgentCache (Some (lru.Clear uc)) c else c
    | None => c
    end in
  let c :=
    match deviceCache c with
    | Some dc =>
        if (0 <? lru.Len dc)%nat
        then set_deviceCache (Some (lru.Clear dc)) c else c
    | None => c
    end in
  let c := set_mkModels [] c in
  let c := set_deviceMakes [] ∅ c in
  let c := set_deviceOses [] ∅ c in
  c.

(** SetCacheSize : set UA cache size *)
Definition SetCacheSize (uaMaxEntries : Z) (c : WmClient) : WmClient :=
  let c := set_userAgentCache (Some (lru.New uaMaxEntries)) c in
  let c := set_deviceCache (Some (lru.New deviceDefaultCacheSize)) c in
  c.

(** GetActualCacheSizes: the size of the device-id cache, then the size
    of the headers cache. *)
Definition GetActualCacheSizes (c : WmClient) : nat * nat :=
  let dSize := match deviceCache c with Some dc => lru.Len dc | None => 0%nat end in
  let uaSize := match userAgentCache c with Some uc => lru.Len uc | None => 0%nat end in
  (dSize, uaSize).

(** If given ltime is different from client internal one, all caches are
    cleared and client last load time is updated *)
Definition clearCachesIfNeeded (ltime : string) (c : WmClient) : WmClient :=
  if (0 <? len ltime)%nat && negb (String.eqb (clientLtime c) ltime)
  then clearCache (set_clientLtime ltime c)
  else c.

(** *** Requested capabilities *)

(** the loop [for _, name := range CapsList { if has(name) { append } }] *)
Definition keepKnown (has : string -> bool) (CapsList : list string) : list string :=
  List.filter has CapsList.

(** SetRequestedStaticCapabilities - set list of standard static
    capabilities to return *)
Definition SetRequestedStaticCapabilities
    (CapsList : option (list string)) (c : WmClient) : WmClient :=
  match CapsList with
  | None => clearCache (set_requestedStaticCaps None c)
  | Some l =>
      let capNames := keepKnown (HasStaticCapability c) l in
      if (0 <? length capNames)%nat
      then clearCache (set_requestedStaticCaps (Some capNames) c)
      else c
  end.

(** SetRequestedVirtualCapabilities - set list of virtual capabilities
    to return *)
Definition SetRequestedVirtualCapabilities
    (CapsList : option (list string)) (c : WmClient) : WmClient :=
  match CapsList with
  | None => clearCache (set_requestedVirtualCaps None c)
  | Some l =>
      let vcapNames := keepKnown (HasVirtualCapability c) l in
      if (0 <? length vcapNames)%nat
      then clearCache (set_requestedVirtualCaps (Some vcapNames) c)
      else c
  end.

(** SetRequestedCapabilities - set the given capability names to the set
    they belong *)
Definition SetRequestedCapabilities
    (CapsList : option (list string)) (c : WmClient) : WmClient :=
  match CapsList with
  | None =>
      clearCache (set_requestedStaticCaps None (set_requestedVirtualCaps None c))
  | Some l =>
      let capNames := keepKnown (HasStaticCapability c) l in
      let vcapNames :=
        keepKnown (fun name => negb (HasStaticCapability c name)
                               && HasVirtualCapability c name) l in
      clearCache (set_requestedVirtualCaps (Some vcapNames)
                    (set_requestedStaticCaps (Some capNames) c))
  end.

(** *** The transport *)

Inductive Method := GET | POST.

(** One HTTP exchange as the client asks for it. *)
Record HttpCall := {
  call_method : Method;
  call_url : string;
  call_userAgent : string;
  call_body : option Request
}.

Definition Log : Type := list HttpCall.

(** The server seen through [http.NewRequest], [httpClient.Do],
    [ioutil.ReadAll] and [json.Unmarshal] into the Go type the endpoint
    is decoded to: given the exchanges made so far and the new one, either
    an error (the request cannot be built, the transport fails, the body
    cannot be read or does not decode) or the decoded value. *)
Record Server := {
  serveInfo : Log -> HttpCall -> error + JSONInfoData;
  serveLookup : Log -> HttpCall -> error + JSONDeviceData;
  serveMakeModels : Log -> HttpCall -> error + list JSONMakeModel;
  serveOsVersions : Log -> HttpCall -> error + list JSONDeviceOsVersions
}.

(** The client together with the exchanges it has asked for, oldest
    first. *)
Record World := {
  cl : WmClient;
  sent : Log
}.

Definition on_client (f : WmClient -> WmClient) (w : World) : World :=
  {| cl := f (cl w); sent := sent w |}.

Definition createURL (c : WmClient) (path : string) : string :=
  let url := scheme c +:+ "://" +:+ host c in
  let url := if (0 <? len (port c))%nat then url +:+ ":" +:+ port c else url in
  if (0 <? len (baseURI c))%nat then url +:+ "/" +:+ baseURI c +:+ path
  else url +:+ path.

Definition getWmClientUserAgent (userAgent : string) : string :=
  userAgent +:+ "go-wmclient-api-" +:+ GetAPIVersion.

(** internalGet performs a GET request; [serve] also stands for the
    [json.Unmarshal] that follows it at each of its call sites. *)
Definition internalGet {T : Type} (serve : Log -> HttpCall -> error + T)
    (c : WmClient) (endpoint : string) (log : Log) : (error + T) * Log :=
  let call := {| call_method := GET; call_url := createURL c endpoint;
                 call_userAgent := ""; call_body := None |} in
  (serve log call, log ++ [call]).

(** internalLookup: the pointer and the error it returns. *)
Definition internalLookup (srv : Server) (c : WmClient) (request : Request)
    (path : string) (log : Log)
  : (option JSONDeviceData * option error) * Log :=
  let call := {| call_method := POST; call_url := createURL c path;
                 call_userAgent := getWmClientUserAgent "";
                 call_body := Some request |} in
  let log' := log ++ [call] in
  match serveLookup srv log call with
  | inl err => ((None, Some err), log')
  | inr deviceData =>
      (* check for error messages in json and return it with data from device *)
      if (0 <? len (Error deviceData))%nat then
        let errMsg := Error deviceData in
        let deviceData :=
          {| APIVersion := APIVersion deviceData;
             Capabilities := Capabilities deviceData;
             Error := "";
             Mtime := Mtime deviceData;
             Ltime := Ltime deviceData |} in
        ((Some deviceData, Some ("Received error from WM server: " +:+ errMsg)), log')
      else ((Some deviceData, None), log')
  end.

Definition checkData (data : JSONInfoData) : bool :=
  (0 <? len (WmVersion data))%nat && (0 <? len (WurflAPIVersion data))%nat
  && (0 <? len (WurflInfo data))%nat
  && ((0 <? length (info_StaticCaps data))%nat
      || (0 <? length (info_VirtualCaps data))%nat).

(** GetInfo - Returns information about the running WM server and API *)
Definition GetInfo (srv : Server) (w : World)
  : (option JSONInfoData * option error) * World :=
  match internalGet (serveInfo srv) (cl w) "/v2/getinfo/json" (sent w) with
  | (inl berr, log') => ((None, Some berr), {| cl := cl w; sent := log' |})
  | (inr info, log') =>
      if negb (checkData info) then
        ((None, Some "server returned empty data or a wrong json format"),
         {| cl := cl w; sent := log' |})
      else
        (* check if server WURFL.xml has been updated and, if so, clear caches *)
        ((Some info, None),
         {| cl := clearCachesIfNeeded (info_Ltime info) (cl w); sent := log' |})
  end.

(** Create : creates object, checks for server visibility *)
Definition Create (srv : Server) (Scheme Host Port BaseURI : string) (log : Log)
  : (option WmClient * option error) * Log :=
  let client := zeroClient in
  let client :=
    set_endpoint (if (0 <? len Scheme)%nat then Scheme else "http")
                 Host Port BaseURI client in
  (* Test server connection and save important headers taken using getInfo *)
  match GetInfo srv {| cl := client; sent := log |} with
  | ((Some data, None), w) =>
      let client :=
        set_registry (info_ImportantHeaders data)
                     (sort_Strings (info_StaticCaps data))
                     (sort_Strings (info_VirtualCaps data)) (cl w) in
      ((Some client, None), sent w)
  | ((_, err), w) => ((None, err), sent w)
  end.

(** *** Lookups *)

Definition getUserAgentCacheKey (c : WmClient) (headers : gmap string string)
  : string :=
  (* Using important headers array preserves header name order *)
  let key :=
    fold_left (fun key hname => key +:+ default "" (headers !! hname))
              (ImportantHeaders c) "" in
  MD5.hexsum key.

(** The block "lock; Get; unlock" on the headers cache; a nil cache
    misses. *)
Definition userAgentCacheGet (key : string) (c : WmClient)
  : option JSONDeviceData * WmClient :=
  match userAgentCache c with
  | Some uc =>
      let '(value, uc') := lru.Get key uc in
      (value, set_userAgentCache (Some uc') c)
  | None => (None, c)
  end.

Definition userAgentCacheAdd (key : string) (d : JSONDeviceData) (c : WmClient)
  : WmClient :=
  match userAgentCache c with
  | Some uc => set_userAgentCache (Some (lru.Add key d uc)) c
  | None => c
  end.

Definition deviceCacheGet (key : string) (c : WmClient)
  : option JSONDeviceData * WmClient :=
  match deviceCache c with
  | Some dc =>
      let '(value, dc') := lru.Get key dc in
      (value, set_deviceCache (Some dc') c)
  | None => (None, c)
  end.

Definition deviceCacheAdd (key : string) (d : JSONDeviceData) (c : WmClient)
  : WmClient :=
  match deviceCache c with
  | Some dc => set_deviceCache (Some (lru.Add key d dc)) c
  | None => c
  end.

(** The tail shared by the four lookups:
    [if err == nil { c.clearCachesIfNeeded(deviceData.Ltime); add } ;
     return deviceData, err]. *)
Definition afterLookup (add : JSONDeviceData -> WmClient -> WmClient)
    (c : WmClient) (res : (option JSONDeviceData * option error) * Log)
  : (option JSONDeviceData * option error) * World :=
  let '((deviceData, err), log') := res in
  match err, deviceData with
  | None, Some d =>
      (* check if server WURFL.xml has been updated and, if so, clear caches *)
      let c := clearCachesIfNeeded (Ltime d) c in
      let c := add d c in
      ((deviceData, err), {| cl := c; sent := log' |})
  | _, _ => ((deviceData, err), {| cl := c; sent := log' |})
  end.

(** The loop "copy headers": for each important header, in order, the
    value [get] finds for it is stored under the header's own name unless
    it is empty. *)
Definition copyHeaders (get : string -> string) (names : list string)
  : gmap string string :=
  fold_left (fun (m : gmap string string) name =>
               let h := get name in
               if String.eqb h "" then m else <[name := h]> m)
            names ∅.

(** An [http.Request], reduced to what the client reads of it:
    [request.Header.Get]. *)
Record http_Request := {
  Header_Get : string -> string
}.

(** LookupRequest - detects a device and returns its data in JSON format *)
Definition LookupRequest (srv : Server) (request : http_Request) (w : World)
  : (option JSONDeviceData * option error) * World :=
  let c := cl w in
  let lookupHeaders := copyHeaders (Header_Get request) (ImportantHeaders c) in
  match userAgentCacheGet (getUserAgentCacheKey c lookupHeaders) c with
  | (Some jdd, c) => ((Some jdd, None), {| cl := c; sent := sent w |})
  | (None, c) =>
      let jrequest :=
        {| req_LookupHeaders := lookupHeaders;
           req_RequestedCaps := requestedStaticCaps c;
           req_RequestedVCaps := requestedVirtualCaps c;
           req_WurflID := ""; req_TacCode := "" |} in
      afterLookup
        (fun d c => userAgentCacheAdd (getUserAgentCacheKey c lookupHeaders) d c)
        c (internalLookup srv c jrequest "/v2/lookuprequest/json" (sent w))
  end.

(** From here on [strings.ToLower] is any function with the ASCII path
    of the Go function. *)
Section Client.
Context {L : Lowering}.

(** "first: make all headers lowercase".  [headers] lists the entries of
    the Go map in the order [range] visits them. *)
Definition lowerKeyMap (headers : list (string * string)) : gmap string string :=
  fold_left (fun (m : gmap string string) kv => <[ToLower kv.1 := kv.2]> m)
            headers ∅.

(** The payload [jrequest.LookupHeaders] that LookupHeaders builds. *)
Definition normalizedHeaders (c : WmClient) (headers : list (string * string))
  : gmap string string :=
  let lkm := lowerKeyMap headers in
  copyHeaders (fun name => default "" (lkm !! ToLower name)) (ImportantHeaders c).

(** LookupHeaders - detects a device and returns its data in JSON format *)
Definition LookupHeaders (srv : Server) (headers : list (string * string))
    (w : World) : (option JSONDeviceData * option error) * World :=
  let c := cl w in
  let lookupHeaders := normalizedHeaders c headers in
  match userAgentCacheGet (getUserAgentCacheKey c lookupHeaders) c with
  | (Some jdd, c) => ((Some jdd, None), {| cl := c; sent := sent w |})
  | (None, c) =>
      let jrequest :=
        {| req_LookupHeaders := lookupHeaders;
           req_RequestedCaps := requestedStaticCaps c;
           req_RequestedVCaps := requestedVirtualCaps c;
           req_WurflID := ""; req_TacCode := "" |} in
      afterLookup
        (fun d c => userAgentCacheAdd (getUserAgentCacheKey c lookupHeaders) d c)
        c (internalLookup srv c jrequest "/v2/lookuprequest/json" (sent w))
  end.

(** LookupUserAgent - Searches WURFL device data using the given
    user-agent for detection *)
Definition LookupUserAgent (srv : Server) (userAgent : string) (w : World)
  : (option JSONDeviceData * option error) * World :=
  let c := cl w in
  let headers : gmap string string := <[userAgentHeader := userAgent]> ∅ in
  match userAgentCacheGet (getUserAgentCacheKey c headers) c with
  | (Some jdd, c) => ((Some jdd, None), {| cl := c; sent := sent w |})
  | (None, c) =>
      let jsonRequest :=
        {| req_LookupHeaders := <[userAgentHeader := userAgent]> ∅;
           req_RequestedCaps := requestedStaticCaps c;
           req_RequestedVCaps := requestedVirtualCaps c;
           req_WurflID := ""; req_TacCode := "" |} in
      afterLookup
        (fun d c => userAgentCacheAdd (getUserAgentCacheKey c headers) d c)
        c (internalLookup srv c jsonRequest "/v2/lookupuseragent/json" (sent w))
  end.

(** LookupDeviceID - Searches WURFL device data using its wurfl_id value *)
Definition LookupDeviceID (srv : Server) (deviceID : string) (w : World)
  : (option JSONDeviceData * option error) * World :=
  let c := cl w in
  match deviceCacheGet deviceID c with
  | (Some jdd, c) => ((Some jdd, None), {| cl := c; sent := sent w |})
  | (None, c) =>
      let jsonRequest :=
        {| req_LookupHeaders := ∅;
           req_RequestedCaps := requestedStaticCaps c;
           req_RequestedVCaps := requestedVirtualCaps c;
           req_WurflID := deviceID; req_TacCode := "" |} in
      afterLookup (deviceCacheAdd deviceID)
        c (internalLookup srv c jsonRequest "/v2/lookupdeviceid/json" (sent w))
  end.

(** *** Auxiliary tables *)

(** The loop of loadDeviceOsesData over the decoded listing: the names in
    first-seen order, and for each name its versions in listing order. *)
Definition foldOsVersions (osVersionModels : list JSONDeviceOsVersions)
  : gmap string (list string) * list string :=
  fold_left
    (fun (acc : gmap string (list string) * list string) ovModel =>
       let '(ovMap, ov) := acc in
       let ov :=
         match ovMap !! OsName ovModel with
         | None => ov ++ [OsName ovModel]
         | Some _ => ov
         end in
       (<[OsName ovModel :=
            default [] (ovMap !! OsName ovModel) ++ [OsVersion ovModel]]> ovMap,
        ov))
    osVersionModels (∅, []).

Definition loadDeviceOsesData (srv : Server) (w : World) : option error * World :=
  let c := cl w in
  if (0 <? length (deviceOses c))%nat then (None, w)
  else
    match internalGet (serveOsVersions srv) c "/v2/alldeviceosversions/json" (sent w) with
    | (inl berr, log') => (Some berr, {| cl := c; sent := log' |})
    | (inr osVersionModels, log') =>
        let '(ovMap, ov) := foldOsVersions osVersionModels in
        (None, {| cl := set_deviceOses ov ovMap c; sent := log' |})
    end.

(** What GetAllOSes does once loadDeviceOsesData has returned [err], on
    the client as it is at that moment. *)
Definition GetAllOSes_return (c : WmClient) (err : option error)
  : list string * option error :=
  match err with
  | Some e =>
      if (0 <? length (deviceOses c))%nat then ([], Some e)
      else (deviceOses c, None)
  | None => (deviceOses c, None)
  end.

(** GetAllOSes returns a slice of all devices device_os capabilities in
    WM server *)
Definition GetAllOSes (srv : Server) (w : World)
  : (list string * option error) * World :=
  let '(err, w) := loadDeviceOsesData srv w in
  (GetAllOSes_return (cl w) err, w).

Definition GetAllVersionsForOS_return (c : WmClient) (err : option error)
    (osName : string) : list string * option error :=
  let lookup :=
    match deviceOsVerMap c !! osName with
    | Some val =>
        (* Now, remove all empty version fields *)
        (List.filter (fun v => negb (String.eqb v "")) val, None)
    | None =>
        ([], Some ("Error getting data from WM server: " +:+ osName
                   +:+ " does not exist"))
    end in
  match err with
  | Some e =>
      if (0 <? length (deviceOses c))%nat then ([], Some e) else lookup
  | None => lookup
  end.

(** GetAllVersionsForOS returns a slice of an aggregate containing
    device_os_version for the given os_name *)
Definition GetAllVersionsForOS (srv : Server) (osName : string) (w : World)
  : (list string * option error) * World :=
  let '(err, w) := loadDeviceOsesData srv w in
  (GetAllVersionsForOS_return (cl w) err osName, w).

Definition foldMakeModels (mkModels : list JSONMakeModel)
  : gmap string (list JSONModelMktName) * list string :=
  fold_left
    (fun (acc : gmap string (list JSONModelMktName) * list string) mkModel =>
       let '(dmMap, dm) := acc in
       let dm :=
         match dmMap !! BrandName mkModel with
         | None => dm ++ [BrandName mkModel]
         | Some _ => dm
         end in
       (<[BrandName mkModel :=
            default [] (dmMap !! BrandName mkModel)
            ++ [{| ModelName := mm_ModelName mkModel;
                   MarketingName := mm_MarketingName mkModel |}]]> dmMap,
        dm))
    mkModels (∅, []).

Definition loadDeviceMakesData (srv : Server) (w : World) : option error * World :=
  let c := cl w in
  if (0 <? length (deviceMakes c))%nat then (None, w)
  else
    match internalGet (serveMakeModels srv) c "/v2/alldevices/json" (sent w) with
    | (inl berr, log') => (Some berr, {| cl := c; sent := log' |})
    | (inr mkModels, log') =>
        let '(dmMap, dm) := foldMakeModels mkModels in
        (None, {| cl := set_deviceMakes dm dmMap c; sent := log' |})
    end.

Definition GetAllDeviceMakes_return (c : WmClient) (err : option error)
  : list string * option error :=
  match err with
  | Some e =>
      if (0 <? length (deviceMakes c))%nat then ([], Some e)
      else (deviceMakes c, None)
  | None => (deviceMakes c, None)
  end.

(** GetAllDeviceMakes returns a slice of all devices brand_name
    capabilities in WM server *)
Definition GetAllDeviceMakes (srv : Server) (w : World)
  : (list string * option error) * World :=
  let '(err, w) := loadDeviceMakesData srv w in
  (GetAllDeviceMakes_return (cl w) err, w).

Definition GetAllDevicesForMake_return (c : WmClient) (err : option error)
    (brandName : string) : list JSONModelMktName * option error :=
  let lookup :=
    match deviceMakesMap c !! brandName with
    | Some val => (val, None)
    | None =>
        ([], Some ("Error getting data from WM server: " +:+ brandName
                   +:+ " does not exist"))
    end in
  match err with
  | Some e =>
      if (0 <? length (deviceMakes c))%nat then ([], Some e) else lookup
  | None => lookup
  end.

(** GetAllDevicesForMake returns a slice of an aggregate containing
    model_names and marketing_names for the given brand_name *)
Definition GetAllDevicesForMake (srv : Server) (brandName : string) (w : World)
  : (list JSONModelMktName * option error) * World :=
  let '(err, w) := loadDeviceMakesData srv w in
  (GetAllDevicesForMake_return (cl w) err brandName, w).

(** ** Runs of the client *)

(** The four lookups under one name. *)
Inductive Query :=
| ByRequest (request : http_Request)
| ByHeaders (headers : list (string * string))
| ByUserAgent (userAgent : string)
| ByDeviceID (deviceID : string).

Definition lookup (srv : Server) (q : Query) (w : World)
  : (option JSONDeviceData * option error) * World :=
  match q with
  | ByRequest request => LookupRequest srv request w
  | ByHeaders headers => LookupHeaders srv headers w
  | ByUserAgent userAgent => LookupUserAgent srv userAgent w
  | ByDeviceID deviceID => LookupDeviceID srv deviceID w
  end.

(** The headers a lookup sends: [jrequest.LookupHeaders]. *)
Definition queryHeaders (c : WmClient) (q : Query) : gmap string string :=
  match q with
  | ByRequest request => copyHeaders (Header_Get request) (ImportantHeaders c)
  | ByHeaders headers => normalizedHeaders c headers
  | ByUserAgent userAgent => <[userAgentHeader := userAgent]> ∅
  | ByDeviceID _ => ∅
  end.

(** The key a lookup uses on its cache, given the headers it sends. *)
Definition keyFor (c : WmClient) (q : Query) (hdrs : gmap string string) : string :=
  match q with
  | ByDeviceID deviceID => deviceID
  | _ => getUserAgentCacheKey c hdrs
  end.

(** The key under which a lookup is cached. *)
Definition cacheKey (c : WmClient) (q : Query) : string :=
  keyFor c q (queryHeaders c q).

(** The cache a lookup goes through: the device-id cache for
    LookupDeviceID, the headers cache for the other three. *)
Definition usesDeviceCache (q : Query) : bool :=
  match q with ByDeviceID _ => true | _ => false end.

Definition cacheOf (c : WmClient) (q : Query) : option lru.Cache :=
  if usesDeviceCache q then deviceCache c else userAgentCache c.

Definition otherCacheOf (c : WmClient) (q : Query) : option lru.Cache :=
  if usesDeviceCache q then userAgentCache c else deviceCache c.

Definition cacheLen (oc : option lru.Cache) : nat :=
  match oc with Some ch => lru.Len ch | None => 0%nat end.

(** The public operations of a client.  DestroyConnection ends the life
    of a client (it drops the http client, so that any later exchange
    panics) and SetHTTPTimeout only replaces the transport: neither is an
    operation of a run. *)
Inductive Op :=
| OpSetCacheSize (uaMaxEntries : Z)
| OpSetRequestedStaticCapabilities (CapsList : option (list string))
| OpSetRequestedVirtualCapabilities (CapsList : option (list string))
| OpSetRequestedCapabilities (CapsList : option (list string))
| OpLookup (q : Query)
| OpGetInfo
| OpGetAllOSes
| OpGetAllVersionsForOS (osName : string)
| OpGetAllDeviceMakes
| OpGetAllDevicesForMake (brandName : string).

Definition step (srv : Server) (op : Op) (w : World) : World :=
  match op with
  | OpSetCacheSize n => on_client (SetCacheSize n) w
  | OpSetRequestedStaticCapabilities l =>
      on_client (SetRequestedStaticCapabilities l) w
  | OpSetRequestedVirtualCapabilities l =>
      on_client (SetRequestedVirtualCapabilities l) w
  | OpSetRequestedCapabilities l => on_client (SetRequestedCapabilities l) w
  | OpLookup q => (lookup srv q w).2
  | OpGetInfo => (GetInfo srv w).2
  | OpGetAllOSes => (GetAllOSes srv w).2
  | OpGetAllVersionsForOS osName => (GetAllVersionsForOS srv osName w).2
  | OpGetAllDeviceMakes => (GetAllDeviceMakes srv w).2
  | OpGetAllDevicesForMake brandName => (GetAllDevicesForMake srv brandName w).2
  end.

Definition run (srv : Server) (ops : list Op) (w : World) : World :=
  fold_left (fun w op => step srv op w) ops w.

(** The worlds a program can be in: a client returned by Create, then
    any operations on it. *)
Inductive reachable (srv : Server) : World -> Prop :=
| reach_Create Scheme Host Port BaseURI log c log' :
    Create srv Scheme Host Port BaseURI log = ((Some c, None), log') ->
    reachable srv {| cl := c; sent := log' |}
| reach_step op w :
    reachable srv w -> reachable srv (step srv op w).

(** ** What the properties below speak about *)

(** The exchange a lookup makes with the server when the cache misses. *)
Definition lookupPath (q : Query) : string :=
  match q with
  | ByRequest _ | ByHeaders _ => "/v2/lookuprequest/json"
  | ByUserAgent _ => "/v2/lookupuseragent/json"
  | ByDeviceID _ => "/v2/lookupdeviceid/json"
  end.

Definition lookupPayload (c : WmClient) (q : Query) : Request :=
  {| req_LookupHeaders := queryHeaders c q;
     req_RequestedCaps := requestedStaticCaps c;
     req_RequestedVCaps := requestedVirtualCaps c;
     req_WurflID := match q with ByDeviceID deviceID => deviceID | _ => "" end;
     req_TacCode := "" |}.

Definition lookupCall (c : WmClient) (q : Query) : HttpCall :=
  {| call_method := POST; call_url := createURL c (lookupPath q);
     call_userAgent := getWmClientUserAgent "";
     call_body := Some (lookupPayload c q) |}.

(** What the cache of a lookup holds for it. *)
Definition cached (c : WmClient) (q : Query) : option JSONDeviceData :=
  match cacheOf c q with
  | Some ch => lru.find (cacheKey c q) (lru.ll ch)
  | None => None
  end.

(** A lookup that the server answered, successfully, with [d]. *)
Definition answered (srv : Server) (q : Query) (w : World)
    (d : JSONDeviceData) (w' : World) : Prop :=
  lookup srv q w = ((Some d, None), w') /\ sent w' = sent w ++ [lookupCall (cl w) q].

(** The device of a response, its Error field blanked. *)
Definition withoutError (d : JSONDeviceData) : JSONDeviceData :=
  {| APIVersion := APIVersion d;
     Capabilities := Capabilities d;
     Error := "";
     Mtime := Mtime d;
     Ltime := Ltime d |}.

(** No cached device carries an error message. *)
Definition cleanCache (oc : option lru.Cache) : Prop :=
  match oc with
  | Some ch => Forall (fun kv => Error kv.2 = "") (lru.ll ch)
  | None => True
  end.

Definition cleanCaches (c : WmClient) : Prop :=
  cleanCache (deviceCache c) /\ cleanCache (userAgentCache c).

(** The effect of an invalidation by the token [ltime], from [c] to [c']. *)
Definition invalidated (ltime : string) (c c' : WmClient) : Prop :=
  clientLtime c' = ltime
  /\ GetActualCacheSizes c' = (0%nat, 0%nat)
  /\ mkModels c' = []
  /\ deviceMakes c' = [] /\ deviceMakesMap c' = ∅
  /\ deviceOses c' = [] /\ deviceOsVerMap c' = ∅
  /\ StaticCaps c' = StaticCaps c /\ VirtualCaps c' = VirtualCaps c.

(** Header maps up to the casing of names, the order of entries and the
    headers that are not important: the entries whose lowered name is the
    lowered name of an important header, with the name lowered. *)
Definition isImportant (c : WmClient) (lname : string) : bool :=
  existsb (fun h => String.eqb (ToLower h) lname) (ImportantHeaders c).

Definition importantView (c : WmClient) (headers : list (string * string))
  : list (string * string) :=
  List.filter (fun kv => isImportant c kv.1)
              (map (fun kv => (ToLower kv.1, kv.2)) headers).

Definition sameImportantHeaders (c : WmClient) (A B : list (string * string)) : Prop :=
  Permutation (importantView c A) (importantView c B).

(** The entries of a header map with their names lowered, and the values
    a list of entries gives to a lowered name, in order. *)
Definition lowered (A : list (string * string)) : list (string * string) :=
  map (fun kv => (ToLower kv.1, kv.2)) A.

Definition valuesOf (lname : string) (V : list (string * string)) : list string :=
  map snd (List.filter (fun kv => String.eqb kv.1 lname) V).

(** No two important headers of the map have the same name up to case. *)
Definition caseDistinct (c : WmClient) (headers : list (string * string)) : Prop :=
  NoDup (map fst (importantView c headers)).

(** A lookup whose header names are ASCII: those of the map it is given
    and those the client holds as important.  The other lookups lower
    no name. *)
Definition asciiQuery (c : WmClient) (q : Query) : Prop :=
  match q with
  | ByHeaders headers =>
      Forall (fun h => isASCII h = true) (ImportantHeaders c)
      /\ Forall (fun kv => isASCII kv.1 = true) headers
  | _ => True
  end.

(** The fingerprint LookupHeaders derives for a header map. *)
Definition headersFingerprint (c : WmClient) (headers : list (string * string))
  : string :=
  getUserAgentCacheKey c (normalizedHeaders c headers).

(** The probe and the store of a lookup, on the cache it goes through. *)
Definition cacheGet (q : Query) (key : string) (c : WmClient)
  : option JSONDeviceData * WmClient :=
  if usesDeviceCache q then deviceCacheGet key c else userAgentCacheGet key c.

Definition cacheAdd (q : Query) (key : string) (d : JSONDeviceData) (c : WmClient)
  : WmClient :=
  if usesDeviceCache q then deviceCacheAdd key d c else userAgentCacheAdd key d c.

(** The exchange by which Create checks that the server is visible. *)
Definition handshakeCall (Scheme Host Port BaseURI : string) : HttpCall :=
  {| call_method := GET;
     call_url :=
       createURL (set_endpoint (if (0 <? len Scheme)%nat then Scheme else "http")
                               Host Port BaseURI zeroClient)
                 "/v2/getinfo/json";
     call_userAgent := ""; call_body := None |}.

(** Lookups one after the other. *)
Definition lookups (srv : Server) (qs : list Query) (w : World) : World :=
  fold_left (fun w q => (lookup srv q w).2) qs w.

(** [q'] repeats [q]: the same kind of lookup with the same key (the
    same user-agent, the same device id, header maps with the same
    fingerprint). *)
Definition sameLookup (c : WmClient) (q q' : Query) : Prop :=
  usesDeviceCache q' = usesDeviceCache q /\ cacheKey c q' = cacheKey c q.

(** The cache of [q] holds [d] under [key], in a world that has made the
    exchanges [log] and whose caches have the sizes [sizes]. *)
Definition serving (q : Query) (IH : list string) (key : string)
    (d : JSONDeviceData) (log : Log) (sizes : nat * nat) (w : World) : Prop :=
  ImportantHeaders (cl w) = IH
  /\ sent w = log
  /\ GetActualCacheSizes (cl w) = sizes
  /\ exists ch, cacheOf (cl w) q = Some ch /\ lru.find key (lru.ll ch) = Some d.

(** ** Sample data *)

Definition sampleDevice (id ltime : string) : JSONDeviceData :=
  {| APIVersion := "WURFL Microservice 2.1.0";
     Capabilities := <["wurfl_id" := id]> ∅;
     Error := ""; Mtime := 1569926400; Ltime := ltime |}.

Definition sampleError (msg ltime : string) : JSONDeviceData :=
  {| APIVersion := "WURFL Microservice 2.1.0";
     Capabilities := ∅;
     Error := msg; Mtime := 1569926400; Ltime := ltime |}.

(** A request whose only header, of those the client asks for, is the
    user-agent [ua]. *)
Definition sampleRequest (ua : string) : http_Request :=
  {| Header_Get := fun name => if String.eqb name "User-Agent" then ua else "" |}.

Definition sampleInfo : JSONInfoData :=
  {| WurflAPIVersion := "1.11.0.0"; WurflInfo := "wurfl.zip"; WmVersion := "2.1.0";
     info_ImportantHeaders := ["User-Agent"; "X-UCBrowser-Device-UA"];
     info_StaticCaps := ["model_name"; "brand_name"];
     info_VirtualCaps := ["is_ios"; "form_factor"];
     info_Ltime := "2019-10-01" |}.

Definition sampleOsVersions : list JSONDeviceOsVersions :=
  [ {| OsName := "Android"; OsVersion := "7.0" |};
    {| OsName := "Android"; OsVersion := "" |};
    {| OsName := "iOS"; OsVersion := "10.2" |} ].

Definition countPosts (log : Log) : nat :=
  length (List.filter (fun call => match call_method call with POST => true | GET => false end) log).

(** A server that is up, behind a transport that speaks http and https
    only: it serves [sampleInfo], answers the i-th lookup with the i-th
    element of [replies], and serves [sampleOsVersions]. *)
Definition sampleServer (replies : list JSONDeviceData) : Server :=
  {| serveInfo := fun _ call =>
       if String.prefix "http://" (call_url call)
          || String.prefix "https://" (call_url call)
       then inr sampleInfo
       else inl "unsupported protocol scheme";
     serveLookup := fun log _ =>
       match nth_error replies (countPosts log) with
       | Some d => inr d
       | None => inl "connection refused"
       end;
     serveMakeModels := fun _ _ => inl "connection refused";
     serveOsVersions := fun _ _ => inr sampleOsVersions |}.

(** A server that cannot be reached. *)
Definition downServer : Server :=
  {| serveInfo := fun _ _ => inl "connection refused";
     serveLookup := fun _ _ => inl "connection refused";
     serveMakeModels := fun _ _ => inl "connection refused";
     serveOsVersions := fun _ _ => inl "connection refused" |}.

(** The client Create returns against [sampleServer]. *)
Definition sampleClient : WmClient :=
  set_clientLtime "2019-10-01"
    (set_registry ["User-Agent"; "X-UCBrowser-Device-UA"]
                  ["brand_name"; "model_name"] ["form_factor"; "is_ios"]
                  (set_endpoint "http" "localhost" "8080" "" zeroClient)).


(** [sampleClient] with caches, holding one device in each. *)
Definition warmClient : WmClient :=
  deviceCacheAdd "nokia_generic_series40" (sampleDevice "nokia_generic_series40" "2019-10-01")
    (userAgentCacheAdd "d41d8cd98f00b204e9800998ecf8427e" (sampleDevice "generic" "2019-10-01")
       (SetCacheSize 1000
          (set_requestedStaticCaps (Some ["brand_name"]) sampleClient))).

(** ** Notions for the further properties *)

(** What identifies a client for its whole life: where its server is,
    and what the server declared at the handshake. *)
Definition sameIdentity (c c' : WmClient) : Prop :=
  scheme c' = scheme c /\ host c' = host c /\ port c' = port c
  /\ baseURI c' = baseURI c
  /\ StaticCaps c' = StaticCaps c /\ VirtualCaps c' = VirtualCaps c
  /\ ImportantHeaders c' = ImportantHeaders c.


(** A cache that holds one entry per key at most and, when its capacity
    is positive, no more entries than its capacity. *)
Definition boundedCache (oc : option lru.Cache) : Prop :=
  match oc with
  | Some ch =>
      NoDup (map fst (lru.ll ch))
      /\ ((0 < lru.MaxEntries ch)%Z ->
          (Z.of_nat (lru.Len ch) <= lru.MaxEntries ch)%Z)
  | None => True
  end.

Definition boundedCaches (c : WmClient) : Prop :=
  boundedCache (deviceCache c) /\ boundedCache (userAgentCache c)
  /\ forall ch, deviceCache c = Some ch -> lru.MaxEntries ch = deviceDefaultCacheSize.

(** The next lookup goes to the server and asks for the lists [s] and
    [v]. *)
Definition lookupAsksFor (srv : Server) (q : Query) (w : World)
    (s v : option (list string)) : Prop :=
  exists call req,
    sent (lookup srv q w).2 = sent w ++ [call]
    /\ call_body call = Some req
    /\ req_RequestedCaps req = s /\ req_RequestedVCaps req = v.


(** The distinct strings of a list, in the order of their first
    occurrence. *)
Fixpoint firstSeen (l : list string) : list string :=
  match l with
  | [] => []
  | x :: l' => x :: List.filter (fun y => negb (String.eqb y x)) (firstSeen l')
  end.

(** The versions a listing gives for an OS name, and the devices it
    gives for a brand, in listing order. *)
Definition versionsOfOs (name : string) (l : list JSONDeviceOsVersions) : list string :=
  map OsVersion (List.filter (fun e => String.eqb (OsName e) name) l).

Definition devicesOfMake (brand : string) (l : list JSONMakeModel)
  : list JSONModelMktName :=
  map (fun e => {| ModelName := mm_ModelName e; MarketingName := mm_MarketingName e |})
      (List.filter (fun e => String.eqb (BrandName e) brand) l).

(** The key list and the map of each auxiliary table go together: no
    key is listed twice, and the keys listed are the keys of the map. *)
Definition tablesConsistent (c : WmClient) : Prop :=
  NoDup (deviceOses c)
  /\ (forall name, In name (deviceOses c) <-> is_Some (deviceOsVerMap c !! name))
  /\ NoDup (deviceMakes c)
  /\ (forall brand, In brand (deviceMakes c) <-> is_Some (deviceMakesMap c !! brand)).

(** The exchanges that load the tables. *)
Definition osVersionsCall (c : WmClient) : HttpCall :=
  {| call_method := GET; call_url := createURL c "/v2/alldeviceosversions/json";
     call_userAgent := ""; call_body := None |}.

Definition makeModelsCall (c : WmClient) : HttpCall :=
  {| call_method := GET; call_url := createURL c "/v2/alldevices/json";
     call_userAgent := ""; call_body := None |}.

(** One turn of the loop that builds a table, for any way to read a key
    and a value off an entry of the listing; and the values a listing
    gives to a key, in listing order. *)
Definition tableStep {E V : Type} (keyOf : E -> string) (valOf : E -> V)
    (acc : gmap string (list V) * list string) (e : E)
  : gmap string (list V) * list string :=
  let '(m, ks) := acc in
  let ks := match m !! keyOf e with None => ks ++ [keyOf e] | Some _ => ks end in
  (<[keyOf e := default [] (m !! keyOf e) ++ [valOf e]]> m, ks).

Definition valuesFor {E V : Type} (keyOf : E -> string) (valOf : E -> V)
    (k : string) (l : list E) : list V :=
  map valOf (List.filter (fun e => String.eqb (keyOf e) k) l).


(** The exchange of GetInfo. *)
Definition infoCall (c : WmClient) : HttpCall :=
  {| call_method := GET; call_url := createURL c "/v2/getinfo/json";
     call_userAgent := ""; call_body := None |}.

(** The completeness test of GetInfo, spelled out. *)
Definition completeInfo (info : JSONInfoData) : Prop :=
  WmVersion info <> "" /\ WurflAPIVersion info <> "" /\ WurflInfo info <> ""
  /\ (info_StaticCaps info <> [] \/ info_VirtualCaps info <> []).

(** *** The transport and its timeouts

    [time.Duration] is an int64 count of nanoseconds; a product that
    leaves the int64 range wraps around. *)
Definition wrap64 (x : Z) : Z :=
  ((x + 2 ^ 63) mod 2 ^ 64 - 2 ^ 63)%Z.

Definition time_Second : Z := 1000000000.

(** default timeouts *)
Definition defaultConnTimeout : Z := wrap64 (10 * time_Second).
Definition defaultTransferTimeout : Z := wrap64 (60 * time_Second).

(** The [http.Client] of the client, by the settings createHTTPClient
    gives it. *)
Record http_Client := {
  Dial_Timeout : Z;
  MaxIdleConns : Z;
  MaxIdleConnsPerHost : Z;
  ResponseHeaderTimeout : Z;
  Timeout : Z
}.

(** creates a new http.Client with the specified timeouts *)
Definition createHTTPClient (connTimeout transferTimeout : Z) : http_Client :=
  {| Dial_Timeout := connTimeout;
     MaxIdleConns := 100;
     MaxIdleConnsPerHost := 100;
     ResponseHeaderTimeout := wrap64 (10 * time_Second);
     Timeout := transferTimeout |}.

(** SetHTTPTimeout sets the connection and transfer timeouts for this
    client in seconds: the two durations it stores in the client, and
    the http client it installs. *)
Definition SetHTTPTimeout (connection transfer : Z) : Z * Z * http_Client :=
  let connTimeout :=
    if (connection <=? 0)%Z then defaultConnTimeout
    else wrap64 (wrap64 connection * time_Second) in
  let transferTimeout :=
    if (transfer <=? 0)%Z then defaultTransferTimeout
    else wrap64 (wrap64 transfer * time_Second) in
  (connTimeout, transferTimeout, createHTTPClient connTimeout transferTimeout).

(** A listing of devices, and a server that serves it next to
    [sampleInfo] and [sampleOsVersions]. *)
Definition sampleMakeModels : list JSONMakeModel :=
  [ {| BrandName := "Nokia"; mm_ModelName := "3310"; mm_MarketingName := "" |};
    {| BrandName := "Apple"; mm_ModelName := "iPhone"; mm_MarketingName := "iPhone 7" |};
    {| BrandName := "Nokia"; mm_ModelName := "N95"; mm_MarketingName := "" |} ].

Definition catalogServer : Server :=
  {| serveInfo := fun _ _ => inr sampleInfo;
     serveLookup := fun _ _ => inl "connection refused";
     serveMakeModels := fun _ _ => inr sampleMakeModels;
     serveOsVersions := fun _ _ => inr sampleOsVersions |}.

(** * Properties *)

(** ** The digest *)

Example md5_empty : MD5.hexsum "" = "d41d8cd98f00b204e9800998ecf8427e".
Proof. vm_compute. reflexivity. Qed.

Example md5_abc : MD5.hexsum "abc" = "900150983cd24fb0d6963f7d28e17f72".
Proof. vm_compute. reflexivity. Qed.

Example md5_two_blocks :
  MD5.hexsum "xxxxxxxxxxxxxxxxxxxxxxxxxxxxxxxxxxxxxxxxxxxxxxxxxxxxxxxxxxxxxxxxxxxxxx"
  = "7d56c0f83fd1e320d60ea2f13dfdeedd".
Proof. vm_compute. reflexivity. Qed.

(** ** The capability registry *)

Lemma ascii_compare_trans (a b c : ascii) (r : comparison) :
  Ascii.compare a b = r -> Ascii.compare b c = r -> Ascii.compare a c = r.
Proof.
  unfold Ascii.compare. intros H1 H2. destruct r.
  - apply N.compare_eq_iff in H1, H2. apply N.compare_eq_iff. congruence.
  - rewrite N.compare_lt_iff in *. lia.
  - rewrite N.compare_gt_iff in *. lia.
Qed.

Lemma string_leb_trans (s1 s2 s3 : string) :
  String.leb s1 s2 = true -> String.leb s2 s3 = true -> String.leb s1 s3 = true.
Proof.
  unfold String.leb. revert s2 s3.
  induction s1 as [|a s1 IH]; intros [|b s2] [|c s3]; simpl; try congruence.
  destruct (Ascii.compare a b) eqn:Eab; try discriminate;
    destruct (Ascii.compare b c) eqn:Ebc; try discriminate; intros H1 H2.
  - rewrite (ascii_compare_trans a b c Eq Eab Ebc). eapply IH; eassumption.
  - apply Ascii.compare_eq_iff in Eab. subst b. rewrite Ebc. reflexivity.
  - apply Ascii.compare_eq_iff in Ebc. subst c. rewrite Eab. reflexivity.
  - rewrite (ascii_compare_trans a b c Lt Eab Ebc). reflexivity.
Qed.

Lemma string_leb_refl (s : string) : String.leb s s = true.
Proof.
  destruct (String.leb_total s s); assumption.
Qed.

Lemma bisect_S (fuel : nat) (f : nat -> bool) (i j : nat) :
  bisect (S fuel) f i j
  = if (i <? j)%nat then
      let h := ((i + j) / 2)%nat in
      if negb (f h) then bisect fuel f (h + 1)%nat j else bisect fuel f i h
    else i.
Proof. reflexivity. Qed.

(** [sort.Search] on a predicate that is false then true: [fuel] turns
    are enough when [fuel] is at least [j - i], and the result is the
    least index at which the predicate holds ([n] if there is none). *)
Lemma bisect_least (f : nat -> bool) (n fuel i j : nat) :
  (forall k k', (k <= k')%nat -> (k' < n)%nat -> f k = true -> f k' = true) ->
  (j - i <= fuel)%nat -> (i <= j)%nat -> (j <= n)%nat ->
  (forall k, (k < i)%nat -> f k = false) ->
  (forall k, (j <= k)%nat -> (k < n)%nat -> f k = true) ->
  let r := bisect fuel f i j in
  (r <= n)%nat
  /\ (forall k, (k < r)%nat -> f k = false)
  /\ (forall k, (r <= k)%nat -> (k < n)%nat -> f k = true).
Proof.
  intros Hmono. revert i j.
  induction fuel as [|fuel IH]; intros i j Hfuel Hij Hjn Hlo Hhi.
  - simpl. assert (i = j) by lia. subst j.
    repeat split; [lia | assumption | assumption].
  - rewrite bisect_S. cbv zeta. destruct (i <? j)%nat eqn:E.
    + apply Nat.ltb_lt in E.
      set (h := ((i + j) / 2)%nat).
      assert (i <= h /\ h < j)%nat as [Hh1 Hh2].
      { subst h. pose proof (Nat.div_mod_eq (i + j) 2) as Hd.
        pose proof (Nat.mod_upper_bound (i + j) 2). lia. }
      destruct (f h) eqn:Ef; simpl negb; cbv iota.
      * apply IH; try lia; try assumption.
        intros k Hk1 Hk2. apply (Hmono h k); assumption.
      * apply IH; try lia; try assumption.
        intros k Hk. destruct (f k) eqn:Efk; [|reflexivity].
        rewrite (Hmono k h) in Ef; [discriminate|lia|lia|assumption].
    + apply Nat.ltb_ge in E. assert (i = j) by lia. subst j.
      repeat split; [lia | assumption | assumption].
Qed.

Lemma SearchStrings_least (a : list string) (x : string) :
  ascending a ->
  let r := SearchStrings a x in
  (r <= length a)%nat
  /\ (forall k, (k < r)%nat -> String.leb x (nth k a "") = false)
  /\ (forall k, (r <= k)%nat -> (k < length a)%nat -> String.leb x (nth k a "") = true).
Proof.
  intros Hasc. unfold SearchStrings, sort_Search.
  apply (bisect_least (fun i => String.leb x (nth i a "")) (length a)).
  - intros k k' Hk Hk' H. eapply string_leb_trans; [exact H|].
    apply Hasc; assumption.
  - lia.
  - lia.
  - lia.
  - intros k Hk. lia.
  - intros k Hk1 Hk2. lia.
Qed.

(** On an ascending slice sliceHasValue is membership. *)
Lemma sliceHasValue_In (slist : list string) (value : string) :
  ascending slist -> sliceHasValue slist value = true <-> In value slist.
Proof.
  intros Hasc. unfold sliceHasValue.
  destruct (SearchStrings_least slist value Hasc) as (Hr & Hlo & Hhi).
  set (r := SearchStrings slist value) in *. split.
  - intros H. apply andb_prop in H. destruct H as [H1 H2].
    apply Nat.ltb_lt in H1. apply String.eqb_eq in H2. rewrite H2.
    apply nth_In. assumption.
  - intros Hin. destruct (In_nth _ _ "" Hin) as (p & Hp & Hnth).
    assert (r <= p)%nat as Hrp.
    { destruct (Nat.le_gt_cases r p) as [H|H]; [assumption|].
      specialize (Hlo p H). rewrite Hnth, string_leb_refl in Hlo. discriminate. }
    apply andb_true_intro. split; [apply Nat.ltb_lt; lia|].
    apply String.eqb_eq. apply String.leb_antisym.
    + apply Hhi; lia.
    + pose proof (Hasc r p Hrp Hp) as H. rewrite Hnth in H. exact H.
Qed.

Lemma insert_sorted_In (x y : string) (l : list string) :
  In y (insert_sorted x l) <-> y = x \/ In y l.
Proof.
  induction l as [|z l IH]; simpl; [intuition|].
  destruct (String.leb x z); simpl; [intuition|].
  rewrite IH. intuition.
Qed.

Lemma sort_Strings_In (y : string) (l : list string) :
  In y (sort_Strings l) <-> In y l.
Proof.
  unfold sort_Strings. induction l as [|x l IH]; simpl; [reflexivity|].
  rewrite insert_sorted_In, IH. intuition.
Qed.

Lemma insert_sorted_StronglySorted (x : string) (l : list string) :
  StronglySorted (fun a b => String.leb a b = true) l ->
  StronglySorted (fun a b => String.leb a b = true) (insert_sorted x l).
Proof.
  induction 1 as [|z l Hs IH Hz]; simpl.
  - repeat constructor.
  - destruct (String.leb x z) eqn:E.
    + constructor; [constructor; assumption|].
      constructor; [assumption|].
      rewrite List.Forall_forall in Hz |- *. intros y Hy.
      eapply string_leb_trans; [exact E | apply Hz, Hy].
    + constructor; [assumption|].
      rewrite List.Forall_forall in Hz |- *. intros y Hy.
      apply insert_sorted_In in Hy. destruct Hy as [->|Hy]; [|apply Hz, Hy].
      destruct (String.leb_total x z) as [H|H]; [congruence | assumption].
Qed.

Lemma StronglySorted_ascending (l : list string) :
  StronglySorted (fun a b => String.leb a b = true) l -> ascending l.
Proof.
  induction 1 as [|z l Hs IH Hz]; intros i j Hij Hj; simpl in Hj; [lia|].
  destruct i as [|i], j as [|j]; simpl; try lia.
  - apply string_leb_refl.
  - rewrite List.Forall_forall in Hz. apply Hz, nth_In. lia.
  - apply IH; lia.
Qed.

Lemma sort_Strings_ascending (l : list string) : ascending (sort_Strings l).
Proof.
  apply StronglySorted_ascending. unfold sort_Strings.
  induction l as [|x l IH]; simpl; [constructor|].
  apply insert_sorted_StronglySorted. assumption.
Qed.

(** ** clearCache *)

Section ClearCache.
Variable c : WmClient.

Lemma clearCache_userAgentCache :
  userAgentCache (clearCache c) = lru.Clear <$> userAgentCache c.
Proof.
  unfold clearCache.
  destruct (userAgentCache c) as [[m l]|] eqn:Hu; simpl.
  - destruct l; simpl.
    + destruct (deviceCache c) as [dc|]; simpl;
        [destruct (0 <? lru.Len dc)%nat|]; simpl; rewrite Hu; reflexivity.
    + destruct (deviceCache c) as [dc|]; simpl;
        [destruct (0 <? lru.Len dc)%nat|]; reflexivity.
  - destruct (deviceCache c) as [dc|]; simpl;
      [destruct (0 <? lru.Len dc)%nat|]; simpl; rewrite Hu; reflexivity.
Qed.

Lemma clearCache_deviceCache :
  deviceCache (clearCache c) = lru.Clear <$> deviceCache c.
Proof.
  unfold clearCache.
  destruct (userAgentCache c) as [uc|]; simpl;
    [destruct (0 <? lru.Len uc)%nat|]; simpl;
    (destruct (deviceCache c) as [[m l]|] eqn:Hd; simpl;
     [destruct l; simpl; [rewrite Hd|]; reflexivity | rewrite Hd; reflexivity]).
Qed.

Lemma clearCache_sizes : GetActualCacheSizes (clearCache c) = (0%nat, 0%nat).
Proof.
  unfold GetActualCacheSizes.
  rewrite clearCache_deviceCache, clearCache_userAgentCache.
  destruct (deviceCache c), (userAgentCache c); reflexivity.
Qed.

Lemma clearCache_tables :
  mkModels (clearCache c) = []
  /\ deviceMakes (clearCache c) = [] /\ deviceMakesMap (clearCache c) = ∅
  /\ deviceOses (clearCache c) = [] /\ deviceOsVerMap (clearCache c) = ∅.
Proof. unfold clearCache; repeat split. Qed.

(** clearCache touches nothing but the caches and the tables. *)
Lemma clearCache_frame :
  StaticCaps (clearCache c) = StaticCaps c
  /\ VirtualCaps (clearCache c) = VirtualCaps c
  /\ requestedStaticCaps (clearCache c) = requestedStaticCaps c
  /\ requestedVirtualCaps (clearCache c) = requestedVirtualCaps c
  /\ ImportantHeaders (clearCache c) = ImportantHeaders c
  /\ clientLtime (clearCache c) = clientLtime c
  /\ scheme (clearCache c) = scheme c /\ host (clearCache c) = host c
  /\ port (clearCache c) = port c /\ baseURI (clearCache c) = baseURI c.
Proof.
  unfold clearCache.
  destruct (userAgentCache c) as [uc|]; simpl;
    [destruct (0 <? lru.Len uc)%nat|]; simpl;
    (destruct (deviceCache c) as [dc|]; simpl;
     [destruct (0 <? lru.Len dc)%nat|]; simpl; repeat split).
Qed.

Lemma clearCache_requestedStaticCaps :
  requestedStaticCaps (clearCache c) = requestedStaticCaps c.
Proof. apply clearCache_frame. Qed.

Lemma clearCache_requestedVirtualCaps :
  requestedVirtualCaps (clearCache c) = requestedVirtualCaps c.
Proof. apply clearCache_frame. Qed.

Lemma clearCache_ImportantHeaders :
  ImportantHeaders (clearCache c) = ImportantHeaders c.
Proof. apply clearCache_frame. Qed.

Lemma clearCache_clientLtime : clientLtime (clearCache c) = clientLtime c.
Proof. apply clearCache_frame. Qed.
End ClearCache.

#[global] Arguments clearCache : simpl never.

Lemma string_eqb_false (s t : string) : s <> t -> String.eqb s t = false.
Proof. intros H. apply String.eqb_neq. exact H. Qed.

Lemma len_pos (s : string) : s <> "" -> (0 <? len s)%nat = true.
Proof. destruct s; [congruence | reflexivity]. Qed.

Lemma len_zero (s : string) : (0 <? len s)%nat = false -> s = "".
Proof. destruct s; [reflexivity | discriminate]. Qed.

(** A token that is not empty and is not the stored one invalidates. *)
Lemma clearCachesIfNeeded_fires (ltime : string) (c : WmClient) :
  ltime <> "" -> ltime <> clientLtime c ->
  clearCachesIfNeeded ltime c = clearCache (set_clientLtime ltime c).
Proof.
  intros Hne Hdiff. unfold clearCachesIfNeeded.
  rewrite len_pos by assumption.
  rewrite string_eqb_false by congruence. reflexivity.
Qed.

(** An empty token, or the stored one, changes nothing. *)
Lemma clearCachesIfNeeded_idle (ltime : string) (c : WmClient) :
  ltime = "" \/ ltime = clientLtime c -> clearCachesIfNeeded ltime c = c.
Proof.
  intros [->| ->]; unfold clearCachesIfNeeded; [reflexivity|].
  rewrite String.eqb_refl, andb_false_r. reflexivity.
Qed.

(** C4, as amended: for every client state and every non-empty response
    reload-time token that differs from the stored token,
    clearCachesIfNeeded stores the new token and empties both LRU caches
    and the three auxiliary tables (make/model list, brand map and key
    list, OS map and key list); StaticCaps and VirtualCaps stay as they
    were. *)
Theorem clearCachesIfNeeded_invalidates (c : WmClient) (ltime : string) :
  ltime <> "" -> ltime <> clientLtime c ->
  invalidated ltime c (clearCachesIfNeeded ltime c).
Proof.
  intros Hne Hdiff. rewrite clearCachesIfNeeded_fires by assumption.
  pose proof (clearCache_frame (set_clientLtime ltime c)) as F.
  pose proof (clearCache_tables (set_clientLtime ltime c)) as T.
  unfold invalidated. rewrite clearCache_sizes.
  destruct F as (F1 & F2 & _ & _ & _ & F6 & _).
  destruct T as (T1 & T2 & T3 & T4 & T5).
  repeat split; assumption.
Qed.

Lemma clearCachesIfNeeded_invalidates_witness :
  invalidated "2199-12-31" warmClient (clearCachesIfNeeded "2199-12-31" warmClient).
Proof.
  apply (clearCachesIfNeeded_invalidates warmClient "2199-12-31");
    vm_compute; discriminate.
Defined.

(** C4, as stated, fails on the empty token: it differs from the stored
    token, yet the client keeps its token and its cached devices. *)
Lemma clearCachesIfNeeded_empty_token_keeps_caches :
  "" <> clientLtime warmClient
  /\ clientLtime (clearCachesIfNeeded "" warmClient) = "2019-10-01"
  /\ GetActualCacheSizes (clearCachesIfNeeded "" warmClient) = (1%nat, 1%nat)
  /\ ~ invalidated "" warmClient (clearCachesIfNeeded "" warmClient).
Proof.
  split; [vm_compute; discriminate|].
  split; [vm_compute; reflexivity|].
  split; [vm_compute; reflexivity|].
  intros (H & _). vm_compute in H. discriminate.
Qed.

(** ** Requested capabilities *)

Lemma length_pos_iff {A} (l : list A) : (0 <? length l)%nat = true <-> l <> [].
Proof.
  destruct l; split; intros H.
  - discriminate H.
  - contradiction H; reflexivity.
  - discriminate.
  - reflexivity.
Qed.

(** The static setter: a nil argument or a non-empty filtered list
    commits and empties both caches. *)
Lemma SetRequestedStaticCapabilities_commits (c : WmClient) (CapsList : option (list string)) :
  match CapsList with
  | None => True
  | Some l => keepKnown (HasStaticCapability c) l <> []
  end ->
  requestedStaticCaps (SetRequestedStaticCapabilities CapsList c)
    = keepKnown (HasStaticCapability c) <$> CapsList
  /\ GetActualCacheSizes (SetRequestedStaticCapabilities CapsList c) = (0%nat, 0%nat).
Proof.
  intros H. unfold SetRequestedStaticCapabilities.
  destruct CapsList as [l|].
  - apply length_pos_iff in H. rewrite H. rewrite clearCache_sizes.
    split; [|reflexivity]. rewrite clearCache_requestedStaticCaps. reflexivity.
  - rewrite clearCache_sizes.
    split; [|reflexivity]. rewrite clearCache_requestedStaticCaps. reflexivity.
Qed.

(** The static setter: a non-nil argument with no known name changes
    nothing at all. *)
Lemma SetRequestedStaticCapabilities_all_unknown (c : WmClient) (l : list string) :
  keepKnown (HasStaticCapability c) l = [] ->
  SetRequestedStaticCapabilities (Some l) c = c.
Proof. intros H. unfold SetRequestedStaticCapabilities. rewrite H. reflexivity. Qed.

Lemma SetRequestedVirtualCapabilities_commits (c : WmClient) (CapsList : option (list string)) :
  match CapsList with
  | None => True
  | Some l => keepKnown (HasVirtualCapability c) l <> []
  end ->
  requestedVirtualCaps (SetRequestedVirtualCapabilities CapsList c)
    = keepKnown (HasVirtualCapability c) <$> CapsList
  /\ GetActualCacheSizes (SetRequestedVirtualCapabilities CapsList c) = (0%nat, 0%nat).
Proof.
  intros H. unfold SetRequestedVirtualCapabilities.
  destruct CapsList as [l|].
  - apply length_pos_iff in H. rewrite H. rewrite clearCache_sizes.
    split; [|reflexivity]. rewrite clearCache_requestedVirtualCaps. reflexivity.
  - rewrite clearCache_sizes.
    split; [|reflexivity]. rewrite clearCache_requestedVirtualCaps. reflexivity.
Qed.

Lemma SetRequestedVirtualCapabilities_all_unknown (c : WmClient) (l : list string) :
  keepKnown (HasVirtualCapability c) l = [] ->
  SetRequestedVirtualCapabilities (Some l) c = c.
Proof. intros H. unfold SetRequestedVirtualCapabilities. rewrite H. reflexivity. Qed.

(** The combined setter empties both caches whatever its argument. *)
Lemma SetRequestedCapabilities_clears (c : WmClient) (CapsList : option (list string)) :
  GetActualCacheSizes (SetRequestedCapabilities CapsList c) = (0%nat, 0%nat).
Proof.
  unfold SetRequestedCapabilities.
  destruct CapsList; apply clearCache_sizes.
Qed.

(** The scenario of TestSetRequestedCapabilities: one known name, one
    unknown name and one name of the other kind in each list. *)
Example requested_capabilities_scenario :
  let c := SetRequestedVirtualCapabilities (Some ["is_ios"; "invalid_name2"; "brand_name"])
             (SetRequestedStaticCapabilities (Some ["brand_name"; "invalid_name1"; "is_ios"])
                sampleClient) in
  requestedStaticCaps c = Some ["brand_name"]
  /\ requestedVirtualCaps c = Some ["is_ios"].
Proof. vm_compute. split; reflexivity. Qed.

(** C1, at the input where the code departs from it: on a client with
    requested static capabilities [brand_name] and one device in each
    cache, SetRequestedCapabilities with a non-nil list of names that
    are all unknown to the registry does not leave the committed state
    and the caches as they were: it commits two empty lists and empties
    both caches.  The two single-list setters, on the same input, change
    nothing. *)
Theorem SetRequestedCapabilities_all_unknown_commits :
  let CapsList := Some ["invalid_name1"; "invalid_name2"] in
  let c' := SetRequestedCapabilities CapsList warmClient in
  keepKnown (HasStaticCapability warmClient) ["invalid_name1"; "invalid_name2"] = []
  /\ keepKnown (HasVirtualCapability warmClient) ["invalid_name1"; "invalid_name2"] = []
  /\ requestedStaticCaps warmClient = Some ["brand_name"]
  /\ requestedVirtualCaps warmClient = None
  /\ GetActualCacheSizes warmClient = (1%nat, 1%nat)
  /\ requestedStaticCaps c' = Some []
  /\ requestedVirtualCaps c' = Some []
  /\ GetActualCacheSizes c' = (0%nat, 0%nat)
  /\ SetRequestedStaticCapabilities CapsList warmClient = warmClient
  /\ SetRequestedVirtualCapabilities CapsList warmClient = warmClient.
Proof. vm_compute. repeat split; reflexivity. Qed.

(** ** Auxiliary tables *)

(** In a run of one operation at a time GetAllOSes and GetAllDeviceMakes
    return no error at all: the refresh is only attempted on an empty
    table, and an error met with an empty table is dropped. *)
Lemma GetAllOSes_sequential (srv : Server) (w : World) :
  (GetAllOSes srv w).1.2 = None.
Proof.
  unfold GetAllOSes, loadDeviceOsesData.
  destruct (0 <? length (deviceOses (cl w)))%nat eqn:Hlen; simpl; [reflexivity|].
  unfold internalGet. destruct (serveOsVersions srv _ _) as [e|l]; simpl.
  - rewrite Hlen. reflexivity.
  - destruct (foldOsVersions l). reflexivity.
Qed.

Lemma GetAllDeviceMakes_sequential (srv : Server) (w : World) :
  (GetAllDeviceMakes srv w).1.2 = None.
Proof.
  unfold GetAllDeviceMakes, loadDeviceMakesData.
  destruct (0 <? length (deviceMakes (cl w)))%nat eqn:Hlen; simpl; [reflexivity|].
  unfold internalGet. destruct (serveMakeModels srv _ _) as [e|l]; simpl.
  - rewrite Hlen. reflexivity.
  - destruct (foldMakeModels l). reflexivity.
Qed.




(** A name of the table never yields the not-found error, a name absent
    from it always does. *)
Lemma GetAllVersionsForOS_found_iff (c : WmClient) (osName : string) :
  (GetAllVersionsForOS_return c None osName).2 = None
  <-> is_Some (deviceOsVerMap c !! osName).
Proof.
  unfold GetAllVersionsForOS_return.
  destruct (deviceOsVerMap c !! osName); simpl; split; intros H;
    try reflexivity; try (eexists; reflexivity); try discriminate.
  destruct H; discriminate.
Qed.

(** C9: the table built from [("Android","7.0"); ("Android","");
    ("iOS","10.2")].  The map keeps the blank version of Android,
    GetAllVersionsForOS("Android") returns ["7.0"], GetAllOSes returns
    ["Android"; "iOS"], and a name absent from the table gets the
    not-found error, which an empty result (that of a name whose versions
    are all blank) does not carry.  A fresh client that loads the listing
    from the server ends with this table. *)
Theorem os_table_scenario (srv : Server) (c : WmClient) :
  let '(ovMap, ov) := foldOsVersions sampleOsVersions in
  let w := {| cl := set_deviceOses ov ovMap c; sent := [] |} in
  ovMap !! "Android" = Some ["7.0"; ""]
  /\ (GetAllVersionsForOS srv "Android" w).1 = (["7.0"], None)
  /\ (GetAllOSes srv w).1 = (["Android"; "iOS"], None)
  /\ (GetAllVersionsForOS srv "Symbian" w).1
     = ([], Some "Error getting data from WM server: Symbian does not exist")
  /\ GetAllVersionsForOS_return
       (set_deviceOses ["Tizen"] (<["Tizen" := [""]]> ∅) c) None "Tizen"
     = ([], None)
  /\ (loadDeviceOsesData (sampleServer []) {| cl := sampleClient; sent := [] |}).2
     = {| cl := set_deviceOses ov ovMap sampleClient;
          sent := [ {| call_method := GET;
                       call_url := "http://localhost:8080/v2/alldeviceosversions/json";
                       call_userAgent := ""; call_body := None |} ] |}.
Proof. vm_compute. repeat split; reflexivity. Qed.

(** ** Create *)

(** Create returns a client only with a nil error, and then the client
    carries the endpoint it was given and the registry the server
    declared, sorted. *)
Lemma Create_all_or_nothing (srv : Server) (Scheme Host Port BaseURI : string)
    (log : Log) (oc : option WmClient) (err : option error) (log' : Log) :
  Create srv Scheme Host Port BaseURI log = ((oc, err), log') ->
  log' = log ++ [handshakeCall Scheme Host Port BaseURI]
  /\ match oc with
     | None => exists e, err = Some e
     | Some c =>
         err = None
         /\ exists info,
             serveInfo srv log (handshakeCall Scheme Host Port BaseURI) = inr info
             /\ checkData info = true
             /\ scheme c = (if (0 <? len Scheme)%nat then Scheme else "http")
             /\ host c = Host /\ port c = Port /\ baseURI c = BaseURI
             /\ ImportantHeaders c = info_ImportantHeaders info
             /\ StaticCaps c = sort_Strings (info_StaticCaps info)
             /\ VirtualCaps c = sort_Strings (info_VirtualCaps info)
     end.
Proof.
  unfold Create, GetInfo, internalGet. cbn [cl sent].
  fold (handshakeCall Scheme Host Port BaseURI).
  destruct (serveInfo srv log (handshakeCall Scheme Host Port BaseURI))
    as [e|info] eqn:Hserve.
  - intros [= <- <- <-]. split; [reflexivity|]. eexists; reflexivity.
  - destruct (checkData info) eqn:Hck; cbn [negb cl sent].
    + intros [= <- <- <-]. split; [reflexivity|]. split; [reflexivity|].
      exists info. split; [reflexivity|]. split; [assumption|].
      unfold clearCachesIfNeeded.
      destruct (_ && _); repeat split.
    + intros [= <- <- <-]. split; [reflexivity|]. eexists; reflexivity.
Qed.

(** The registry of a client that Create returned answers membership
    in the lists the server declared. *)
Lemma Create_registry_membership (srv : Server) (Scheme Host Port BaseURI : string)
    (log log' : Log) (c : WmClient) (name : string) :
  Create srv Scheme Host Port BaseURI log = ((Some c, None), log') ->
  exists info,
    serveInfo srv log (handshakeCall Scheme Host Port BaseURI) = inr info
    /\ (HasStaticCapability c name = true <-> In name (info_StaticCaps info))
    /\ (HasVirtualCapability c name = true <-> In name (info_VirtualCaps info)).
Proof.
  intros HC. apply Create_all_or_nothing in HC.
  destruct HC as (_ & _ & info & Hs & _ & _ & _ & _ & _ & _ & Hst & Hv).
  exists info. split; [assumption|].
  unfold HasStaticCapability, HasVirtualCapability. rewrite Hst, Hv.
  rewrite !sliceHasValue_In by apply sort_Strings_ascending.
  rewrite !sort_Strings_In. split; reflexivity.
Qed.

(** C6, as amended: for every construction attempt whose initial
    handshake fails in the transport (as it does for a scheme the
    transport does not support, or for an unreachable host), Create
    returns that error and a nil client; and Create never returns a
    client together with an error, nor a client that lacks the endpoint
    or the registry.  An empty scheme is no failure: it stands for
    "http". *)
Theorem Create_fails_when_handshake_fails (srv : Server)
    (Scheme Host Port BaseURI : string) (log : Log) (e : error) :
  serveInfo srv log (handshakeCall Scheme Host Port BaseURI) = inl e ->
  Create srv Scheme Host Port BaseURI log
    = ((None, Some e), log ++ [handshakeCall Scheme Host Port BaseURI])
  /\ (forall srv' Scheme' Host' Port' BaseURI' log0 c err log',
        Create srv' Scheme' Host' Port' BaseURI' log0 = ((Some c, err), log') ->
        err = None
        /\ host c = Host' /\ port c = Port' /\ baseURI c = BaseURI'
        /\ scheme c = (if (0 <? len Scheme')%nat then Scheme' else "http")
        /\ exists info,
            serveInfo srv' log0 (handshakeCall Scheme' Host' Port' BaseURI') = inr info
            /\ ImportantHeaders c = info_ImportantHeaders info
            /\ StaticCaps c = sort_Strings (info_StaticCaps info)
            /\ VirtualCaps c = sort_Strings (info_VirtualCaps info)).
Proof.
  intros Hfail. split.
  - unfold Create, GetInfo, internalGet. cbn [cl sent].
    fold (handshakeCall Scheme Host Port BaseURI).
    rewrite Hfail. reflexivity.
  - intros srv' Scheme' Host' Port' BaseURI' log0 c err log' HC.
    apply Create_all_or_nothing in HC.
    destruct HC as (_ & -> & info & Hs & _ & Hsch & Hh & Hp & Hb & Hi & Hst & Hv).
    repeat split; try assumption.
    exists info. repeat split; assumption.
Qed.

Lemma Create_fails_when_handshake_fails_witness :
  Create (sampleServer []) "smtp" "localhost" "8080" "" []
  = ((None, Some "unsupported protocol scheme"),
     [] ++ [handshakeCall "smtp" "localhost" "8080" ""]).
Proof.
  apply (Create_fails_when_handshake_fails (sampleServer []) "smtp" "localhost" "8080" "" []
           "unsupported protocol scheme").
  vm_compute. reflexivity.
Defined.

(** An unreachable host: the same, with the error of the transport. *)
Example Create_with_server_down :
  (Create downServer "http" "localhost" "18080" "" []).1
  = (None, Some "connection refused").
Proof. reflexivity. Qed.

(** C6, as stated, fails on the empty scheme: against a server that is
    up (the one that refuses the scheme smtp above), Create with an
    empty scheme returns a client and no error; the handshake went to an
    http URL. *)
Lemma Create_empty_scheme_succeeds :
  Create (sampleServer []) "" "localhost" "8080" "" []
  = ((Some sampleClient, None),
     [ {| call_method := GET; call_url := "http://localhost:8080/v2/getinfo/json";
          call_userAgent := ""; call_body := None |} ]).
Proof. vm_compute. reflexivity. Qed.

(** ** Lookups *)

Lemma set_userAgentCache_same (c : WmClient) :
  set_userAgentCache (userAgentCache c) c = c.
Proof. destruct c; reflexivity. Qed.

Lemma set_deviceCache_same (c : WmClient) :
  set_deviceCache (deviceCache c) c = c.
Proof. destruct c; reflexivity. Qed.

(** The four lookups have one shape. *)
Lemma lookup_shape (srv : Server) (q : Query) (w : World) :
  lookup srv q w =
  let hdrs := queryHeaders (cl w) q in
  match cacheGet q (keyFor (cl w) q hdrs) (cl w) with
  | (Some jdd, c) => ((Some jdd, None), {| cl := c; sent := sent w |})
  | (None, c) =>
      afterLookup (fun d c' => cacheAdd q (keyFor c' q hdrs) d c') c
        (internalLookup srv c
           {| req_LookupHeaders := hdrs;
              req_RequestedCaps := requestedStaticCaps c;
              req_RequestedVCaps := requestedVirtualCaps c;
              req_WurflID := match q with ByDeviceID deviceID => deviceID | _ => "" end;
              req_TacCode := "" |}
           (lookupPath q) (sent w))
  end.
Proof. destruct q; reflexivity. Qed.

(** A probe that misses leaves the client as it was. *)
Lemma cacheGet_miss (q : Query) (key : string) (c : WmClient) :
  (cacheGet q key c).1 = None -> (cacheGet q key c).2 = c.
Proof.
  unfold cacheGet, deviceCacheGet, userAgentCacheGet, lru.Get.
  destruct (usesDeviceCache q).
  - destruct (deviceCache c) as [[m l]|] eqn:Hc; simpl; [|reflexivity].
    destruct (lru.find key l); simpl; [discriminate|].
    intros _. rewrite <- Hc. apply set_deviceCache_same.
  - destruct (userAgentCache c) as [[m l]|] eqn:Hc; simpl; [|reflexivity].
    destruct (lru.find key l); simpl; [discriminate|].
    intros _. rewrite <- Hc. apply set_userAgentCache_same.
Qed.

(** A probe only reorders a cache: the exchanges are not its business,
    and what it finds is what the cache held. *)
Lemma cacheGet_found (q : Query) (c : WmClient) :
  (cacheGet q (cacheKey c q) c).1 = cached c q.
Proof.
  unfold cacheGet, cached, cacheOf, deviceCacheGet, userAgentCacheGet, lru.Get.
  destruct (usesDeviceCache q).
  - destruct (deviceCache c) as [[m l]|]; simpl; [|reflexivity].
    destruct (lru.find _ l); reflexivity.
  - destruct (userAgentCache c) as [[m l]|]; simpl; [|reflexivity].
    destruct (lru.find _ l); reflexivity.
Qed.

Lemma afterLookup_sent add c res :
  sent (afterLookup add c res).2 = res.2.
Proof.
  destruct res as [[[d|] [e|]] log']; reflexivity.
Qed.

Lemma afterLookup_result add c res :
  (afterLookup add c res).1 = res.1.
Proof.
  destruct res as [[[d|] [e|]] log']; reflexivity.
Qed.

Lemma internalLookup_sent srv c request path log :
  (internalLookup srv c request path log).2
  = log ++ [ {| call_method := POST; call_url := createURL c path;
                call_userAgent := getWmClientUserAgent "";
                call_body := Some request |} ].
Proof.
  unfold internalLookup.
  destruct (serveLookup srv _ _) as [e|d]; [reflexivity|].
  destruct (0 <? len (Error d))%nat; reflexivity.
Qed.

(** A lookup either is served by its cache, with no exchange, or makes
    exactly one exchange. *)
Lemma lookup_hit_or_call (srv : Server) (q : Query) (w : World) :
  match cached (cl w) q with
  | Some jdd =>
      (lookup srv q w).1 = (Some jdd, None) /\ sent (lookup srv q w).2 = sent w
  | None =>
      lookup srv q w
      = afterLookup
          (fun d c' => cacheAdd q (keyFor c' q (queryHeaders (cl w) q)) d c') (cl w)
          (internalLookup srv (cl w) (lookupPayload (cl w) q) (lookupPath q) (sent w))
      /\ sent (lookup srv q w).2 = sent w ++ [lookupCall (cl w) q]
  end.
Proof.
  rewrite lookup_shape. cbv zeta. fold (cacheKey (cl w) q).
  pose proof (cacheGet_found q (cl w)) as Hf.
  pose proof (cacheGet_miss q (cacheKey (cl w) q) (cl w)) as Hm.
  destruct (cacheGet q (cacheKey (cl w) q) (cl w)) as [[jdd|] c'];
    simpl in Hf, Hm; rewrite <- Hf.
  - split; reflexivity.
  - rewrite (Hm eq_refl). split; [reflexivity|].
    rewrite afterLookup_sent, internalLookup_sent. reflexivity.
Qed.

Lemma app_cons_neq {A} (l : list A) (x : A) : l <> l ++ [x].
Proof.
  intros H. apply (f_equal (@length A)) in H.
  rewrite length_app in H. simpl in H. lia.
Qed.

(** A lookup that goes to the server and is answered with an embedded
    error message returns the device of the response, its Error field
    blanked, and the message as its error. *)
Lemma lookup_application_error (srv : Server) (q : Query) (w : World)
    (d : JSONDeviceData) :
  cached (cl w) q = None ->
  serveLookup srv (sent w) (lookupCall (cl w) q) = inr d ->
  Error d <> "" ->
  (lookup srv q w).1
  = (Some (withoutError d), Some ("Received error from WM server: " +:+ Error d)).
Proof.
  intros Hmiss Hserve Herr.
  pose proof (lookup_hit_or_call srv q w) as H. rewrite Hmiss in H.
  destruct H as [-> _]. rewrite afterLookup_result.
  unfold internalLookup. fold (lookupCall (cl w) q).
  rewrite Hserve. rewrite len_pos by assumption. reflexivity.
Qed.

(** C7: for every lookup that goes to the server (its cache is off, or
    does not hold the key) and every well-formed response whose
    embedded error field is not empty, the lookup returns a non-nil
    error made of the server's message, together with a non-nil device
    whose API version, creation timestamp and load-time token (and
    capabilities) are those of the response. *)
Theorem application_error_keeps_partial_result (srv : Server) (q : Query)
    (w : World) (d : JSONDeviceData) :
  cached (cl w) q = None ->
  serveLookup srv (sent w) (lookupCall (cl w) q) = inr d ->
  Error d <> "" ->
  exists d',
    (lookup srv q w).1
      = (Some d', Some ("Received error from WM server: " +:+ Error d))
    /\ APIVersion d' = APIVersion d
    /\ Mtime d' = Mtime d
    /\ Ltime d' = Ltime d
    /\ Capabilities d' = Capabilities d.
Proof.
  intros Hmiss Hserve Herr. exists (withoutError d).
  split; [apply lookup_application_error; assumption|].
  repeat split.
Qed.

(** ** The lru cache *)

Section LruFacts.
Implicit Types (l : list (string * JSONDeviceData)) (ch : lru.Cache).

Lemma lru_find_In key l v : lru.find key l = Some v -> In (key, v) l.
Proof.
  induction l as [|[k x] l IH]; simpl; [discriminate|].
  destruct (String.eqb k key) eqn:E.
  - apply String.eqb_eq in E. intros [= ->]. left. congruence.
  - intros H. right. auto.
Qed.

Lemma lru_unlink_incl key l kv : In kv (lru.unlink key l) -> In kv l.
Proof.
  induction l as [|[k x] l IH]; simpl; [tauto|].
  destruct (String.eqb k key); simpl; intuition.
Qed.

Lemma lru_unlink_length key l v :
  lru.find key l = Some v -> S (length (lru.unlink key l)) = length l.
Proof.
  induction l as [|[k x] l IH]; simpl; [discriminate|].
  destruct (String.eqb k key); simpl; [reflexivity|].
  intros H. rewrite IH by assumption. reflexivity.
Qed.

Lemma removelast_incl {A} (l : list A) x : In x (removelast l) -> In x l.
Proof.
  induction l as [|y [|z l] IH]; simpl; [tauto|tauto|].
  intros [->|H]; [left; reflexivity|right; apply IH; exact H].
Qed.

(** Whatever holds of every entry and of the added value holds of
    every entry after Add. *)
Lemma lru_Add_Forall (P : string * JSONDeviceData -> Prop) key value ch :
  Forall P (lru.ll ch) -> P (key, value) ->
  Forall P (lru.ll (lru.Add key value ch)).
Proof.
  intros Hall Hv. rewrite List.Forall_forall in Hall.
  apply List.Forall_forall.
  unfold lru.Add. destruct (lru.find key (lru.ll ch)); simpl.
  - intros kv [<-|H]; [assumption|]. apply Hall.
    eapply lru_unlink_incl, H.
  - destruct (_ && _); simpl.
    + intros kv H.
      apply (removelast_incl ((key, value) :: lru.ll ch)) in H.
      destruct H as [<-|H]; [assumption|]. apply Hall, H.
    + intros kv [<-|H]; [assumption|]. apply Hall, H.
Qed.

Lemma lru_Get_Forall (P : string * JSONDeviceData -> Prop) key ch :
  Forall P (lru.ll ch) ->
  Forall P (lru.ll (lru.Get key ch).2)
  /\ forall v, (lru.Get key ch).1 = Some v -> P (key, v).
Proof.
  intros Hall. pose proof Hall as Hall'.
  rewrite List.Forall_forall in Hall.
  unfold lru.Get. destruct (lru.find key (lru.ll ch)) as [v|] eqn:Hf; simpl.
  - assert (P (key, v)) as Hv by (apply Hall, lru_find_In, Hf).
    split.
    + apply List.Forall_forall.
      intros kv [<-|H]; [assumption|].
      apply Hall. eapply lru_unlink_incl, H.
    + intros v' [= <-]. assumption.
  - split; [assumption | discriminate].
Qed.

(** Get finds what [find] finds, keeps the number of entries, and
    what it found is found again. *)
Lemma lru_Get_hit key ch v :
  lru.find key (lru.ll ch) = Some v ->
  (lru.Get key ch).1 = Some v
  /\ lru.find key (lru.ll (lru.Get key ch).2) = Some v
  /\ lru.Len (lru.Get key ch).2 = lru.Len ch
  /\ lru.MaxEntries (lru.Get key ch).2 = lru.MaxEntries ch.
Proof.
  intros Hf. unfold lru.Get, lru.Len. rewrite Hf. simpl.
  rewrite String.eqb_refl. repeat split.
  apply lru_unlink_length with (v := v). assumption.
Qed.

(** With a capacity that is not negative, what Add stores is found. *)
Lemma lru_Add_find key value ch :
  (0 <= lru.MaxEntries ch)%Z ->
  lru.find key (lru.ll (lru.Add key value ch)) = Some value
  /\ lru.MaxEntries (lru.Add key value ch) = lru.MaxEntries ch.
Proof.
  intros Hcap. unfold lru.Add, lru.Len.
  destruct (lru.find key (lru.ll ch)) eqn:Hf; simpl.
  - rewrite String.eqb_refl. split; reflexivity.
  - destruct (negb (lru.MaxEntries ch =? 0)%Z
              && (lru.MaxEntries ch <? Z.of_nat (S (length (lru.ll ch))))%Z) eqn:E;
      simpl.
    + destruct (lru.ll ch) as [|kv l] eqn:Hl.
      * exfalso. apply andb_prop in E. destruct E as [E1 E2].
        apply negb_true_iff, Z.eqb_neq in E1. apply Z.ltb_lt in E2.
        simpl in E2. lia.
      * simpl. rewrite String.eqb_refl. split; reflexivity.
    + rewrite String.eqb_refl. split; reflexivity.
Qed.

(** Add on an empty cache: one entry, or none when the capacity is
    negative. *)
Lemma lru_Add_Clear key value ch :
  lru.ll (lru.Add key value (lru.Clear ch))
  = if (lru.MaxEntries ch <? 0)%Z then [] else [(key, value)].
Proof.
  unfold lru.Add, lru.Clear, lru.Len. simpl.
  change (Z.of_nat 1) with 1%Z.
  destruct (lru.MaxEntries ch =? 0)%Z eqn:E0; simpl.
  - apply Z.eqb_eq in E0. rewrite E0. reflexivity.
  - apply Z.eqb_neq in E0.
    destruct (lru.MaxEntries ch <? 1)%Z eqn:E1; simpl.
    + apply Z.ltb_lt in E1.
      destruct (lru.MaxEntries ch <? 0)%Z eqn:E2; [reflexivity|].
      apply Z.ltb_ge in E2. lia.
    + apply Z.ltb_ge in E1.
      destruct (lru.MaxEntries ch <? 0)%Z eqn:E2; [|reflexivity].
      apply Z.ltb_lt in E2. lia.
Qed.
End LruFacts.

(** ** The caches of the client *)

Section CacheFacts.
Variable q : Query.
Implicit Types (c : WmClient) (key : string) (d : JSONDeviceData).

Lemma cacheOf_cacheAdd key d c :
  cacheOf (cacheAdd q key d c) q = lru.Add key d <$> cacheOf c q.
Proof.
  unfold cacheOf, cacheAdd, deviceCacheAdd, userAgentCacheAdd.
  destruct (usesDeviceCache q);
    [destruct (deviceCache c) eqn:E | destruct (userAgentCache c) eqn:E];
    simpl; try rewrite E; reflexivity.
Qed.

Lemma otherCacheOf_cacheAdd key d c :
  otherCacheOf (cacheAdd q key d c) q = otherCacheOf c q.
Proof.
  unfold otherCacheOf, cacheAdd, deviceCacheAdd, userAgentCacheAdd.
  destruct (usesDeviceCache q);
    [destruct (deviceCache c) | destruct (userAgentCache c)]; reflexivity.
Qed.

Lemma cacheAdd_frame key d c :
  ImportantHeaders (cacheAdd q key d c) = ImportantHeaders c
  /\ clientLtime (cacheAdd q key d c) = clientLtime c.
Proof.
  unfold cacheAdd, deviceCacheAdd, userAgentCacheAdd.
  destruct (usesDeviceCache q);
    [destruct (deviceCache c) | destruct (userAgentCache c)]; split; reflexivity.
Qed.

Lemma cacheGet_result key c :
  (cacheGet q key c).1
  = match cacheOf c q with Some ch => (lru.Get key ch).1 | None => None end.
Proof.
  unfold cacheOf, cacheGet, deviceCacheGet, userAgentCacheGet.
  destruct (usesDeviceCache q);
    [destruct (deviceCache c) as [ch|] | destruct (userAgentCache c) as [ch|]];
    try reflexivity; destruct (lru.Get key ch); reflexivity.
Qed.

Lemma cacheOf_cacheGet key c :
  cacheOf (cacheGet q key c).2 q = (fun ch => (lru.Get key ch).2) <$> cacheOf c q.
Proof.
  unfold cacheOf, cacheGet, deviceCacheGet, userAgentCacheGet.
  destruct (usesDeviceCache q);
    [destruct (deviceCache c) as [ch|] eqn:E
    | destruct (userAgentCache c) as [ch|] eqn:E];
    simpl; try (rewrite E; reflexivity); destruct (lru.Get key ch); reflexivity.
Qed.

Lemma otherCacheOf_cacheGet key c :
  otherCacheOf (cacheGet q key c).2 q = otherCacheOf c q.
Proof.
  unfold otherCacheOf, cacheGet, deviceCacheGet, userAgentCacheGet.
  destruct (usesDeviceCache q);
    [destruct (deviceCache c) as [ch|] | destruct (userAgentCache c) as [ch|]];
    try reflexivity; destruct (lru.Get key ch); reflexivity.
Qed.

Lemma cacheGet_frame key c :
  ImportantHeaders (cacheGet q key c).2 = ImportantHeaders c
  /\ clientLtime (cacheGet q key c).2 = clientLtime c.
Proof.
  unfold cacheGet, deviceCacheGet, userAgentCacheGet.
  destruct (usesDeviceCache q);
    [destruct (deviceCache c) as [ch|] | destruct (userAgentCache c) as [ch|]];
    try (split; reflexivity); destruct (lru.Get key ch); split; reflexivity.
Qed.

Lemma cacheOf_clearCache c : cacheOf (clearCache c) q = lru.Clear <$> cacheOf c q.
Proof.
  unfold cacheOf. destruct (usesDeviceCache q);
    [apply clearCache_deviceCache | apply clearCache_userAgentCache].
Qed.

Lemma otherCacheOf_clearCache c :
  otherCacheOf (clearCache c) q = lru.Clear <$> otherCacheOf c q.
Proof.
  unfold otherCacheOf. destruct (usesDeviceCache q);
    [apply clearCache_userAgentCache | apply clearCache_deviceCache].
Qed.

(** The sizes GetActualCacheSizes reports, by the cache of [q] and
    the other one. *)
Lemma GetActualCacheSizes_by_query c :
  GetActualCacheSizes c
  = if usesDeviceCache q
    then (cacheLen (cacheOf c q), cacheLen (otherCacheOf c q))
    else (cacheLen (otherCacheOf c q), cacheLen (cacheOf c q)).
Proof.
  unfold GetActualCacheSizes, cacheOf, otherCacheOf, cacheLen.
  destruct (usesDeviceCache q); reflexivity.
Qed.

(** The key depends on the client through its important headers only. *)
Lemma keyFor_ext c c' hdrs :
  ImportantHeaders c' = ImportantHeaders c -> keyFor c' q hdrs = keyFor c q hdrs.
Proof.
  intros H. unfold keyFor, getUserAgentCacheKey. rewrite H. reflexivity.
Qed.
End CacheFacts.

Lemma clearCachesIfNeeded_cases (ltime : string) (c : WmClient) :
  clearCachesIfNeeded ltime c = c
  \/ clearCachesIfNeeded ltime c = clearCache (set_clientLtime ltime c).
Proof.
  unfold clearCachesIfNeeded. destruct (_ && _); [right|left]; reflexivity.
Qed.

Lemma clearCachesIfNeeded_ImportantHeaders (ltime : string) (c : WmClient) :
  ImportantHeaders (clearCachesIfNeeded ltime c) = ImportantHeaders c.
Proof.
  destruct (clearCachesIfNeeded_cases ltime c) as [-> | ->]; [reflexivity|].
  rewrite clearCache_ImportantHeaders. reflexivity.
Qed.

(** After the check, a non-empty token is the stored one. *)
Lemma clearCachesIfNeeded_stores (ltime : string) (c : WmClient) :
  ltime <> "" -> clientLtime (clearCachesIfNeeded ltime c) = ltime.
Proof.
  intros Hne. destruct (String.eqb_spec (clientLtime c) ltime) as [E|E].
  - rewrite clearCachesIfNeeded_idle by (right; congruence). assumption.
  - rewrite clearCachesIfNeeded_fires by congruence.
    rewrite clearCache_clientLtime. reflexivity.
Qed.

(** ** No cached device carries an error message *)

Lemma cleanCache_Clear (oc : option lru.Cache) : cleanCache (lru.Clear <$> oc).
Proof. destruct oc; simpl; [constructor | exact I]. Qed.

Lemma clearCache_clean (c : WmClient) : cleanCaches (clearCache c).
Proof.
  unfold cleanCaches.
  rewrite clearCache_deviceCache, clearCache_userAgentCache.
  split; apply cleanCache_Clear.
Qed.

Lemma clearCachesIfNeeded_clean (ltime : string) (c : WmClient) :
  cleanCaches c -> cleanCaches (clearCachesIfNeeded ltime c).
Proof.
  intros H. destruct (clearCachesIfNeeded_cases ltime c) as [-> | ->];
    [assumption | apply clearCache_clean].
Qed.

Lemma cleanCaches_by_query (q : Query) (c : WmClient) :
  cleanCaches c <-> cleanCache (cacheOf c q) /\ cleanCache (otherCacheOf c q).
Proof.
  unfold cleanCaches, cacheOf, otherCacheOf.
  destruct (usesDeviceCache q); tauto.
Qed.

Lemma cacheAdd_clean (q : Query) (key : string) (d : JSONDeviceData) (c : WmClient) :
  cleanCaches c -> Error d = "" -> cleanCaches (cacheAdd q key d c).
Proof.
  intros Hc Hd. apply (cleanCaches_by_query q) in Hc. destruct Hc as [H1 H2].
  apply (cleanCaches_by_query q).
  rewrite cacheOf_cacheAdd, otherCacheOf_cacheAdd. split; [|assumption].
  destruct (cacheOf c q) as [ch|]; simpl; [|exact I].
  apply lru_Add_Forall; assumption.
Qed.

Lemma cacheGet_clean (q : Query) (key : string) (c : WmClient) :
  cleanCaches c ->
  cleanCaches (cacheGet q key c).2
  /\ forall d, (cacheGet q key c).1 = Some d -> Error d = "".
Proof.
  intros Hc. apply (cleanCaches_by_query q) in Hc. destruct Hc as [H1 H2].
  rewrite cacheGet_result, (cleanCaches_by_query q).
  rewrite cacheOf_cacheGet, otherCacheOf_cacheGet.
  destruct (cacheOf c q) as [ch|]; simpl in *.
  - destruct (lru_Get_Forall (fun kv => Error kv.2 = "") key ch H1) as [Ha Hb].
    split; [split; assumption|]. intros d Hd. exact (Hb d Hd).
  - split; [split; assumption|]. discriminate.
Qed.

(** What internalLookup returns: nothing and an error; a device whose
    Error field is blank and an error; or a device whose Error field is
    empty and no error. *)
Lemma internalLookup_cases srv c request path log :
  let call := {| call_method := POST; call_url := createURL c path;
                 call_userAgent := getWmClientUserAgent "";
                 call_body := Some request |} in
  match (internalLookup srv c request path log).1 with
  | (None, Some e) => serveLookup srv log call = inl e
  | (Some d, Some e) =>
      Error d = ""
      /\ exists d0, serveLookup srv log call = inr d0 /\ Error d0 <> ""
                    /\ e = "Received error from WM server: " +:+ Error d0
  | (Some d, None) => serveLookup srv log call = inr d /\ Error d = ""
  | (None, None) => False
  end.
Proof.
  unfold internalLookup. cbv zeta.
  destruct (serveLookup srv log _) as [e|d]; simpl; [reflexivity|].
  destruct (0 <? len (Error d))%nat eqn:E; simpl.
  - split; [reflexivity|]. exists d. repeat split.
    intros H. rewrite H in E. discriminate.
  - split; [reflexivity|]. apply len_zero. assumption.
Qed.

Lemma afterLookup_clean add c res :
  (forall d c', cleanCaches c' -> Error d = "" -> cleanCaches (add d c')) ->
  cleanCaches c ->
  (forall d, res.1 = (Some d, None) -> Error d = "") ->
  cleanCaches (cl (afterLookup add c res).2).
Proof.
  intros Hadd Hc Hres. destruct res as [[[d|] [e|]] log']; simpl; try assumption.
  apply Hadd; [apply clearCachesIfNeeded_clean; assumption|].
  apply Hres. reflexivity.
Qed.

(** A lookup on clean caches returns no device with an error message,
    and leaves the caches clean. *)
Lemma lookup_clean (srv : Server) (q : Query) (w : World) :
  cleanCaches (cl w) ->
  cleanCaches (cl (lookup srv q w).2)
  /\ forall d e, (lookup srv q w).1 = (Some d, e) -> Error d = "".
Proof.
  intros Hc. rewrite lookup_shape. cbv zeta.
  destruct (cacheGet_clean q (keyFor (cl w) q (queryHeaders (cl w) q)) (cl w) Hc)
    as [Hc' Hd].
  destruct (cacheGet q _ (cl w)) as [[jdd|] c']; simpl in Hc', Hd.
  - split; [assumption|]. simpl. intros d e [= <- _]. apply Hd. reflexivity.
  - match goal with |- context [internalLookup ?s ?c ?r ?p ?l] =>
      pose proof (internalLookup_cases s c r p l) as Hi;
      set (res := internalLookup s c r p l) in *
    end.
    cbv zeta in Hi. split.
    + apply afterLookup_clean; [|assumption|].
      * intros d c'' H1 H2. apply cacheAdd_clean; assumption.
      * intros d Hd'. rewrite Hd' in Hi. apply Hi.
    + intros d e. rewrite afterLookup_result. intros Hr. rewrite Hr in Hi.
      destruct e; apply Hi.
Qed.

Lemma step_clean (srv : Server) (op : Op) (w : World) :
  cleanCaches (cl w) -> cleanCaches (cl (step srv op w)).
Proof.
  intros Hc. destruct op; simpl.
  - split; constructor.
  - unfold SetRequestedStaticCapabilities. destruct CapsList as [l|];
      [destruct (0 <? _)%nat|]; try apply clearCache_clean; assumption.
  - unfold SetRequestedVirtualCapabilities. destruct CapsList as [l|];
      [destruct (0 <? _)%nat|]; try apply clearCache_clean; assumption.
  - unfold SetRequestedCapabilities. destruct CapsList; apply clearCache_clean.
  - apply lookup_clean. assumption.
  - unfold GetInfo, internalGet. destruct (serveInfo srv _ _) as [e|info]; simpl;
      [assumption|]. destruct (checkData info); simpl;
      [apply clearCachesIfNeeded_clean|]; assumption.
  - unfold GetAllOSes, loadDeviceOsesData, internalGet.
    destruct (0 <? _)%nat; simpl; [assumption|].
    destruct (serveOsVersions srv _ _) as [e|l]; simpl; [assumption|].
    destruct (foldOsVersions l); simpl. assumption.
  - unfold GetAllVersionsForOS, loadDeviceOsesData, internalGet.
    destruct (0 <? _)%nat; simpl; [assumption|].
    destruct (serveOsVersions srv _ _) as [e|l]; simpl; [assumption|].
    destruct (foldOsVersions l); simpl. assumption.
  - unfold GetAllDeviceMakes, loadDeviceMakesData, internalGet.
    destruct (0 <? _)%nat; simpl; [assumption|].
    destruct (serveMakeModels srv _ _) as [e|l]; simpl; [assumption|].
    destruct (foldMakeModels l); simpl. assumption.
  - unfold GetAllDevicesForMake, loadDeviceMakesData, internalGet.
    destruct (0 <? _)%nat; simpl; [assumption|].
    destruct (serveMakeModels srv _ _) as [e|l]; simpl; [assumption|].
    destruct (foldMakeModels l); simpl. assumption.
Qed.

Lemma reachable_clean (srv : Server) (w : World) :
  reachable srv w -> cleanCaches (cl w).
Proof.
  induction 1 as [Scheme Host Port BaseURI log c log' HC | op w Hr IH].
  - revert HC. unfold Create, GetInfo, internalGet. cbn [cl sent].
    destruct (serveInfo srv log _) as [e|info]; [discriminate|].
    destruct (checkData info); cbn [negb cl sent]; [|discriminate].
    intros [= <- <-]. simpl.
    unfold clearCachesIfNeeded. destruct (_ && _); split; exact I.
  - apply step_clean. assumption.
Qed.

(** C10: every device a lookup returns, in any world a program can
    reach - from a cache, from the server, or the partial device that
    comes with an application error - has an empty Error field; and
    when the server embeds an error message in its response, the lookup
    returns the device of the response with the field blanked, and the
    message goes into the Go error: the message is only there. *)
Theorem lookup_result_has_no_error_field (srv : Server) (w : World)
    (q : Query) :
  reachable srv w ->
  (forall d e, (lookup srv q w).1 = (Some d, e) -> Error d = "")
  /\ (forall d0,
         cached (cl w) q = None ->
         serveLookup srv (sent w) (lookupCall (cl w) q) = inr d0 ->
         Error d0 <> "" ->
         (lookup srv q w).1
         = (Some (withoutError d0),
            Some ("Received error from WM server: " +:+ Error d0))).
Proof.
  intros Hr. split.
  - apply reachable_clean in Hr.
    destruct (lookup_clean srv q w Hr) as [_ H].
    intros d e Hl. exact (H d e Hl).
  - intros d0. apply lookup_application_error.
Qed.

(** ** Repeated lookups *)

Lemma afterLookup_ok add c res d :
  res.1 = (Some d, None) ->
  afterLookup add c res
  = ((Some d, None),
     {| cl := add d (clearCachesIfNeeded (Ltime d) c); sent := res.2 |}).
Proof.
  destruct res as [[od oe] log']. simpl. intros [= -> ->]. reflexivity.
Qed.

Lemma queryHeaders_ext (q : Query) (c c' : WmClient) :
  ImportantHeaders c' = ImportantHeaders c -> queryHeaders c' q = queryHeaders c q.
Proof.
  intros H. destruct q; simpl; unfold normalizedHeaders; rewrite ?H; reflexivity.
Qed.

Lemma cacheKey_ext (q : Query) (c c' : WmClient) :
  ImportantHeaders c' = ImportantHeaders c -> cacheKey c' q = cacheKey c q.
Proof.
  intros H. unfold cacheKey.
  rewrite (queryHeaders_ext q c c' H). apply keyFor_ext. assumption.
Qed.

(** The client after a lookup that the server answered with success:
    the check of the token, then the store. *)
Lemma lookup_miss_ok (srv : Server) (q : Query) (w : World) (d : JSONDeviceData) :
  cached (cl w) q = None ->
  (lookup srv q w).1 = (Some d, None) ->
  lookup srv q w
  = ((Some d, None),
     {| cl := cacheAdd q (cacheKey (cl w) q) d (clearCachesIfNeeded (Ltime d) (cl w));
        sent := sent w ++ [lookupCall (cl w) q] |})
  /\ serveLookup srv (sent w) (lookupCall (cl w) q) = inr d.
Proof.
  intros Hmiss Hres.
  pose proof (lookup_hit_or_call srv q w) as H. rewrite Hmiss in H.
  destruct H as [Heq _]. rewrite Heq in Hres |- *.
  rewrite afterLookup_result in Hres.
  pose proof (internalLookup_cases srv (cl w) (lookupPayload (cl w) q)
                (lookupPath q) (sent w)) as Hi.
  cbv zeta in Hi. rewrite Hres in Hi. destruct Hi as [Hserve _].
  rewrite (afterLookup_ok _ _ _ d Hres). rewrite internalLookup_sent.
  split; [|exact Hserve].
  unfold cacheKey at 1.
  rewrite (keyFor_ext q (cl w) _ _ (clearCachesIfNeeded_ImportantHeaders _ _)).
  reflexivity.
Qed.

Lemma lookup_hit (srv : Server) (q : Query) (w : World) (jdd : JSONDeviceData) :
  cached (cl w) q = Some jdd ->
  lookup srv q w
  = ((Some jdd, None),
     {| cl := (cacheGet q (cacheKey (cl w) q) (cl w)).2; sent := sent w |}).
Proof.
  intros Hhit. rewrite lookup_shape. cbv zeta. fold (cacheKey (cl w) q).
  pose proof (cacheGet_found q (cl w)) as Hf. rewrite Hhit in Hf.
  destruct (cacheGet q (cacheKey (cl w) q) (cl w)) as [[x|] c']; simpl in Hf;
    [|discriminate].
  injection Hf as ->. reflexivity.
Qed.

Lemma cacheOf_same_kind (q q' : Query) (c : WmClient) :
  usesDeviceCache q' = usesDeviceCache q ->
  cacheOf c q' = cacheOf c q /\ otherCacheOf c q' = otherCacheOf c q
  /\ forall key, cacheGet q' key c = cacheGet q key c.
Proof.
  intros H. unfold cacheOf, otherCacheOf, cacheGet. rewrite H. repeat split.
Qed.

Section Serving.
Variables (srv : Server) (q : Query) (IH : list string) (key : string)
          (d : JSONDeviceData) (log : Log) (sizes : nat * nat).

(** In a world that is serving [d] under [key], a lookup of that kind
    with that key returns [d] and the world is still serving it. *)
Lemma serving_lookup (q' : Query) (w : World) :
  serving q IH key d log sizes w ->
  usesDeviceCache q' = usesDeviceCache q ->
  cacheKey (cl w) q' = key ->
  (lookup srv q' w).1 = (Some d, None)
  /\ serving q IH key d log sizes (lookup srv q' w).2.
Proof.
  intros (HIH & Hlog & Hsz & ch & Hch & Hfind) Hkind Hkey.
  destruct (cacheOf_same_kind q q' (cl w) Hkind) as (Hc1 & Hc2 & Hget).
  assert (cached (cl w) q' = Some d) as Hhit.
  { unfold cached. rewrite Hc1, Hch, Hkey. assumption. }
  rewrite (lookup_hit srv q' w d Hhit). rewrite Hkey, Hget. simpl.
  split; [reflexivity|].
  destruct (lru_Get_hit key ch d Hfind) as (_ & Hfind' & Hlen & _).
  destruct (cacheGet_frame q key (cl w)) as [Hf _].
  unfold serving. simpl. rewrite Hf.
  split; [assumption|]. split; [assumption|]. split.
  - rewrite <- Hsz. rewrite !(GetActualCacheSizes_by_query q).
    rewrite cacheOf_cacheGet, otherCacheOf_cacheGet, Hch. simpl.
    rewrite Hlen. reflexivity.
  - exists (lru.Get key ch).2. rewrite cacheOf_cacheGet, Hch. split; [reflexivity|].
    assumption.
Qed.

(** ... and so after any number of such lookups. *)
Lemma serving_lookups (c0 : WmClient) (qs : list Query) (w : World) :
  ImportantHeaders c0 = IH -> cacheKey c0 q = key ->
  Forall (sameLookup c0 q) qs ->
  serving q IH key d log sizes w ->
  serving q IH key d log sizes (lookups srv qs w).
Proof.
  intros HIH Hkey Hqs. revert w. unfold lookups.
  induction Hqs as [|q0 qs [Hk1 Hk2] Hqs IHqs]; intros w Hw; simpl; [assumption|].
  apply IHqs. apply serving_lookup; try assumption.
  rewrite <- Hkey, <- Hk2. apply cacheKey_ext.
  destruct Hw as [Hw _]. congruence.
Qed.
End Serving.

(** A successful lookup through a cache of non-negative capacity leaves
    the world serving its result. *)
Lemma lookup_starts_serving (srv : Server) (q : Query) (w w1 : World)
    (d : JSONDeviceData) (ch : lru.Cache) :
  cacheOf (cl w) q = Some ch -> (0 <= lru.MaxEntries ch)%Z ->
  lookup srv q w = ((Some d, None), w1) ->
  serving q (ImportantHeaders (cl w)) (cacheKey (cl w) q) d (sent w1)
          (GetActualCacheSizes (cl w1)) w1.
Proof.
  intros Hch Hcap Hl. unfold serving.
  destruct (cached (cl w) q) as [jdd|] eqn:Hc.
  - rewrite (lookup_hit srv q w jdd Hc) in Hl. injection Hl as -> <-. simpl.
    unfold cached in Hc. rewrite Hch in Hc.
    destruct (lru_Get_hit _ ch d Hc) as (_ & Hfind' & _ & _).
    destruct (cacheGet_frame q (cacheKey (cl w) q) (cl w)) as [Hf _].
    repeat split; try assumption.
    eexists. rewrite cacheOf_cacheGet, Hch. split; [reflexivity|]. assumption.
  - assert ((lookup srv q w).1 = (Some d, None)) as Hres by (rewrite Hl; reflexivity).
    destruct (lookup_miss_ok srv q w d Hc Hres) as [Heq _].
    rewrite Heq in Hl. injection Hl as <-. simpl.
    destruct (cacheAdd_frame q (cacheKey (cl w) q) d
                (clearCachesIfNeeded (Ltime d) (cl w))) as [Hf _].
    rewrite Hf, clearCachesIfNeeded_ImportantHeaders.
    repeat split.
    rewrite cacheOf_cacheAdd.
    assert (exists ch2, cacheOf (clearCachesIfNeeded (Ltime d) (cl w)) q = Some ch2
                        /\ lru.MaxEntries ch2 = lru.MaxEntries ch) as (ch2 & Hch2 & Hm).
    { destruct (clearCachesIfNeeded_cases (Ltime d) (cl w)) as [-> | ->].
      - exists ch. split; [assumption | reflexivity].
      - rewrite cacheOf_clearCache.
        replace (cacheOf (set_clientLtime (Ltime d) (cl w)) q)
          with (cacheOf (cl w) q) by (unfold cacheOf; destruct (usesDeviceCache q); reflexivity).
        rewrite Hch. exists (lru.Clear ch). split; reflexivity. }
    rewrite Hch2. simpl. eexists. split; [reflexivity|].
    apply lru_Add_find. rewrite Hm. assumption.
Qed.

(** C8, as amended: on a client whose cache for the lookup has been
    allocated with a capacity that is not negative (the headers cache
    by SetCacheSize with a size of 0 or more, 0 being unbounded; the
    device-id cache always), after a first successful lookup any number
    of repeats of it (the same user-agent, the same device id, header
    maps with the same fingerprint) are served from the cache: each
    returns the device of the first lookup, no exchange with the server
    is made, and the cache sizes stay what they were after the first
    lookup. *)
Theorem repeated_lookup_served_from_cache (srv : Server) (q : Query)
    (w w1 : World) (d : JSONDeviceData) (ch : lru.Cache)
    (qs : list Query) (q' : Query) :
  cacheOf (cl w) q = Some ch -> (0 <= lru.MaxEntries ch)%Z ->
  lookup srv q w = ((Some d, None), w1) ->
  Forall (sameLookup (cl w) q) qs -> sameLookup (cl w) q q' ->
  let wn := lookups srv qs w1 in
  (lookup srv q' wn).1 = (Some d, None)
  /\ sent (lookup srv q' wn).2 = sent w1
  /\ GetActualCacheSizes (cl (lookup srv q' wn).2) = GetActualCacheSizes (cl w1).
Proof.
  intros Hch Hcap Hl Hqs [Hk1 Hk2]. cbv zeta.
  pose proof (lookup_starts_serving srv q w w1 d ch Hch Hcap Hl) as Hs.
  apply (serving_lookups srv q _ _ d _ _ (cl w) qs w1 eq_refl eq_refl Hqs) in Hs.
  destruct (serving_lookup srv q _ _ d _ _ q' _ Hs Hk1) as [Hr (_ & Hlog & Hsz & _)].
  - rewrite <- Hk2. apply cacheKey_ext. apply Hs.
  - repeat split; assumption.
Qed.

(** ** A new reload-time token *)

Lemma answered_inv (srv : Server) (q : Query) (w w' : World) (d : JSONDeviceData) :
  answered srv q w d w' ->
  cl w' = cacheAdd q (cacheKey (cl w) q) d (clearCachesIfNeeded (Ltime d) (cl w))
  /\ serveLookup srv (sent w) (lookupCall (cl w) q) = inr d.
Proof.
  intros [Hl Hsent].
  destruct (cached (cl w) q) as [jdd|] eqn:Hc.
  - rewrite (lookup_hit srv q w jdd Hc) in Hl. injection Hl as _ <-.
    simpl in Hsent. exfalso. exact (app_cons_neq _ _ Hsent).
  - assert ((lookup srv q w).1 = (Some d, None)) as Hres by (rewrite Hl; reflexivity).
    destruct (lookup_miss_ok srv q w d Hc Hres) as [Heq Hserve].
    rewrite Heq in Hl. injection Hl as <-. split; [reflexivity | assumption].
Qed.

Lemma lru_Add_MaxEntries key value ch :
  lru.MaxEntries (lru.Add key value ch) = lru.MaxEntries ch.
Proof.
  unfold lru.Add. destruct (lru.find key (lru.ll ch)); [reflexivity|].
  destruct (_ && _); reflexivity.
Qed.

Lemma lru_Cache_eta ch :
  ch = {| lru.MaxEntries := lru.MaxEntries ch; lru.ll := lru.ll ch |}.
Proof. destruct ch; reflexivity. Qed.

(** C3, as amended: when two consecutive lookups are both answered by
    the server with success, with non-empty reload-time tokens, and the
    second token differs from the first, then right after the second
    lookup the client stores the second token, the cache the second
    lookup does not go through reports size 0, and the cache it goes
    through holds the device just returned and nothing else (nothing at
    all when its capacity is negative): with a capacity that is not
    negative it reports size 1. *)
Theorem token_change_leaves_only_new_entry (srv : Server) (q1 q2 : Query)
    (w w1 w2 : World) (d1 d2 : JSONDeviceData) :
  answered srv q1 w d1 w1 -> Ltime d1 <> "" ->
  answered srv q2 w1 d2 w2 -> Ltime d2 <> "" ->
  Ltime d2 <> Ltime d1 ->
  clientLtime (cl w2) = Ltime d2
  /\ cacheLen (otherCacheOf (cl w2) q2) = 0%nat
  /\ cacheOf (cl w2) q2
     = (fun ch =>
          {| lru.MaxEntries := lru.MaxEntries ch;
             lru.ll := if (lru.MaxEntries ch <? 0)%Z then []
                       else [(cacheKey (cl w1) q2, d2)] |})
       <$> cacheOf (cl w1) q2
  /\ (forall ch, cacheOf (cl w1) q2 = Some ch -> (0 <= lru.MaxEntries ch)%Z ->
                 cacheLen (cacheOf (cl w2) q2) = 1%nat).
Proof.
  intros H1 Ht1 H2 Ht2 Hdiff.
  apply answered_inv in H1. destruct H1 as [Hc1 _].
  apply answered_inv in H2. destruct H2 as [Hc2 _].
  assert (clientLtime (cl w1) = Ltime d1) as Hstored.
  { rewrite Hc1.
    destruct (cacheAdd_frame q1 (cacheKey (cl w) q1) d1
                (clearCachesIfNeeded (Ltime d1) (cl w))) as [_ ->].
    apply clearCachesIfNeeded_stores. assumption. }
  rewrite clearCachesIfNeeded_fires in Hc2 by congruence.
  assert (cacheOf (cl w2) q2
          = (fun ch =>
               {| lru.MaxEntries := lru.MaxEntries ch;
                  lru.ll := if (lru.MaxEntries ch <? 0)%Z then []
                            else [(cacheKey (cl w1) q2, d2)] |})
            <$> cacheOf (cl w1) q2) as Hcache.
  { rewrite Hc2, cacheOf_cacheAdd, cacheOf_clearCache.
    replace (cacheOf (set_clientLtime (Ltime d2) (cl w1)) q2)
      with (cacheOf (cl w1) q2)
      by (unfold cacheOf; destruct (usesDeviceCache q2); reflexivity).
    destruct (cacheOf (cl w1) q2) as [ch|]; simpl; [|reflexivity].
    f_equal. rewrite (lru_Cache_eta (lru.Add _ _ _)).
    rewrite lru_Add_MaxEntries, lru_Add_Clear. reflexivity. }
  split; [|split; [|split]].
  - rewrite Hc2.
    destruct (cacheAdd_frame q2 (cacheKey (cl w1) q2) d2
                (clearCache (set_clientLtime (Ltime d2) (cl w1)))) as [_ ->].
    rewrite clearCache_clientLtime. reflexivity.
  - rewrite Hc2, otherCacheOf_cacheAdd, otherCacheOf_clearCache.
    destruct (otherCacheOf _ q2); reflexivity.
  - exact Hcache.
  - intros ch Hch Hcap. rewrite Hcache, Hch. simpl. unfold lru.Len. simpl.
    destruct (lru.MaxEntries ch <? 0)%Z eqn:E; [|reflexivity].
    apply Z.ltb_lt in E. lia.
Qed.

(** ** The fingerprint of a header map *)

Section Fingerprint.
Variable c : WmClient.
Implicit Types (A B : list (string * string)) (lname : string).

(** "make all headers lowercase": the last entry of a name wins. *)
Lemma fold_lower_lookup A (m0 : gmap string string) lname :
  fold_left (fun (m : gmap string string) kv => <[ToLower kv.1 := kv.2]> m) A m0
    !! lname
  = match last (valuesOf lname (lowered A)) with
    | Some v => Some v
    | None => m0 !! lname
    end.
Proof.
  revert m0. induction A as [|[k v] A IH]; intros m0; simpl; [reflexivity|].
  rewrite IH. unfold valuesOf, lowered. simpl.
  destruct (String.eqb_spec (ToLower k) lname) as [E|E]; simpl.
  - rewrite E, lookup_insert_eq.
    destruct (map snd _) as [|x l]; [reflexivity|].
    change (last (v :: x :: l)) with (last (x :: l)).
    destruct (last (x :: l)) eqn:El; [reflexivity|].
    apply last_None in El. discriminate.
  - rewrite lookup_insert_ne by assumption. reflexivity.
Qed.

Lemma valuesOf_importantView A lname :
  isImportant c lname = true ->
  valuesOf lname (importantView c A) = valuesOf lname (lowered A).
Proof.
  intros Himp. unfold valuesOf, importantView, lowered.
  induction A as [|[k v] A IH]; simpl; [reflexivity|].
  destruct (String.eqb_spec (ToLower k) lname) as [E|E].
  - rewrite E, Himp. simpl. rewrite String.eqb_refl. simpl. f_equal. exact IH.
  - destruct (isImportant c (ToLower k)); simpl; [|exact IH].
    rewrite string_eqb_false by assumption. exact IH.
Qed.

Lemma valuesOf_absent lname (V : list (string * string)) :
  ~ In lname (map fst V) -> valuesOf lname V = [].
Proof.
  unfold valuesOf. induction V as [|[k v] V IH]; simpl; [reflexivity|].
  intros H. destruct (String.eqb_spec k lname) as [E|E].
  - exfalso. apply H. left. assumption.
  - apply IH. intros H'. apply H. right. assumption.
Qed.

Lemma valuesOf_NoDup lname (V : list (string * string)) :
  NoDup (map fst V) -> (length (valuesOf lname V) <= 1)%nat.
Proof.
  induction V as [|[k v] V IH]; simpl; [intros _; unfold valuesOf; simpl; lia|].
  intros Hnd. apply NoDup_cons in Hnd. destruct Hnd as [Hk Hnd].
  unfold valuesOf in *. simpl.
  destruct (String.eqb_spec k lname) as [E|E]; simpl.
  - subst k. rewrite list_elem_of_In in Hk.
    pose proof (valuesOf_absent lname V Hk) as H0.
    unfold valuesOf in H0. rewrite H0. simpl. lia.
  - apply IH. assumption.
Qed.

Lemma valuesOf_Permutation lname (V1 V2 : list (string * string)) :
  Permutation V1 V2 -> Permutation (valuesOf lname V1) (valuesOf lname V2).
Proof.
  intros H. unfold valuesOf. apply Permutation_map.
  induction H as [|x l l' H IH|x y l|l l' l'' H1 IH1 H2 IH2]; simpl.
  - constructor.
  - destruct (String.eqb x.1 lname); [constructor|]; assumption.
  - destruct (String.eqb x.1 lname), (String.eqb y.1 lname);
      try reflexivity. constructor.
  - etransitivity; eassumption.
Qed.

Lemma short_Permutation_eq (l1 l2 : list string) :
  (length l1 <= 1)%nat -> Permutation l1 l2 -> l1 = l2.
Proof.
  intros Hlen Hp. destruct l1 as [|x [|y l1]]; simpl in Hlen; [| |lia].
  - apply Permutation_nil in Hp. congruence.
  - apply Permutation_length_1_inv in Hp. congruence.
Qed.

(** Two maps with the same important headers, case-distinct, give
    every important header the same lowered entry. *)
Lemma lowerKeyMap_agree A B lname :
  caseDistinct c A -> sameImportantHeaders c A B ->
  isImportant c lname = true ->
  lowerKeyMap A !! lname = lowerKeyMap B !! lname.
Proof.
  intros Hnd Hperm Himp. unfold lowerKeyMap.
  rewrite !fold_lower_lookup.
  rewrite <- !(valuesOf_importantView _ _ Himp).
  rewrite (short_Permutation_eq _ (valuesOf lname (importantView c B))).
  - reflexivity.
  - apply valuesOf_NoDup. exact Hnd.
  - apply valuesOf_Permutation. exact Hperm.
Qed.

Lemma isImportant_name name :
  In name (ImportantHeaders c) -> isImportant c (ToLower name) = true.
Proof.
  intros H. unfold isImportant. apply existsb_exists.
  exists name. split; [assumption | apply String.eqb_refl].
Qed.

(** The loop "copy headers" reads [get] at the important names only. *)
Lemma copyHeaders_ext (get1 get2 : string -> string) (names : list string) :
  (forall name, In name names -> get1 name = get2 name) ->
  copyHeaders get1 names = copyHeaders get2 names.
Proof.
  unfold copyHeaders. generalize (∅ : gmap string string).
  induction names as [|name names IH]; intros m0 H; simpl; [reflexivity|].
  rewrite (H name) by (left; reflexivity).
  apply IH. intros n Hn. apply H. right. assumption.
Qed.

(** The three differences the relation is blind to. *)
Lemma sameImportantHeaders_order A B :
  Permutation A B -> sameImportantHeaders c A B.
Proof.
  intros H. unfold sameImportantHeaders, importantView.
  induction H as [|x l l' H IH|x y l|l l' l'' H1 IH1 H2 IH2]; simpl.
  - constructor.
  - destruct (isImportant c (ToLower x.1)); [constructor|]; assumption.
  - destruct (isImportant c (ToLower x.1)), (isImportant c (ToLower y.1));
      try reflexivity. constructor.
  - etransitivity; eassumption.
Qed.

Lemma sameImportantHeaders_casing A1 A2 (k k' v : string) :
  ToLower k = ToLower k' ->
  sameImportantHeaders c (A1 ++ (k, v) :: A2) (A1 ++ (k', v) :: A2).
Proof.
  intros H. unfold sameImportantHeaders, importantView.
  rewrite !map_app. simpl. rewrite H. reflexivity.
Qed.

Lemma sameImportantHeaders_extra A (k v : string) :
  isImportant c (ToLower k) = false ->
  sameImportantHeaders c ((k, v) :: A) A.
Proof.
  intros H. unfold sameImportantHeaders, importantView. simpl.
  rewrite H. reflexivity.
Qed.

(** C2, as amended: two header maps that differ only in the casing of
    their header names, in the iteration order of their entries, or in
    headers that are not important, and in which no two important
    headers have the same name up to case, send the same headers to
    the server and get the same fingerprint from LookupHeaders'
    normalization followed by getUserAgentCacheKey. *)
Theorem header_fingerprint_is_canonical A B :
  caseDistinct c A -> sameImportantHeaders c A B ->
  normalizedHeaders c A = normalizedHeaders c B
  /\ headersFingerprint c A = headersFingerprint c B.
Proof.
  intros Hnd Hperm.
  assert (normalizedHeaders c A = normalizedHeaders c B) as Heq.
  { unfold normalizedHeaders. apply copyHeaders_ext.
    intros name Hin.
    rewrite (lowerKeyMap_agree A B (ToLower name) Hnd Hperm
               (isImportant_name name Hin)).
    reflexivity. }
  split; [exact Heq|]. unfold headersFingerprint. rewrite Heq. reflexivity.
Qed.
End Fingerprint.

(** * Further properties *)

(** ** The registry *)

(** X1: sliceHasValue never reports a value the slice does not hold,
    whatever the order of the slice; on a slice in ascending order, as
    Create leaves the registry, it reports exactly the values the slice
    holds, so the bisection misses none. *)
Theorem sliceHasValue_exact (slist : list string) (value : string) :
  (sliceHasValue slist value = true -> In value slist)
  /\ (ascending slist -> In value slist -> sliceHasValue slist value = true).
Proof.
  split.
  - unfold sliceHasValue. intros H. apply andb_prop in H. destruct H as [H1 H2].
    apply Nat.ltb_lt in H1. apply String.eqb_eq in H2. rewrite H2.
    apply nth_In. assumption.
  - intros Hasc Hin. apply sliceHasValue_In; assumption.
Qed.

(** X2: the client Create returns answers HasStaticCapability and
    HasVirtualCapability with exactly the names the server declared in
    its static and virtual lists, in whatever order the server listed
    them. *)
Theorem Create_registry_is_declared_names (srv : Server)
    (Scheme Host Port BaseURI : string) (log log' : Log) (c : WmClient) :
  Create srv Scheme Host Port BaseURI log = ((Some c, None), log') ->
  exists info,
    serveInfo srv log (handshakeCall Scheme Host Port BaseURI) = inr info
    /\ forall name,
        (HasStaticCapability c name = true <-> In name (info_StaticCaps info))
        /\ (HasVirtualCapability c name = true <-> In name (info_VirtualCaps info)).
Proof.
  intros HC. apply Create_all_or_nothing in HC.
  destruct HC as (_ & _ & info & Hs & _ & _ & _ & _ & _ & _ & Hst & Hv).
  exists info. split; [assumption|]. intros name.
  unfold HasStaticCapability, HasVirtualCapability. rewrite Hst, Hv.
  rewrite !sliceHasValue_In by apply sort_Strings_ascending.
  rewrite !sort_Strings_In. split; reflexivity.
Qed.

Lemma Create_registry_is_declared_names_witness :
  exists info,
    serveInfo (sampleServer []) [] (handshakeCall "http" "localhost" "8080" "") = inr info
    /\ forall name,
        (HasStaticCapability sampleClient name = true <-> In name (info_StaticCaps info))
        /\ (HasVirtualCapability sampleClient name = true <-> In name (info_VirtualCaps info)).
Proof.
  apply (Create_registry_is_declared_names (sampleServer []) "http" "localhost" "8080" ""
           [] [handshakeCall "http" "localhost" "8080" ""] sampleClient).
  vm_compute. reflexivity.
Defined.

(** ** What no operation changes *)

Lemma sameIdentity_refl (c : WmClient) : sameIdentity c c.
Proof. repeat split. Qed.

Lemma sameIdentity_trans (c1 c2 c3 : WmClient) :
  sameIdentity c1 c2 -> sameIdentity c2 c3 -> sameIdentity c1 c3.
Proof.
  unfold sameIdentity. intros (A1 & A2 & A3 & A4 & A5 & A6 & A7)
                              (B1 & B2 & B3 & B4 & B5 & B6 & B7).
  repeat split; congruence.
Qed.

Lemma clearCache_sameIdentity (c : WmClient) : sameIdentity c (clearCache c).
Proof.
  pose proof (clearCache_frame c) as (F1 & F2 & _ & _ & F5 & _ & F7 & F8 & F9 & F10).
  repeat split; assumption.
Qed.

Lemma clearCachesIfNeeded_sameIdentity (ltime : string) (c : WmClient) :
  sameIdentity c (clearCachesIfNeeded ltime c).
Proof.
  destruct (clearCachesIfNeeded_cases ltime c) as [-> | ->].
  - apply sameIdentity_refl.
  - apply (sameIdentity_trans _ (set_clientLtime ltime c)).
    + repeat split.
    + apply clearCache_sameIdentity.
Qed.

Lemma cacheAdd_sameIdentity (q : Query) key d (c : WmClient) :
  sameIdentity c (cacheAdd q key d c).
Proof.
  unfold cacheAdd, deviceCacheAdd, userAgentCacheAdd.
  destruct (usesDeviceCache q);
    [destruct (deviceCache c) | destruct (userAgentCache c)]; repeat split.
Qed.

Lemma cacheGet_sameIdentity (q : Query) key (c : WmClient) :
  sameIdentity c (cacheGet q key c).2.
Proof.
  unfold cacheGet, deviceCacheGet, userAgentCacheGet.
  destruct (usesDeviceCache q);
    [destruct (deviceCache c) as [ch|] | destruct (userAgentCache c) as [ch|]];
    try (repeat split; fail); destruct (lru.Get key ch); repeat split.
Qed.

Lemma lookup_sameIdentity (srv : Server) (q : Query) (w : World) :
  sameIdentity (cl w) (cl (lookup srv q w).2).
Proof.
  rewrite lookup_shape. cbv zeta.
  pose proof (cacheGet_sameIdentity q (keyFor (cl w) q (queryHeaders (cl w) q)) (cl w)) as Hg.
  destruct (cacheGet q _ (cl w)) as [[jdd|] c']; simpl in Hg; [exact Hg|].
  match goal with |- context [internalLookup ?s ?c ?r ?p ?l] =>
    destruct (internalLookup s c r p l) as [[[d|] [e|]] log'] end; simpl; try exact Hg.
  eapply sameIdentity_trans; [exact Hg|].
  eapply sameIdentity_trans; [apply clearCachesIfNeeded_sameIdentity|].
  apply cacheAdd_sameIdentity.
Qed.

Lemma loadDeviceOsesData_sameIdentity (srv : Server) (w : World) :
  sameIdentity (cl w) (cl (loadDeviceOsesData srv w).2).
Proof.
  unfold loadDeviceOsesData, internalGet.
  destruct (0 <? _)%nat; simpl; [apply sameIdentity_refl|].
  destruct (serveOsVersions srv _ _) as [e|l]; simpl; [apply sameIdentity_refl|].
  destruct (foldOsVersions l); simpl. repeat split.
Qed.

Lemma loadDeviceMakesData_sameIdentity (srv : Server) (w : World) :
  sameIdentity (cl w) (cl (loadDeviceMakesData srv w).2).
Proof.
  unfold loadDeviceMakesData, internalGet.
  destruct (0 <? _)%nat; simpl; [apply sameIdentity_refl|].
  destruct (serveMakeModels srv _ _) as [e|l]; simpl; [apply sameIdentity_refl|].
  destruct (foldMakeModels l); simpl. repeat split.
Qed.

Lemma step_sameIdentity (srv : Server) (op : Op) (w : World) :
  sameIdentity (cl w) (cl (step srv op w)).
Proof.
  destruct op; simpl.
  - repeat split.
  - unfold SetRequestedStaticCapabilities. destruct CapsList as [l|];
      [destruct (0 <? _)%nat|]; try apply sameIdentity_refl;
      (eapply sameIdentity_trans; [|apply clearCache_sameIdentity]); repeat split.
  - unfold SetRequestedVirtualCapabilities. destruct CapsList as [l|];
      [destruct (0 <? _)%nat|]; try apply sameIdentity_refl;
      (eapply sameIdentity_trans; [|apply clearCache_sameIdentity]); repeat split.
  - unfold SetRequestedCapabilities. destruct CapsList;
      (eapply sameIdentity_trans; [|apply clearCache_sameIdentity]); repeat split.
  - apply lookup_sameIdentity.
  - unfold GetInfo, internalGet. destruct (serveInfo srv _ _) as [e|info]; simpl;
      [apply sameIdentity_refl|]. destruct (checkData info); simpl;
      [apply clearCachesIfNeeded_sameIdentity | apply sameIdentity_refl].
  - unfold GetAllOSes. pose proof (loadDeviceOsesData_sameIdentity srv w) as H.
    destruct (loadDeviceOsesData srv w). exact H.
  - unfold GetAllVersionsForOS. pose proof (loadDeviceOsesData_sameIdentity srv w) as H.
    destruct (loadDeviceOsesData srv w). exact H.
  - unfold GetAllDeviceMakes. pose proof (loadDeviceMakesData_sameIdentity srv w) as H.
    destruct (loadDeviceMakesData srv w). exact H.
  - unfold GetAllDevicesForMake. pose proof (loadDeviceMakesData_sameIdentity srv w) as H.
    destruct (loadDeviceMakesData srv w). exact H.
Qed.

(** X3: no run of operations on a client - setters, changes of cache
    size, lookups, GetInfo, table getters - changes where its server is
    (scheme, host, port, base URI) or what the server declared at the
    handshake (StaticCaps, VirtualCaps, ImportantHeaders): not even a
    later GetInfo that reports other lists. *)
Theorem run_keeps_identity (srv : Server) (ops : list Op) (w : World) :
  sameIdentity (cl w) (cl (run srv ops w)).
Proof.
  unfold run. revert w. induction ops as [|op ops IH]; intros w; simpl.
  - apply sameIdentity_refl.
  - eapply sameIdentity_trans; [apply step_sameIdentity | apply IH].
Qed.

(** In every world a program can reach the registry is in ascending
    order. *)
Lemma reachable_registry_ascending (srv : Server) (w : World) :
  reachable srv w -> ascending (StaticCaps (cl w)) /\ ascending (VirtualCaps (cl w)).
Proof.
  induction 1 as [Scheme Host Port BaseURI log c log' HC | op w Hr IH].
  - apply Create_all_or_nothing in HC.
    destruct HC as (_ & _ & info & _ & _ & _ & _ & _ & _ & _ & Hst & Hv).
    simpl. rewrite Hst, Hv. split; apply sort_Strings_ascending.
  - destruct (step_sameIdentity srv op w) as (_ & _ & _ & _ & Hs & Hv & _).
    rewrite Hs, Hv. exact IH.
Qed.

(** ** The setters *)

Lemma keepKnown_In (has : string -> bool) (l : list string) (n : string) :
  In n (keepKnown has l) <-> In n l /\ has n = true.
Proof. unfold keepKnown. apply filter_In. Qed.

Lemma keepKnown_sublist (has : string -> bool) (l : list string) :
  sublist (keepKnown has l) l.
Proof.
  unfold keepKnown. induction l as [|x l IH]; simpl; [constructor|].
  destruct (has x); constructor; assumption.
Qed.

(** X4: on a registry in ascending order, SetRequestedStaticCapabilities
    with a non-nil list commits, in the order given, exactly the names of
    the list that the static registry holds - or, when there is none,
    changes nothing at all; it never touches the requested virtual list.
    SetRequestedVirtualCapabilities does the same with the virtual
    registry and never touches the requested static list. *)
Theorem single_setters_commit_known_names (c : WmClient) (l : list string) :
  ascending (StaticCaps c) -> ascending (VirtualCaps c) ->
  let s := keepKnown (HasStaticCapability c) l in
  let v := keepKnown (HasVirtualCapability c) l in
  (forall n, In n s <-> In n l /\ In n (StaticCaps c))
  /\ sublist s l
  /\ (s = [] -> SetRequestedStaticCapabilities (Some l) c = c)
  /\ requestedStaticCaps (SetRequestedStaticCapabilities (Some l) c)
     = (if (0 <? length s)%nat then Some s else requestedStaticCaps c)
  /\ requestedVirtualCaps (SetRequestedStaticCapabilities (Some l) c)
     = requestedVirtualCaps c
  /\ (forall n, In n v <-> In n l /\ In n (VirtualCaps c))
  /\ sublist v l
  /\ requestedVirtualCaps (SetRequestedVirtualCapabilities (Some l) c)
     = (if (0 <? length v)%nat then Some v else requestedVirtualCaps c)
  /\ requestedStaticCaps (SetRequestedVirtualCapabilities (Some l) c)
     = requestedStaticCaps c.
Proof.
  intros Hs Hv. cbv zeta.
  split; [|split; [|split; [|split; [|split; [|split; [|split; [|split]]]]]]].
  - intros n. rewrite keepKnown_In. unfold HasStaticCapability.
    rewrite (sliceHasValue_In _ _ Hs). reflexivity.
  - apply keepKnown_sublist.
  - apply SetRequestedStaticCapabilities_all_unknown.
  - unfold SetRequestedStaticCapabilities.
    destruct (0 <? _)%nat; [|reflexivity].
    rewrite clearCache_requestedStaticCaps. reflexivity.
  - unfold SetRequestedStaticCapabilities.
    destruct (0 <? _)%nat; [|reflexivity].
    rewrite clearCache_requestedVirtualCaps. reflexivity.
  - intros n. rewrite keepKnown_In. unfold HasVirtualCapability.
    rewrite (sliceHasValue_In _ _ Hv). reflexivity.
  - apply keepKnown_sublist.
  - unfold SetRequestedVirtualCapabilities.
    destruct (0 <? _)%nat; [|reflexivity].
    rewrite clearCache_requestedVirtualCaps. reflexivity.
  - unfold SetRequestedVirtualCapabilities.
    destruct (0 <? _)%nat; [|reflexivity].
    rewrite clearCache_requestedStaticCaps. reflexivity.
Qed.

(** X5: on a registry in ascending order, SetRequestedCapabilities with
    a non-nil list sends each name to one list at most: the names the
    static registry holds to the requested static list, the names only
    the virtual registry holds to the requested virtual list, the others
    nowhere; no name is in both lists. *)
Theorem SetRequestedCapabilities_partitions (c : WmClient) (l : list string) :
  ascending (StaticCaps c) -> ascending (VirtualCaps c) ->
  exists s v,
    requestedStaticCaps (SetRequestedCapabilities (Some l) c) = Some s
    /\ requestedVirtualCaps (SetRequestedCapabilities (Some l) c) = Some v
    /\ sublist s l /\ sublist v l
    /\ (forall n, In n s <-> In n l /\ In n (StaticCaps c))
    /\ (forall n, In n v <->
                  In n l /\ ~ In n (StaticCaps c) /\ In n (VirtualCaps c))
    /\ (forall n, ~ (In n s /\ In n v)).
Proof.
  intros Hs Hv. unfold SetRequestedCapabilities.
  rewrite clearCache_requestedStaticCaps, clearCache_requestedVirtualCaps. simpl.
  eexists. eexists. split; [reflexivity|]. split; [reflexivity|].
  assert (forall n, In n (keepKnown (HasStaticCapability c) l)
                    <-> In n l /\ In n (StaticCaps c)) as HS.
  { intros n. rewrite keepKnown_In. unfold HasStaticCapability.
    rewrite (sliceHasValue_In _ _ Hs). reflexivity. }
  assert (forall n, In n (keepKnown (fun name => negb (HasStaticCapability c name)
                                                 && HasVirtualCapability c name) l)
                    <-> In n l /\ ~ In n (StaticCaps c) /\ In n (VirtualCaps c)) as HV.
  { intros n. rewrite keepKnown_In. unfold HasStaticCapability, HasVirtualCapability.
    rewrite andb_true_iff, negb_true_iff.
    rewrite (sliceHasValue_In _ _ Hv).
    split; intros [H1 [H2 H3]]; (split; [assumption|]); (split; [|assumption]).
    - intros Hin. apply (sliceHasValue_In _ _ Hs) in Hin. congruence.
    - destruct (sliceHasValue (StaticCaps c) n) eqn:E; [|reflexivity].
      apply (sliceHasValue_In _ _ Hs) in E. contradiction. }
  split; [apply keepKnown_sublist|]. split; [apply keepKnown_sublist|].
  split; [exact HS|]. split; [exact HV|].
  intros n [H1 H2]. apply HS in H1. apply HV in H2. tauto.
Qed.

Lemma sampleClient_ascending :
  ascending (StaticCaps sampleClient) /\ ascending (VirtualCaps sampleClient).
Proof.
  split.
  - change (ascending (sort_Strings ["model_name"; "brand_name"])).
    apply sort_Strings_ascending.
  - change (ascending (sort_Strings ["is_ios"; "form_factor"])).
    apply sort_Strings_ascending.
Qed.

Lemma single_setters_commit_known_names_witness :
  requestedStaticCaps
    (SetRequestedStaticCapabilities (Some ["brand_name"; "invalid_name1"; "is_ios"])
       sampleClient)
  = Some ["brand_name"]
  /\ requestedVirtualCaps
       (SetRequestedVirtualCapabilities (Some ["brand_name"; "invalid_name1"; "is_ios"])
          sampleClient)
     = Some ["is_ios"].
Proof.
  destruct (single_setters_commit_known_names sampleClient
              ["brand_name"; "invalid_name1"; "is_ios"]
              (proj1 sampleClient_ascending) (proj2 sampleClient_ascending))
    as (_ & _ & _ & H1 & _ & _ & _ & H2 & _).
  split; [exact H1 | exact H2].
Defined.

Lemma SetRequestedCapabilities_partitions_witness :
  exists s v,
    requestedStaticCaps
      (SetRequestedCapabilities (Some ["is_ios"; "brand_name"; "nonexcap"]) sampleClient)
    = Some s
    /\ requestedVirtualCaps
         (SetRequestedCapabilities (Some ["is_ios"; "brand_name"; "nonexcap"]) sampleClient)
       = Some v
    /\ forall n, ~ (In n s /\ In n v).
Proof.
  destruct (SetRequestedCapabilities_partitions sampleClient
              ["is_ios"; "brand_name"; "nonexcap"]
              (proj1 sampleClient_ascending) (proj2 sampleClient_ascending))
    as (s & v & H1 & H2 & _ & _ & _ & _ & H3).
  exists s, v. split; [exact H1|]. split; [exact H2 | exact H3].
Defined.

(** ** Caches *)

(** X6: clearCache can be called again at no cost - a second call
    changes nothing - and it neither enables a cache that is off nor
    changes the capacity of one that is on. *)
Theorem clearCache_idempotent (c : WmClient) :
  clearCache (clearCache c) = clearCache c
  /\ lru.MaxEntries <$> deviceCache (clearCache c) = lru.MaxEntries <$> deviceCache c
  /\ lru.MaxEntries <$> userAgentCache (clearCache c) = lru.MaxEntries <$> userAgentCache c.
Proof.
  split; [|split].
  - destruct c as [s h p b sc vc rs rv ih [[dm dl]|] [[um ul]|] mk dmk dmm dos dom lt];
      unfold clearCache; simpl;
      try destruct dl; try destruct ul; reflexivity.
  - rewrite clearCache_deviceCache. destruct (deviceCache c); reflexivity.
  - rewrite clearCache_userAgentCache. destruct (userAgentCache c); reflexivity.
Qed.

(** A lookup that misses its cache: either the client is left as it
    was, or the device is stored after the check of its token. *)
Lemma lookup_miss_client (srv : Server) (q : Query) (w : World) :
  cached (cl w) q = None ->
  sent (lookup srv q w).2 = sent w ++ [lookupCall (cl w) q]
  /\ match (lookup srv q w).1 with
     | (Some d, None) =>
         cl (lookup srv q w).2
         = cacheAdd q (cacheKey (cl w) q) d (clearCachesIfNeeded (Ltime d) (cl w))
     | _ => cl (lookup srv q w).2 = cl w
     end.
Proof.
  intros Hmiss.
  pose proof (lookup_hit_or_call srv q w) as H. rewrite Hmiss in H.
  destruct H as [Heq Hsent]. split; [exact Hsent|].
  destruct (lookup srv q w).1 as [[d|] [e|]] eqn:Hres.
  - rewrite Heq. rewrite Heq, afterLookup_result in Hres.
    destruct (internalLookup srv _ _ _ _) as [[od oe] log']. simpl in Hres.
    injection Hres as -> ->. reflexivity.
  - destruct (lookup_miss_ok srv q w d Hmiss Hres) as [-> _]. reflexivity.
  - rewrite Heq. rewrite Heq, afterLookup_result in Hres.
    destruct (internalLookup srv _ _ _ _) as [[od oe] log']. simpl in Hres.
    injection Hres as -> ->. reflexivity.
  - rewrite Heq. rewrite Heq, afterLookup_result in Hres.
    destruct (internalLookup srv _ _ _ _) as [[od oe] log']. simpl in Hres.
    injection Hres as -> ->. reflexivity.
Qed.

(** X7: a lookup that returns an error - the transport failed, the body
    did not decode, or the server embedded an error message - has made
    one exchange and leaves the client exactly as it was: nothing is
    cached, nothing is invalidated, the stored token is not replaced. *)
Theorem failed_lookup_leaves_client_unchanged (srv : Server) (q : Query)
    (w : World) (e : error) :
  (lookup srv q w).1.2 = Some e ->
  cl (lookup srv q w).2 = cl w
  /\ sent (lookup srv q w).2 = sent w ++ [lookupCall (cl w) q].
Proof.
  intros Herr.
  destruct (cached (cl w) q) as [jdd|] eqn:Hc.
  - rewrite (lookup_hit srv q w jdd Hc) in Herr. discriminate.
  - destruct (lookup_miss_client srv q w Hc) as [Hsent Hcl].
    split; [|exact Hsent].
    destruct (lookup srv q w).1 as [[d|] [e'|]]; simpl in Herr; try discriminate;
      exact Hcl.
Qed.

(** X8: a lookup never returns a nil device with a nil error; when the
    device is nil the error is the one the transport or the decoder
    gave, unchanged; and a cache hit never comes with an error. *)
Theorem lookup_result_shape (srv : Server) (q : Query) (w : World) :
  match (lookup srv q w).1 with
  | (None, None) => False
  | (None, Some e) =>
      cached (cl w) q = None
      /\ serveLookup srv (sent w) (lookupCall (cl w) q) = inl e
  | (Some d, Some e) =>
      cached (cl w) q = None
      /\ exists d0, serveLookup srv (sent w) (lookupCall (cl w) q) = inr d0
                    /\ Error d0 <> ""
                    /\ e = "Received error from WM server: " +:+ Error d0
  | (Some d, None) =>
      cached (cl w) q = Some d
      \/ (cached (cl w) q = None
          /\ serveLookup srv (sent w) (lookupCall (cl w) q) = inr d)
  end.
Proof.
  pose proof (lookup_hit_or_call srv q w) as H.
  destruct (cached (cl w) q) as [jdd|] eqn:Hc.
  - destruct H as [-> _]. left. reflexivity.
  - destruct H as [-> _]. rewrite afterLookup_result.
    pose proof (internalLookup_cases srv (cl w) (lookupPayload (cl w) q)
                  (lookupPath q) (sent w)) as Hi.
    cbv zeta in Hi. fold (lookupCall (cl w) q) in Hi.
    destruct (internalLookup srv _ _ _ _).1 as [[d|] [e|]].
    + split; [reflexivity|]. apply Hi.
    + right. split; [reflexivity|]. apply Hi.
    + split; [reflexivity|]. exact Hi.
    + exact Hi.
Qed.

(** X9: a successful answer whose reload-time token is empty or is the
    stored one invalidates nothing: the client after the lookup is the
    client before it with the one device added to the cache of the
    lookup; the other cache, the tables and the token are as they were. *)
Theorem same_token_keeps_caches (srv : Server) (q : Query) (w w' : World)
    (d : JSONDeviceData) :
  answered srv q w d w' ->
  Ltime d = "" \/ Ltime d = clientLtime (cl w) ->
  cl w' = cacheAdd q (cacheKey (cl w) q) d (cl w)
  /\ otherCacheOf (cl w') q = otherCacheOf (cl w) q
  /\ clientLtime (cl w') = clientLtime (cl w)
  /\ deviceOses (cl w') = deviceOses (cl w)
  /\ deviceMakes (cl w') = deviceMakes (cl w).
Proof.
  intros Ha Ht. apply answered_inv in Ha. destruct Ha as [Hc _].
  rewrite clearCachesIfNeeded_idle in Hc by assumption.
  split; [exact Hc|]. rewrite Hc.
  split; [apply otherCacheOf_cacheAdd|].
  split; [apply cacheAdd_frame|].
  unfold cacheAdd, deviceCacheAdd, userAgentCacheAdd.
  destruct (usesDeviceCache q);
    [destruct (deviceCache (cl w)) | destruct (userAgentCache (cl w))];
    split; reflexivity.
Qed.

(** X10: on a client whose caches were never sized, every lookup goes to
    the server: a run of lookups makes as many exchanges as it has
    lookups, and leaves both caches off. *)
Theorem lookups_without_cache (srv : Server) (qs : list Query) (w : World) :
  deviceCache (cl w) = None -> userAgentCache (cl w) = None ->
  length (sent (lookups srv qs w)) = (length (sent w) + length qs)%nat
  /\ deviceCache (cl (lookups srv qs w)) = None
  /\ userAgentCache (cl (lookups srv qs w)) = None.
Proof.
  unfold lookups. revert w.
  induction qs as [|q qs IH]; intros w Hd Hu; simpl.
  - split; [lia|]. split; assumption.
  - assert (cached (cl w) q = None) as Hmiss.
    { unfold cached, cacheOf. destruct (usesDeviceCache q); [rewrite Hd|rewrite Hu];
        reflexivity. }
    destruct (lookup_miss_client srv q w Hmiss) as [Hsent Hcl].
    assert (deviceCache (cl (lookup srv q w).2) = None
            /\ userAgentCache (cl (lookup srv q w).2) = None) as [Hd' Hu'].
    { assert (forall d, deviceCache (cacheAdd q (cacheKey (cl w) q) d
                                       (clearCachesIfNeeded (Ltime d) (cl w))) = None
                        /\ userAgentCache (cacheAdd q (cacheKey (cl w) q) d
                                             (clearCachesIfNeeded (Ltime d) (cl w))) = None)
        as Hadd.
      { intros d.
        assert (deviceCache (clearCachesIfNeeded (Ltime d) (cl w)) = None
                /\ userAgentCache (clearCachesIfNeeded (Ltime d) (cl w)) = None)
          as [E1 E2].
        { destruct (clearCachesIfNeeded_cases (Ltime d) (cl w)) as [-> | ->];
            [split; assumption|].
          rewrite clearCache_deviceCache, clearCache_userAgentCache. simpl.
          rewrite Hd, Hu. split; reflexivity. }
        unfold cacheAdd, deviceCacheAdd, userAgentCacheAdd.
        destruct (usesDeviceCache q); [rewrite E1 | rewrite E2]; cbv iota;
          split; assumption. }
      destruct (lookup srv q w).1 as [[d|] [e|]]; rewrite Hcl;
        try (split; assumption); apply Hadd. }
    destruct (IH (lookup srv q w).2 Hd' Hu') as (IH1 & IH2 & IH3).
    rewrite IH1, Hsent, length_app. simpl. split; [lia|]. split; assumption.
Qed.

(** ** How the operations compose *)

Lemma empty_caches_miss (c : WmClient) (q : Query) :
  GetActualCacheSizes c = (0%nat, 0%nat) -> cached c q = None.
Proof.
  rewrite (GetActualCacheSizes_by_query q). unfold cached, cacheLen, lru.Len.
  destruct (usesDeviceCache q); intros [= H1 H2];
    (destruct (cacheOf c q) as [[m l]|]; [|reflexivity]);
    simpl in *; destruct l; [reflexivity|discriminate|reflexivity|discriminate].
Qed.

Lemma empty_caches_ask (srv : Server) (q : Query) (w : World) :
  GetActualCacheSizes (cl w) = (0%nat, 0%nat) ->
  lookupAsksFor srv q w (requestedStaticCaps (cl w)) (requestedVirtualCaps (cl w)).
Proof.
  intros H. apply (empty_caches_miss _ q) in H.
  destruct (lookup_miss_client srv q w H) as [Hsent _].
  exists (lookupCall (cl w) q), (lookupPayload (cl w) q).
  split; [exact Hsent|]. repeat split.
Qed.

(** X11: a change of the requested capabilities takes effect at the very
    next lookup, whatever was cached before: after a setter has
    committed (a nil argument, or a list with a known name; always for
    SetRequestedCapabilities) the next lookup of any kind is not served
    from a cache but goes to the server, and its request asks for the
    lists just committed. *)
Theorem setters_take_effect_at_next_lookup (srv : Server) (q : Query) (w : World)
    (CapsList : option (list string)) :
  (match CapsList with
   | None => True
   | Some l => keepKnown (HasStaticCapability (cl w)) l <> []
   end ->
   lookupAsksFor srv q (on_client (SetRequestedStaticCapabilities CapsList) w)
     (keepKnown (HasStaticCapability (cl w)) <$> CapsList)
     (requestedVirtualCaps (cl w)))
  /\ (match CapsList with
      | None => True
      | Some l => keepKnown (HasVirtualCapability (cl w)) l <> []
      end ->
      lookupAsksFor srv q (on_client (SetRequestedVirtualCapabilities CapsList) w)
        (requestedStaticCaps (cl w))
        (keepKnown (HasVirtualCapability (cl w)) <$> CapsList))
  /\ lookupAsksFor srv q (on_client (SetRequestedCapabilities CapsList) w)
       (keepKnown (HasStaticCapability (cl w)) <$> CapsList)
       (keepKnown (fun name => negb (HasStaticCapability (cl w) name)
                               && HasVirtualCapability (cl w) name) <$> CapsList).
Proof.
  split; [|split].
  - intros H.
    destruct (SetRequestedStaticCapabilities_commits (cl w) CapsList H) as [H1 H2].
    pose proof (empty_caches_ask srv q
                  (on_client (SetRequestedStaticCapabilities CapsList) w) H2) as Ha.
    simpl in Ha. rewrite H1 in Ha.
    replace (requestedVirtualCaps (SetRequestedStaticCapabilities CapsList (cl w)))
      with (requestedVirtualCaps (cl w)) in Ha; [exact Ha|].
    unfold SetRequestedStaticCapabilities.
    destruct CapsList as [l|]; [destruct (0 <? _)%nat|];
      rewrite ?clearCache_requestedVirtualCaps; reflexivity.
  - intros H.
    destruct (SetRequestedVirtualCapabilities_commits (cl w) CapsList H) as [H1 H2].
    pose proof (empty_caches_ask srv q
                  (on_client (SetRequestedVirtualCapabilities CapsList) w) H2) as Ha.
    simpl in Ha. rewrite H1 in Ha.
    replace (requestedStaticCaps (SetRequestedVirtualCapabilities CapsList (cl w)))
      with (requestedStaticCaps (cl w)) in Ha; [exact Ha|].
    unfold SetRequestedVirtualCapabilities.
    destruct CapsList as [l|]; [destruct (0 <? _)%nat|];
      rewrite ?clearCache_requestedStaticCaps; reflexivity.
  - pose proof (empty_caches_ask srv q
                  (on_client (SetRequestedCapabilities CapsList) w)
                  (SetRequestedCapabilities_clears (cl w) CapsList)) as Ha.
    simpl in Ha.
    replace (requestedStaticCaps (SetRequestedCapabilities CapsList (cl w)))
      with (keepKnown (HasStaticCapability (cl w)) <$> CapsList) in Ha.
    + replace (requestedVirtualCaps (SetRequestedCapabilities CapsList (cl w)))
        with (keepKnown (fun name => negb (HasStaticCapability (cl w) name)
                                     && HasVirtualCapability (cl w) name) <$> CapsList)
        in Ha; [exact Ha|].
      unfold SetRequestedCapabilities. destruct CapsList;
        rewrite clearCache_requestedVirtualCaps; reflexivity.
    + unfold SetRequestedCapabilities. destruct CapsList;
        rewrite clearCache_requestedStaticCaps; reflexivity.
Qed.

(** ** Invariants of the worlds a program can reach *)

Section Invariant.
Variable Inv : WmClient -> Prop.
Hypothesis Inv_zero : Inv zeroClient.
Hypothesis Inv_endpoint : forall s h p b c, Inv c -> Inv (set_endpoint s h p b c).
Hypothesis Inv_registry : forall ih sc vc c, Inv c -> Inv (set_registry ih sc vc c).
Hypothesis Inv_requestedStatic : forall l c, Inv c -> Inv (set_requestedStaticCaps l c).
Hypothesis Inv_requestedVirtual : forall l c, Inv c -> Inv (set_requestedVirtualCaps l c).
Hypothesis Inv_Ltime : forall t c, Inv c -> Inv (set_clientLtime t c).
Hypothesis Inv_clearCache : forall c, Inv c -> Inv (clearCache c).
Hypothesis Inv_SetCacheSize : forall n c, Inv c -> Inv (SetCacheSize n c).
Hypothesis Inv_cacheGet : forall q key c, Inv c -> Inv (cacheGet q key c).2.
Hypothesis Inv_cacheAdd : forall q key d c, Inv c -> Inv (cacheAdd q key d c).
Hypothesis Inv_oses :
  forall l c, Inv c -> Inv (set_deviceOses (foldOsVersions l).2 (foldOsVersions l).1 c).
Hypothesis Inv_makes :
  forall l c, Inv c -> Inv (set_deviceMakes (foldMakeModels l).2 (foldMakeModels l).1 c).

Lemma Inv_clearCachesIfNeeded ltime c : Inv c -> Inv (clearCachesIfNeeded ltime c).
Proof.
  intros H. destruct (clearCachesIfNeeded_cases ltime c) as [-> | ->]; auto.
Qed.

Lemma Inv_lookup srv q w : Inv (cl w) -> Inv (cl (lookup srv q w).2).
Proof.
  intros H. rewrite lookup_shape. cbv zeta.
  pose proof (Inv_cacheGet q (keyFor (cl w) q (queryHeaders (cl w) q)) (cl w) H) as Hg.
  destruct (cacheGet q _ (cl w)) as [[jdd|] c']; simpl in Hg; [exact Hg|].
  match goal with |- context [internalLookup ?s ?c ?r ?p ?l] =>
    destruct (internalLookup s c r p l) as [[[d|] [e|]] log'] end; simpl; try exact Hg.
  apply Inv_cacheAdd, Inv_clearCachesIfNeeded, Hg.
Qed.

Lemma Inv_loadDeviceOsesData srv w :
  Inv (cl w) -> Inv (cl (loadDeviceOsesData srv w).2).
Proof.
  intros H. unfold loadDeviceOsesData, internalGet.
  destruct (0 <? _)%nat; simpl; [exact H|].
  destruct (serveOsVersions srv _ _) as [e|l]; simpl; [exact H|].
  pose proof (Inv_oses l (cl w) H) as Ho.
  destruct (foldOsVersions l); simpl. exact Ho.
Qed.

Lemma Inv_loadDeviceMakesData srv w :
  Inv (cl w) -> Inv (cl (loadDeviceMakesData srv w).2).
Proof.
  intros H. unfold loadDeviceMakesData, internalGet.
  destruct (0 <? _)%nat; simpl; [exact H|].
  destruct (serveMakeModels srv _ _) as [e|l]; simpl; [exact H|].
  pose proof (Inv_makes l (cl w) H) as Ho.
  destruct (foldMakeModels l); simpl. exact Ho.
Qed.

Lemma Inv_step srv op w : Inv (cl w) -> Inv (cl (step srv op w)).
Proof.
  intros H. destruct op; simpl.
  - auto.
  - unfold SetRequestedStaticCapabilities. destruct CapsList as [l|];
      [destruct (0 <? _)%nat|]; auto.
  - unfold SetRequestedVirtualCapabilities. destruct CapsList as [l|];
      [destruct (0 <? _)%nat|]; auto.
  - unfold SetRequestedCapabilities. destruct CapsList; auto.
  - apply Inv_lookup, H.
  - unfold GetInfo, internalGet. destruct (serveInfo srv _ _) as [e|info]; simpl;
      [exact H|]. destruct (checkData info); simpl;
      [apply Inv_clearCachesIfNeeded|]; exact H.
  - unfold GetAllOSes. pose proof (Inv_loadDeviceOsesData srv w H) as H'.
    destruct (loadDeviceOsesData srv w). exact H'.
  - unfold GetAllVersionsForOS. pose proof (Inv_loadDeviceOsesData srv w H) as H'.
    destruct (loadDeviceOsesData srv w). exact H'.
  - unfold GetAllDeviceMakes. pose proof (Inv_loadDeviceMakesData srv w H) as H'.
    destruct (loadDeviceMakesData srv w). exact H'.
  - unfold GetAllDevicesForMake. pose proof (Inv_loadDeviceMakesData srv w H) as H'.
    destruct (loadDeviceMakesData srv w). exact H'.
Qed.

(** Whatever the primitive assignments keep holds in every world a
    program can reach. *)
Lemma reachable_Inv srv w : reachable srv w -> Inv (cl w).
Proof.
  induction 1 as [Scheme Host Port BaseURI log c log' HC | op w Hr IH].
  - revert HC. unfold Create, GetInfo, internalGet. cbn [cl sent].
    destruct (serveInfo srv log _) as [e|info]; [discriminate|].
    destruct (checkData info); cbn [negb cl sent]; [|discriminate].
    intros [= <- <-]. cbn [cl].
    apply Inv_registry, Inv_clearCachesIfNeeded, Inv_endpoint, Inv_zero.
  - apply Inv_step, IH.
Qed.
End Invariant.

(** ** The caches stay bounded *)

Lemma lru_find_None key (l : list (string * JSONDeviceData)) :
  lru.find key l = None -> ~ In key (map fst l).
Proof.
  induction l as [|[k v] l IH]; simpl; [tauto|].
  destruct (String.eqb_spec k key) as [E|E]; [discriminate|].
  intros H [H'|H']; [contradiction | exact (IH H H')].
Qed.

Lemma lru_unlink_keys key (l : list (string * JSONDeviceData)) x :
  In x (map fst (lru.unlink key l)) -> In x (map fst l).
Proof.
  induction l as [|[k v] l IH]; simpl; [tauto|].
  destruct (String.eqb k key); simpl; intuition.
Qed.

Lemma lru_unlink_NoDup key (l : list (string * JSONDeviceData)) :
  NoDup (map fst l) ->
  NoDup (map fst (lru.unlink key l)) /\ ~ In key (map fst (lru.unlink key l)).
Proof.
  induction l as [|[k v] l IH]; simpl; intros Hnd.
  - split; [constructor | tauto].
  - apply NoDup_cons in Hnd. destruct Hnd as [Hk Hnd].
    rewrite list_elem_of_In in Hk.
    destruct (String.eqb_spec k key) as [E|E]; simpl.
    + subst k. split; assumption.
    + destruct (IH Hnd) as [IH1 IH2]. split.
      * apply NoDup_cons. split; [|assumption].
        rewrite list_elem_of_In. intros H. apply Hk. eapply lru_unlink_keys, H.
      * intros [H|H]; [contradiction | exact (IH2 H)].
Qed.

Lemma removelast_map {A B} (f : A -> B) (l : list A) :
  map f (removelast l) = removelast (map f l).
Proof.
  induction l as [|x [|y l] IH]; simpl; [reflexivity|reflexivity|].
  simpl in IH. rewrite IH. reflexivity.
Qed.

Lemma removelast_NoDup {A} (l : list A) : NoDup l -> NoDup (removelast l).
Proof.
  induction l as [|x [|y l] IH]; simpl; intros H; [constructor|constructor|].
  apply NoDup_cons in H. destruct H as [Hx Hnd].
  apply NoDup_cons. split; [|apply IH; assumption].
  rewrite list_elem_of_In in *. intros Hin. apply Hx.
  apply (removelast_incl (y :: l)). exact Hin.
Qed.

Lemma removelast_length_cons {A} (x : A) (l : list A) :
  length (removelast (x :: l)) = length l.
Proof.
  rewrite removelast_firstn_len. rewrite length_firstn. simpl. lia.
Qed.

Lemma boundedCache_Add key value ch :
  boundedCache (Some ch) -> boundedCache (Some (lru.Add key value ch)).
Proof.
  unfold boundedCache, lru.Len. intros [Hnd Hb].
  rewrite lru_Add_MaxEntries. unfold lru.Add.
  destruct (lru.find key (lru.ll ch)) as [v|] eqn:Hf; simpl.
  - destruct (lru_unlink_NoDup key _ Hnd) as [H1 H2]. split.
    + apply NoDup_cons. split; [rewrite list_elem_of_In|]; assumption.
    + rewrite (lru_unlink_length key _ v Hf). exact Hb.
  - apply lru_find_None in Hf.
    assert (NoDup (key :: map fst (lru.ll ch))) as Hnd'
        by (apply NoDup_cons; split; [rewrite list_elem_of_In|]; assumption).
    unfold lru.Len. simpl length.
    destruct (negb (lru.MaxEntries ch =? 0)%Z
              && (lru.MaxEntries ch <? Z.of_nat (S (length (lru.ll ch))))%Z) eqn:E;
      unfold lru.RemoveOldest; cbn [lru.ll lru.MaxEntries].
    + split.
      * rewrite removelast_map. cbn [map fst]. apply (removelast_NoDup (key :: map fst (lru.ll ch))).
        exact Hnd'.
      * intros Hpos. rewrite (removelast_length_cons (key, value)). exact (Hb Hpos).
    + split; [exact Hnd'|]. intros Hpos.
      apply andb_false_iff in E. destruct E as [E|E].
      * apply negb_false_iff, Z.eqb_eq in E. lia.
      * apply Z.ltb_ge in E. exact E.
Qed.

Lemma boundedCache_Get key ch :
  boundedCache (Some ch) -> boundedCache (Some (lru.Get key ch).2).
Proof.
  unfold boundedCache, lru.Get, lru.Len. intros [Hnd Hb].
  destruct (lru.find key (lru.ll ch)) as [v|] eqn:Hf; simpl; [|split; assumption].
  destruct (lru_unlink_NoDup key _ Hnd) as [H1 H2]. split.
  - apply NoDup_cons. split; [rewrite list_elem_of_In|]; assumption.
  - rewrite (lru_unlink_length key _ v Hf). exact Hb.
Qed.

Lemma boundedCache_Clear oc : boundedCache (lru.Clear <$> oc).
Proof.
  destruct oc as [ch|]; simpl; [|exact I].
  split; [constructor|]. unfold lru.Len. simpl. lia.
Qed.

Lemma lru_Get_MaxEntries key ch :
  lru.MaxEntries (lru.Get key ch).2 = lru.MaxEntries ch.
Proof. unfold lru.Get. destruct (lru.find key (lru.ll ch)); reflexivity. Qed.

Lemma boundedCaches_cacheAdd q key d c :
  boundedCaches c -> boundedCaches (cacheAdd q key d c).
Proof.
  intros (Hd & Hu & Hcap).
  unfold cacheAdd, deviceCacheAdd, userAgentCacheAdd.
  destruct (usesDeviceCache q).
  - destruct (deviceCache c) as [ch|] eqn:E; [|unfold boundedCaches; rewrite E; exact (conj Hd (conj Hu Hcap))].
    unfold boundedCaches. simpl. split; [apply boundedCache_Add, Hd|].
    split; [exact Hu|]. intros ch' [= <-]. rewrite lru_Add_MaxEntries. auto.
  - destruct (userAgentCache c) as [ch|] eqn:E; [|unfold boundedCaches; rewrite E; exact (conj Hd (conj Hu Hcap))].
    unfold boundedCaches. simpl. split; [exact Hd|].
    split; [apply boundedCache_Add, Hu | exact Hcap].
Qed.

Lemma boundedCaches_cacheGet q key c :
  boundedCaches c -> boundedCaches (cacheGet q key c).2.
Proof.
  intros (Hd & Hu & Hcap).
  unfold cacheGet, deviceCacheGet, userAgentCacheGet.
  destruct (usesDeviceCache q).
  - destruct (deviceCache c) as [ch|] eqn:E; [|cbn [snd]; unfold boundedCaches; rewrite E; exact (conj Hd (conj Hu Hcap))].
    pose proof (boundedCache_Get key ch Hd) as Hg.
    pose proof (lru_Get_MaxEntries key ch) as Hm.
    destruct (lru.Get key ch) as [v ch']. unfold boundedCaches. simpl in *.
    split; [exact Hg|]. split; [exact Hu|]. intros ch'' [= <-]. rewrite Hm. auto.
  - destruct (userAgentCache c) as [ch|] eqn:E; [|cbn [snd]; unfold boundedCaches; rewrite E; exact (conj Hd (conj Hu Hcap))].
    pose proof (boundedCache_Get key ch Hu) as Hg.
    destruct (lru.Get key ch) as [v ch']. unfold boundedCaches. simpl in *.
    split; [exact Hd|]. split; [exact Hg | exact Hcap].
Qed.

Lemma boundedCaches_clearCache c : boundedCaches c -> boundedCaches (clearCache c).
Proof.
  intros (Hd & Hu & Hcap). unfold boundedCaches.
  rewrite clearCache_deviceCache, clearCache_userAgentCache.
  split; [apply boundedCache_Clear|]. split; [apply boundedCache_Clear|].
  destruct (deviceCache c) as [ch|]; simpl; [|discriminate].
  intros ch' [= <-]. simpl. auto.
Qed.

Lemma reachable_boundedCaches (srv : Server) (w : World) :
  reachable srv w -> boundedCaches (cl w).
Proof.
  apply (reachable_Inv boundedCaches); try (intros; assumption).
  - repeat split. discriminate.
  - apply boundedCaches_clearCache.
  - intros n c _. unfold boundedCaches, SetCacheSize. simpl.
    split; [split; [constructor | unfold lru.Len; simpl; lia]|].
    split; [split; [constructor | unfold lru.Len; simpl; lia]|].
    intros ch [= <-]. reflexivity.
  - apply boundedCaches_cacheGet.
  - apply boundedCaches_cacheAdd.
Qed.

(** X12: in every world a program can reach, each cache holds one entry
    per key at most; the device-id cache, whose capacity is always
    20000, never reports more than 20000 entries, and the headers cache
    never reports more than the positive size it was given. *)
Theorem caches_stay_bounded (srv : Server) (w : World) :
  reachable srv w ->
  boundedCache (deviceCache (cl w)) /\ boundedCache (userAgentCache (cl w))
  /\ (Z.of_nat (GetActualCacheSizes (cl w)).1 <= 20000)%Z
  /\ (forall ch, userAgentCache (cl w) = Some ch -> (0 < lru.MaxEntries ch)%Z ->
                 (Z.of_nat (GetActualCacheSizes (cl w)).2 <= lru.MaxEntries ch)%Z).
Proof.
  intros Hr. destruct (reachable_boundedCaches srv w Hr) as (Hd & Hu & Hcap).
  split; [exact Hd|]. split; [exact Hu|]. unfold GetActualCacheSizes. simpl. split.
  - destruct (deviceCache (cl w)) as [ch|]; [|lia].
    destruct Hd as [_ Hd]. specialize (Hcap ch eq_refl).
    rewrite Hcap in Hd. unfold deviceDefaultCacheSize in Hd. lia.
  - intros ch Hch Hpos. rewrite Hch in *. destruct Hu as [_ Hu]. exact (Hu Hpos).
Qed.

(** ** The headers a lookup sends and the key it caches under *)

Lemma copyHeaders_fold_lookup (get : string -> string) (names : list string)
    (m0 : gmap string string) (k : string) :
  fold_left (fun (m : gmap string string) name =>
               let h := get name in
               if String.eqb h "" then m else <[name := h]> m) names m0 !! k
  = if existsb (String.eqb k) names && negb (String.eqb (get k) "")
    then Some (get k) else m0 !! k.
Proof.
  revert m0. induction names as [|n names IH]; intros m0; simpl fold_left;
    [reflexivity|].
  rewrite IH. cbv zeta. simpl existsb.
  destruct (String.eqb_spec k n) as [<-|E]; simpl.
  - destruct (String.eqb (get k) "") eqn:E'; simpl.
    + rewrite andb_false_r. reflexivity.
    + rewrite andb_true_r, lookup_insert_eq.
      destruct (existsb _ names); reflexivity.
  - destruct (existsb (String.eqb k) names && negb (String.eqb (get k) ""));
      [reflexivity|].
    destruct (String.eqb (get n) ""); [reflexivity|].
    apply lookup_insert_ne. congruence.
Qed.

Lemma existsb_eqb_In (k : string) (names : list string) :
  existsb (String.eqb k) names = true <-> In k names.
Proof.
  rewrite existsb_exists. split.
  - intros (x & Hx & E). apply String.eqb_eq in E. congruence.
  - intros H. exists k. split; [assumption | apply String.eqb_refl].
Qed.

Lemma copyHeaders_lookup (get : string -> string) (names : list string)
    (k v : string) :
  copyHeaders get names !! k = Some v <-> In k names /\ get k = v /\ v <> "".
Proof.
  unfold copyHeaders. rewrite copyHeaders_fold_lookup, lookup_empty.
  destruct (existsb (String.eqb k) names) eqn:Ein; simpl.
  - apply existsb_eqb_In in Ein.
    destruct (String.eqb_spec (get k) "") as [E|E]; simpl.
    + split; [discriminate|]. intros (_ & H1 & H2). congruence.
    + split.
      * intros [= <-]. repeat split; assumption.
      * intros (_ & <- & _). reflexivity.
  - split; [discriminate|]. intros (H & _).
    apply existsb_eqb_In in H. congruence.
Qed.

(** X13: the headers LookupRequest and LookupHeaders send are important
    headers only, under the name the server gave them, and never with an
    empty value: LookupRequest sends for each important header what
    Header.Get returns for it; LookupHeaders sends, for each important
    header, the value of the entry of the map whose name strings.ToLower
    lowers to the same string as the name of the header - the entry
    visited last when there are several.  This holds whatever the
    names are, ASCII or not. *)
Theorem lookup_headers_are_important_headers (c : WmClient)
    (request : http_Request) (headers : list (string * string)) (k v : string) :
  (queryHeaders c (ByRequest request) !! k = Some v
   <-> In k (ImportantHeaders c) /\ Header_Get request k = v /\ v <> "")
  /\ (queryHeaders c (ByHeaders headers) !! k = Some v
      <-> In k (ImportantHeaders c)
          /\ last (valuesOf (ToLower k) (lowered headers)) = Some v /\ v <> "").
Proof.
  split.
  - apply copyHeaders_lookup.
  - simpl. unfold normalizedHeaders. rewrite copyHeaders_lookup.
    unfold lowerKeyMap. rewrite fold_lower_lookup, lookup_empty.
    destruct (last (valuesOf (ToLower k) (lowered headers))) as [x|]; simpl.
    + split; intros (H1 & H2 & H3); repeat split; congruence.
    + split; intros (H1 & H2 & H3); [congruence | discriminate].
Qed.

Lemma fold_key_ext (names : list string) (f g : string -> string) (k0 : string) :
  (forall h, In h names -> f h = g h) ->
  fold_left (fun key hname => key +:+ f hname) names k0
  = fold_left (fun key hname => key +:+ g hname) names k0.
Proof.
  revert k0. induction names as [|n names IH]; intros k0 H; simpl; [reflexivity|].
  rewrite (H n) by (left; reflexivity). apply IH.
  intros h Hh. apply H. right. assumption.
Qed.

(** X14: the cache key reads its argument at the important headers
    only: two header maps that give every important header the same
    value get the same key; and two http requests for which Header.Get
    agrees on the important headers are one and the same lookup - the
    same headers are sent, the same key is used. *)
Theorem cache_key_reads_important_headers_only (c : WmClient) :
  (forall m1 m2 : gmap string string,
      (forall h, In h (ImportantHeaders c) -> m1 !! h = m2 !! h) ->
      getUserAgentCacheKey c m1 = getUserAgentCacheKey c m2)
  /\ (forall r1 r2 : http_Request,
         (forall h, In h (ImportantHeaders c) -> Header_Get r1 h = Header_Get r2 h) ->
         queryHeaders c (ByRequest r1) = queryHeaders c (ByRequest r2)
         /\ sameLookup c (ByRequest r1) (ByRequest r2)).
Proof.
  split.
  - intros m1 m2 H. unfold getUserAgentCacheKey. f_equal.
    apply fold_key_ext. intros h Hh. rewrite (H h Hh). reflexivity.
  - intros r1 r2 H.
    assert (queryHeaders c (ByRequest r1) = queryHeaders c (ByRequest r2)) as E
        by (simpl; apply copyHeaders_ext; assumption).
    split; [exact E|]. split; [reflexivity|].
    unfold cacheKey. rewrite E. reflexivity.
Qed.

(** The digest is 32 characters long, each a lowercase hexadecimal
    digit. *)
Lemma le_bytes_length (n : nat) (x : Z) : length (MD5.le_bytes n x) = n.
Proof. revert x. induction n as [|n IH]; intros x; simpl; [|rewrite IH]; reflexivity. Qed.

Lemma Sum_length (msg : list Z) : length (MD5.Sum msg) = 16%nat.
Proof.
  unfold MD5.Sum.
  destruct (fold_left MD5.block _ _) as [[[a b] c0] d].
  rewrite !length_app, !le_bytes_length. reflexivity.
Qed.

Lemma EncodeToString_length (bs : list Z) :
  String.length (MD5.EncodeToString bs) = (2 * length bs)%nat.
Proof. induction bs as [|b bs IH]; simpl; [reflexivity|]. rewrite IH. lia. Qed.

Lemma hexdigit_hex (n : Z) :
  In (MD5.hexdigit n) (list_ascii_of_string "0123456789abcdef").
Proof.
  unfold MD5.hexdigit.
  destruct (Nat.lt_ge_cases (Z.to_nat n)
              (length (list_ascii_of_string "0123456789abcdef"))) as [H|H].
  - apply nth_In. exact H.
  - rewrite nth_overflow by exact H. left. reflexivity.
Qed.

Lemma EncodeToString_hex (bs : list Z) :
  Forall (fun a => In a (list_ascii_of_string "0123456789abcdef"))
         (list_ascii_of_string (MD5.EncodeToString bs)).
Proof.
  induction bs as [|b bs IH]; simpl; [constructor|].
  constructor; [apply hexdigit_hex|]. constructor; [apply hexdigit_hex | exact IH].
Qed.

(** X15: whatever the important headers and the header map,
    getUserAgentCacheKey returns a string of 32 characters, each a
    lowercase hexadecimal digit. *)
Theorem cache_key_is_32_hex_digits (c : WmClient) (headers : gmap string string) :
  String.length (getUserAgentCacheKey c headers) = 32%nat
  /\ Forall (fun a => In a (list_ascii_of_string "0123456789abcdef"))
            (list_ascii_of_string (getUserAgentCacheKey c headers)).
Proof.
  unfold getUserAgentCacheKey, MD5.hexsum. split.
  - rewrite EncodeToString_length, Sum_length. reflexivity.
  - apply EncodeToString_hex.
Qed.

(** X16: a LookupHeaders call whose map holds the user-agent alone,
    under any casing of the name, is for the cache the same lookup as
    LookupUserAgent of that user-agent, provided the only important
    header named user-agent up to case is "User-Agent" itself. *)
Theorem user_agent_header_lookup_is_user_agent_lookup (c : WmClient)
    (name userAgent : string) :
  (forall h, In h (ImportantHeaders c) -> ToLower h = "user-agent" -> h = "User-Agent") ->
  ToLower name = "user-agent" ->
  sameLookup c (ByUserAgent userAgent) (ByHeaders [(name, userAgent)]).
Proof.
  intros Himp Hname. split; [reflexivity|].
  unfold cacheKey, keyFor, getUserAgentCacheKey. f_equal.
  apply fold_key_ext. intros h Hh.
  assert (queryHeaders c (ByHeaders [(name, userAgent)]) !! h
          = if String.eqb (ToLower h) "user-agent" && negb (String.eqb userAgent "")
            then Some userAgent else None) as E1.
  { simpl. unfold normalizedHeaders, copyHeaders.
    rewrite copyHeaders_fold_lookup, lookup_empty.
    rewrite (proj2 (existsb_eqb_In h _) Hh). simpl.
    unfold lowerKeyMap. simpl. rewrite Hname.
    destruct (String.eqb_spec (ToLower h) "user-agent") as [E|E].
    - rewrite E, lookup_insert_eq. simpl.
      destruct (String.eqb userAgent ""); reflexivity.
    - rewrite lookup_insert_ne by congruence. rewrite lookup_empty. reflexivity. }
  assert (queryHeaders c (ByUserAgent userAgent) !! h
          = if String.eqb h "User-Agent" then Some userAgent else None) as E2.
  { simpl. unfold userAgentHeader.
    destruct (String.eqb_spec h "User-Agent") as [->|E].
    - apply lookup_insert_eq.
    - rewrite lookup_insert_ne by congruence. apply lookup_empty. }
  rewrite E1, E2.
  destruct (String.eqb_spec (ToLower h) "user-agent") as [E|E].
  - rewrite (Himp h Hh E). simpl.
    destruct (String.eqb_spec userAgent "") as [->|E']; reflexivity.
  - destruct (String.eqb_spec h "User-Agent") as [->|E']; [|reflexivity].
    exfalso. apply E. exact (ToLower_ASCII "User-Agent" eq_refl).
Qed.

(** ** The auxiliary tables *)

(** The loop that builds a table, for any way to read a key and a value
    off an entry: from a map and a key list that go together, the keys
    come out in first-seen order after those already there, and each key
    gets its values in listing order after those already there. *)
Section TableFold.
Context {E V : Type}.
Variables (keyOf : E -> string) (valOf : E -> V).

Lemma filter_unseen_app (ks0 : list string) (x : string) (ys : list string) :
  List.filter (fun k => negb (existsb (String.eqb k) (ks0 ++ [x]))) ys
  = List.filter (fun k => negb (existsb (String.eqb k) ks0))
      (List.filter (fun y => negb (String.eqb y x)) ys).
Proof.
  induction ys as [|y ys IHys]; simpl; [reflexivity|].
  rewrite existsb_app. simpl. rewrite orb_false_r.
  destruct (String.eqb_spec y x) as [->|Hne]; simpl.
  - rewrite orb_true_r. simpl. exact IHys.
  - rewrite orb_false_r.
    destruct (existsb (String.eqb y) ks0); simpl; [exact IHys|].
    f_equal. exact IHys.
Qed.

Lemma tableFold_map (l : list E) (m0 : gmap string (list V)) (ks0 : list string)
    (k : string) :
  (fold_left (tableStep keyOf valOf) l (m0, ks0)).1 !! k
  = match valuesFor keyOf valOf k l with
    | [] => m0 !! k
    | vs => Some (default [] (m0 !! k) ++ vs)
    end.
Proof.
  revert m0 ks0. induction l as [|e l IH]; intros m0 ks0; [reflexivity|].
  cbn [fold_left]. unfold tableStep at 2. rewrite IH. unfold valuesFor. simpl.
  destruct (String.eqb_spec (keyOf e) k) as [<-|Hne]; simpl.
  - rewrite lookup_insert_eq. simpl.
    destruct (map valOf _) as [|v vs]; [reflexivity|].
    rewrite <- app_assoc. reflexivity.
  - rewrite lookup_insert_ne by assumption. reflexivity.
Qed.

Lemma filter_filter_neq (x : string) (p : string -> bool) (l : list string) :
  (forall y, p y = true -> String.eqb y x = false) ->
  List.filter p (List.filter (fun y => negb (String.eqb y x)) l) = List.filter p l.
Proof.
  intros H. induction l as [|y l IH]; simpl; [reflexivity|].
  destruct (p y) eqn:Ep.
  - rewrite (H y Ep). simpl. rewrite Ep, IH. reflexivity.
  - destruct (String.eqb y x); simpl; rewrite ?Ep; exact IH.
Qed.

Lemma tableFold_keys (l : list E) (m0 : gmap string (list V)) (ks0 : list string) :
  (forall k, In k ks0 <-> is_Some (m0 !! k)) ->
  (fold_left (tableStep keyOf valOf) l (m0, ks0)).2
  = ks0 ++ List.filter (fun k => negb (existsb (String.eqb k) ks0))
             (firstSeen (map keyOf l)).
Proof.
  revert m0 ks0. induction l as [|e l IH]; intros m0 ks0 Hdom.
  - simpl. rewrite app_nil_r. reflexivity.
  - cbn [fold_left]. unfold tableStep at 2.
    destruct (m0 !! keyOf e) as [vs|] eqn:Hk.
    + assert (In (keyOf e) ks0) as Hin by (apply Hdom; rewrite Hk; eexists; reflexivity).
      rewrite IH.
      * f_equal. simpl.
        rewrite (proj2 (existsb_eqb_In _ _) Hin). simpl.
        symmetry. apply filter_filter_neq.
        intros y Hy. apply String.eqb_neq. intros ->.
        rewrite (proj2 (existsb_eqb_In _ _) Hin) in Hy. discriminate.
      * intros k. rewrite Hdom. destruct (String.eqb_spec (keyOf e) k) as [<-|Hne].
        -- rewrite lookup_insert_eq, Hk. split; intros _; eexists; reflexivity.
        -- rewrite lookup_insert_ne by assumption. reflexivity.
    + assert (~ In (keyOf e) ks0) as Hnin.
      { intros Hin. apply Hdom in Hin. rewrite Hk in Hin. destruct Hin; discriminate. }
      rewrite IH.
      * rewrite <- app_assoc. f_equal. simpl.
        destruct (existsb (String.eqb (keyOf e)) ks0) eqn:Eex;
          [apply existsb_eqb_In in Eex; contradiction|].
        simpl. f_equal. apply filter_unseen_app.
      * intros k. rewrite in_app_iff. simpl.
        destruct (String.eqb_spec (keyOf e) k) as [<-|Hne].
        -- rewrite lookup_insert_eq. split; [intros _; eexists; reflexivity|].
           intros _. right. left. reflexivity.
        -- rewrite lookup_insert_ne by assumption. rewrite <- Hdom. tauto.
Qed.

Lemma firstSeen_In (l : list string) (x : string) : In x (firstSeen l) <-> In x l.
Proof.
  induction l as [|y l IH]; simpl; [reflexivity|].
  rewrite filter_In, IH. destruct (String.eqb_spec x y) as [->|Hne]; simpl.
  - tauto.
  - split; [intros [H|[H _]]; auto | intros [H|H]; auto].
Qed.

Lemma firstSeen_NoDup (l : list string) : NoDup (firstSeen l).
Proof.
  induction l as [|y l IH]; simpl; [constructor|].
  apply NoDup_cons. split.
  - rewrite list_elem_of_In, filter_In. intros [_ H].
    rewrite String.eqb_refl in H. discriminate.
  - apply NoDup_ListNoDup. apply List.NoDup_filter. apply NoDup_ListNoDup. exact IH.
Qed.

Lemma valuesFor_nonempty (k : string) (l : list E) :
  valuesFor keyOf valOf k l <> [] <-> In k (map keyOf l).
Proof.
  unfold valuesFor. induction l as [|e l IH]; simpl; [tauto|].
  destruct (String.eqb_spec (keyOf e) k) as [<-|Hne]; simpl.
  - split; [auto | discriminate].
  - rewrite IH. tauto.
Qed.

(** What the loop builds from nothing. *)
Lemma tableFold_spec (l : list E) :
  (fold_left (tableStep keyOf valOf) l (∅, [])).2 = firstSeen (map keyOf l)
  /\ forall k, (fold_left (tableStep keyOf valOf) l (∅, [])).1 !! k
               = match valuesFor keyOf valOf k l with [] => None | vs => Some vs end.
Proof.
  split.
  - rewrite tableFold_keys.
    + simpl. induction (firstSeen (map keyOf l)) as [|y ys IH]; simpl;
        [reflexivity | f_equal; exact IH].
    + intros k. rewrite lookup_empty. simpl. split; [tauto|].
      intros [x Hx]. discriminate.
  - intros k. rewrite tableFold_map, lookup_empty. reflexivity.
Qed.
End TableFold.

Lemma foldOsVersions_spec (l : list JSONDeviceOsVersions) :
  (foldOsVersions l).2 = firstSeen (map OsName l)
  /\ forall name, (foldOsVersions l).1 !! name
                  = match versionsOfOs name l with [] => None | vs => Some vs end.
Proof. exact (tableFold_spec OsName OsVersion l). Qed.

Lemma foldMakeModels_spec (l : list JSONMakeModel) :
  (foldMakeModels l).2 = firstSeen (map BrandName l)
  /\ forall brand, (foldMakeModels l).1 !! brand
                   = match devicesOfMake brand l with [] => None | vs => Some vs end.
Proof.
  exact (tableFold_spec BrandName
           (fun e => {| ModelName := mm_ModelName e;
                        MarketingName := mm_MarketingName e |}) l).
Qed.

Lemma GetAllOSes_returns_table (srv : Server) (w : World) :
  (GetAllOSes srv w).1 = (deviceOses (cl (GetAllOSes srv w).2), None).
Proof.
  unfold GetAllOSes, loadDeviceOsesData, internalGet.
  destruct (0 <? length (deviceOses (cl w)))%nat eqn:Hlen; simpl; [reflexivity|].
  destruct (serveOsVersions srv _ _) as [e|l]; simpl.
  - rewrite Hlen. reflexivity.
  - destruct (foldOsVersions l). reflexivity.
Qed.

Lemma GetAllDeviceMakes_returns_table (srv : Server) (w : World) :
  (GetAllDeviceMakes srv w).1 = (deviceMakes (cl (GetAllDeviceMakes srv w).2), None).
Proof.
  unfold GetAllDeviceMakes, loadDeviceMakesData, internalGet.
  destruct (0 <? length (deviceMakes (cl w)))%nat eqn:Hlen; simpl; [reflexivity|].
  destruct (serveMakeModels srv _ _) as [e|l]; simpl.
  - rewrite Hlen. reflexivity.
  - destruct (foldMakeModels l). reflexivity.
Qed.

Lemma length_zero_nil {A} (l : list A) : l = [] -> (0 <? length l)%nat = false.
Proof. intros ->. reflexivity. Qed.

(** X17: when the OS table is empty and the server answers with a
    listing, GetAllOSes makes one exchange and returns the distinct OS
    names of the listing in the order of their first occurrence;
    GetAllVersionsForOS returns, for a name of the listing, its versions
    in listing order without the blank ones, and for any other name the
    not-found error. *)
Theorem os_table_holds_the_listing (srv : Server) (w : World)
    (l : list JSONDeviceOsVersions) :
  deviceOses (cl w) = [] ->
  serveOsVersions srv (sent w) (osVersionsCall (cl w)) = inr l ->
  (GetAllOSes srv w).1 = (firstSeen (map OsName l), None)
  /\ sent (GetAllOSes srv w).2 = sent w ++ [osVersionsCall (cl w)]
  /\ forall name,
      (GetAllVersionsForOS srv name w).1
      = match versionsOfOs name l with
        | [] => ([], Some ("Error getting data from WM server: " +:+ name
                           +:+ " does not exist"))
        | vs => (List.filter (fun v => negb (String.eqb v "")) vs, None)
        end.
Proof.
  intros Hempty Hserve.
  destruct (foldOsVersions_spec l) as [Hks Hmap].
  unfold GetAllOSes, GetAllVersionsForOS, loadDeviceOsesData, internalGet.
  rewrite (length_zero_nil _ Hempty). fold (osVersionsCall (cl w)). rewrite Hserve.
  destruct (foldOsVersions l) as [ovMap ov]. simpl in *.
  split; [rewrite Hks; reflexivity|]. split; [reflexivity|].
  intros name. unfold GetAllVersionsForOS_return. simpl. rewrite Hmap.
  destruct (versionsOfOs name l); reflexivity.
Qed.

Lemma os_table_holds_the_listing_witness :
  (GetAllOSes (sampleServer []) {| cl := sampleClient; sent := [] |}).1
  = (firstSeen (map OsName sampleOsVersions), None).
Proof.
  refine (proj1 (os_table_holds_the_listing (sampleServer [])
                   {| cl := sampleClient; sent := [] |} sampleOsVersions _ _));
    reflexivity.
Defined.

(** X18: when the make table is empty and the server answers with a
    listing, GetAllDeviceMakes makes one exchange and returns the
    distinct brand names of the listing in the order of their first
    occurrence; GetAllDevicesForMake returns, for a brand of the
    listing, the model and marketing names of its devices in listing
    order, and for any other brand the not-found error. *)
Theorem make_table_holds_the_listing (srv : Server) (w : World)
    (l : list JSONMakeModel) :
  deviceMakes (cl w) = [] ->
  serveMakeModels srv (sent w) (makeModelsCall (cl w)) = inr l ->
  (GetAllDeviceMakes srv w).1 = (firstSeen (map BrandName l), None)
  /\ sent (GetAllDeviceMakes srv w).2 = sent w ++ [makeModelsCall (cl w)]
  /\ forall brand,
      (GetAllDevicesForMake srv brand w).1
      = match devicesOfMake brand l with
        | [] => ([], Some ("Error getting data from WM server: " +:+ brand
                           +:+ " does not exist"))
        | vs => (vs, None)
        end.
Proof.
  intros Hempty Hserve.
  destruct (foldMakeModels_spec l) as [Hks Hmap].
  unfold GetAllDeviceMakes, GetAllDevicesForMake, loadDeviceMakesData, internalGet.
  rewrite (length_zero_nil _ Hempty). fold (makeModelsCall (cl w)). rewrite Hserve.
  destruct (foldMakeModels l) as [dmMap dm]. simpl in *.
  split; [rewrite Hks; reflexivity|]. split; [reflexivity|].
  intros brand. unfold GetAllDevicesForMake_return. simpl. rewrite Hmap.
  destruct (devicesOfMake brand l); reflexivity.
Qed.

(** X19: the tables are loaded once and for all, unless they come out
    empty.  After a GetAllOSes that returned a non-empty list, a further
    GetAllOSes or GetAllVersionsForOS makes no exchange and changes
    nothing, and GetAllOSes returns the same list; after one that
    returned an empty list - the listing was empty, or the load failed -
    the next GetAllOSes asks the server again.  GetAllDeviceMakes and
    GetAllDevicesForMake do the same with the make table. *)
Theorem tables_are_loaded_once (srv : Server) (w : World) :
  let r := GetAllOSes srv w in
  let m := GetAllDeviceMakes srv w in
  (r.1.1 <> [] ->
   GetAllOSes srv r.2 = (r.1, r.2)
   /\ forall name, (GetAllVersionsForOS srv name r.2).2 = r.2)
  /\ (r.1.1 = [] ->
      sent (GetAllOSes srv r.2).2 = sent r.2 ++ [osVersionsCall (cl r.2)])
  /\ (m.1.1 <> [] ->
      GetAllDeviceMakes srv m.2 = (m.1, m.2)
      /\ forall brand, (GetAllDevicesForMake srv brand m.2).2 = m.2)
  /\ (m.1.1 = [] ->
      sent (GetAllDeviceMakes srv m.2).2 = sent m.2 ++ [makeModelsCall (cl m.2)]).
Proof.
  cbv zeta.
  rewrite (GetAllOSes_returns_table srv w), (GetAllDeviceMakes_returns_table srv w).
  generalize (GetAllOSes srv w).2 as w1. generalize (GetAllDeviceMakes srv w).2 as w2.
  intros w2 w1. simpl. split; [|split; [|split]].
  - intros H. apply length_pos_iff in H.
    unfold GetAllOSes, GetAllVersionsForOS, loadDeviceOsesData. rewrite H. simpl.
    split; [reflexivity|]. intros name. reflexivity.
  - intros H. unfold GetAllOSes, loadDeviceOsesData, internalGet.
    rewrite (length_zero_nil _ H). fold (osVersionsCall (cl w1)).
    destruct (serveOsVersions srv _ _) as [e|l]; simpl; [reflexivity|].
    destruct (foldOsVersions l). reflexivity.
  - intros H. apply length_pos_iff in H.
    unfold GetAllDeviceMakes, GetAllDevicesForMake, loadDeviceMakesData. rewrite H. simpl.
    split; [reflexivity|]. intros brand. reflexivity.
  - intros H. unfold GetAllDeviceMakes, loadDeviceMakesData, internalGet.
    rewrite (length_zero_nil _ H). fold (makeModelsCall (cl w2)).
    destruct (serveMakeModels srv _ _) as [e|l]; simpl; [reflexivity|].
    destruct (foldMakeModels l). reflexivity.
Qed.

(** ** The tables stay consistent *)

Lemma tablesConsistent_frame (c c' : WmClient) :
  deviceOses c' = deviceOses c -> deviceOsVerMap c' = deviceOsVerMap c ->
  deviceMakes c' = deviceMakes c -> deviceMakesMap c' = deviceMakesMap c ->
  tablesConsistent c -> tablesConsistent c'.
Proof. unfold tablesConsistent. intros -> -> -> ->. tauto. Qed.

Lemma tablesConsistent_clearCache (c : WmClient) : tablesConsistent (clearCache c).
Proof.
  destruct (clearCache_tables c) as (_ & H1 & H2 & H3 & H4).
  unfold tablesConsistent. rewrite H1, H2, H3, H4.
  split; [constructor|]. split.
  - intros name. rewrite lookup_empty. simpl. split; [tauto | intros [x Hx]; discriminate].
  - split; [constructor|].
    intros name. rewrite lookup_empty. simpl. split; [tauto | intros [x Hx]; discriminate].
Qed.

Lemma table_spec_consistent {V : Type} (ks : list string) (m : gmap string (list V))
    (names : list string) (vals : string -> list V) :
  ks = firstSeen names ->
  (forall k, m !! k = match vals k with [] => None | vs => Some vs end) ->
  (forall k, vals k <> [] <-> In k names) ->
  NoDup ks /\ forall k, In k ks <-> is_Some (m !! k).
Proof.
  intros -> Hm Hv. split; [apply firstSeen_NoDup|].
  intros k. rewrite firstSeen_In, <- Hv, Hm.
  destruct (vals k); split; intros H;
    try (eexists; reflexivity); try discriminate; try (contradiction H; reflexivity).
  destruct H; discriminate.
Qed.

Lemma reachable_tablesConsistent (srv : Server) (w : World) :
  reachable srv w -> tablesConsistent (cl w).
Proof.
  apply (reachable_Inv tablesConsistent).
  - unfold tablesConsistent. simpl.
    split; [apply NoDup_nil_2|].
    split; [intros name; rewrite lookup_empty; split;
            [tauto | intros [x Hx]; discriminate]|].
    split; [apply NoDup_nil_2|].
    intros name; rewrite lookup_empty; split; [tauto | intros [x Hx]; discriminate].
  - intros s h p b c. apply tablesConsistent_frame; reflexivity.
  - intros ih sc vc c. apply tablesConsistent_frame; reflexivity.
  - intros l c. apply tablesConsistent_frame; reflexivity.
  - intros l c. apply tablesConsistent_frame; reflexivity.
  - intros t c. apply tablesConsistent_frame; reflexivity.
  - intros c _. apply tablesConsistent_clearCache.
  - intros n c. apply tablesConsistent_frame; reflexivity.
  - intros q key c. apply tablesConsistent_frame;
      unfold cacheGet, deviceCacheGet, userAgentCacheGet;
      (destruct (usesDeviceCache q);
       [destruct (deviceCache c) as [ch|] | destruct (userAgentCache c) as [ch|]];
       try reflexivity; destruct (lru.Get key ch); reflexivity).
  - intros q key d c. apply tablesConsistent_frame;
      unfold cacheAdd, deviceCacheAdd, userAgentCacheAdd;
      (destruct (usesDeviceCache q);
       [destruct (deviceCache c) | destruct (userAgentCache c)]; reflexivity).
  - intros l c (_ & _ & H3 & H4).
    destruct (foldOsVersions_spec l) as [Hks Hmap].
    destruct (table_spec_consistent _ _ _ (fun k => versionsOfOs k l) Hks Hmap
                (fun k => valuesFor_nonempty OsName OsVersion k l)) as [H1 H2].
    unfold tablesConsistent. simpl. repeat split; try assumption; apply H2 || apply H4.
  - intros l c (H1 & H2 & _ & _).
    destruct (foldMakeModels_spec l) as [Hks Hmap].
    destruct (table_spec_consistent _ _ _ (fun k => devicesOfMake k l) Hks Hmap
                (fun k => valuesFor_nonempty BrandName
                            (fun e => {| ModelName := mm_ModelName e;
                                         MarketingName := mm_MarketingName e |}) k l))
      as [H3 H4].
    unfold tablesConsistent. simpl. repeat split; try assumption; apply H2 || apply H4.
Qed.

Lemma make_table_holds_the_listing_witness :
  (GetAllDeviceMakes catalogServer {| cl := sampleClient; sent := [] |}).1
  = (firstSeen (map BrandName sampleMakeModels), None)
  /\ (GetAllDevicesForMake catalogServer "Nokia" {| cl := sampleClient; sent := [] |}).1
     = ([ {| ModelName := "3310"; MarketingName := "" |};
          {| ModelName := "N95"; MarketingName := "" |} ], None).
Proof.
  destruct (make_table_holds_the_listing catalogServer
              {| cl := sampleClient; sent := [] |} sampleMakeModels)
    as (H1 & _ & H3); [reflexivity | reflexivity |].
  split; [exact H1 | exact (H3 "Nokia")].
Defined.



Lemma not_is_Some_None {A} (o : option A) : ~ is_Some o -> o = None.
Proof. destruct o; [intros H; contradiction H; eexists; reflexivity | reflexivity]. Qed.

(** X20: a load that fails is not reported as such.  On a client whose
    tables are consistent and whose OS table is empty, when the exchange
    for the listing fails, GetAllOSes returns an empty list and a nil
    error, and GetAllVersionsForOS returns the not-found error for the
    name asked, not the error of the transport; the client is left as it
    was.  GetAllDeviceMakes and GetAllDevicesForMake do the same. *)
Theorem failed_load_is_not_reported (srv : Server) (w : World) (e : error) :
  tablesConsistent (cl w) ->
  (deviceOses (cl w) = [] ->
   serveOsVersions srv (sent w) (osVersionsCall (cl w)) = inl e ->
   GetAllOSes srv w = (([], None), {| cl := cl w; sent := sent w ++ [osVersionsCall (cl w)] |})
   /\ forall name,
       (GetAllVersionsForOS srv name w).1
       = ([], Some ("Error getting data from WM server: " +:+ name +:+ " does not exist")))
  /\ (deviceMakes (cl w) = [] ->
      serveMakeModels srv (sent w) (makeModelsCall (cl w)) = inl e ->
      GetAllDeviceMakes srv w
      = (([], None), {| cl := cl w; sent := sent w ++ [makeModelsCall (cl w)] |})
      /\ forall brand,
          (GetAllDevicesForMake srv brand w).1
          = ([], Some ("Error getting data from WM server: " +:+ brand
                       +:+ " does not exist"))).
Proof.
  intros (_ & Ho & _ & Hm). split.
  - intros Hempty Hserve.
    unfold GetAllOSes, GetAllVersionsForOS, loadDeviceOsesData, internalGet.
    rewrite (length_zero_nil _ Hempty). fold (osVersionsCall (cl w)). rewrite Hserve.
    simpl. unfold GetAllOSes_return, GetAllVersionsForOS_return.
    rewrite (length_zero_nil _ Hempty), Hempty. split; [reflexivity|].
    intros name. rewrite (not_is_Some_None (deviceOsVerMap (cl w) !! name)); [reflexivity|].
    rewrite <- Ho, Hempty. simpl. tauto.
  - intros Hempty Hserve.
    unfold GetAllDeviceMakes, GetAllDevicesForMake, loadDeviceMakesData, internalGet.
    rewrite (length_zero_nil _ Hempty). fold (makeModelsCall (cl w)). rewrite Hserve.
    simpl. unfold GetAllDeviceMakes_return, GetAllDevicesForMake_return.
    rewrite (length_zero_nil _ Hempty), Hempty. split; [reflexivity|].
    intros brand. rewrite (not_is_Some_None (deviceMakesMap (cl w) !! brand)); [reflexivity|].
    rewrite <- Hm, Hempty. simpl. tauto.
Qed.


(** ** GetInfo and Create *)

Lemma len_pos_iff (s : string) : (0 <? len s)%nat = true <-> s <> "".
Proof.
  destruct s; split; intros H.
  - discriminate H.
  - contradiction H; reflexivity.
  - discriminate.
  - reflexivity.
Qed.

Lemma checkData_complete (info : JSONInfoData) :
  checkData info = true <-> completeInfo info.
Proof.
  unfold checkData, completeInfo.
  rewrite !andb_true_iff, orb_true_iff, !len_pos_iff, !length_pos_iff. tauto.
Qed.

(** X22: what GetInfo leaves behind.  When it returns an error it
    returns no info and the client is as it was.  When it returns an
    info record, the error is nil, the record passes the completeness
    test (three non-empty version strings and at least one capability
    name), a non-empty token of the record is the token the client now
    stores, and a non-empty token that differs from the stored one
    leaves both caches and the three tables empty.  In both cases one
    exchange was made, the GET of the info endpoint. *)
Theorem GetInfo_effects (srv : Server) (w : World) :
  sent (GetInfo srv w).2 = sent w ++ [infoCall (cl w)]
  /\ (forall e, (GetInfo srv w).1.2 = Some e ->
        (GetInfo srv w).1.1 = None /\ cl (GetInfo srv w).2 = cl w)
  /\ (forall info, (GetInfo srv w).1.1 = Some info ->
        (GetInfo srv w).1.2 = None
        /\ serveInfo srv (sent w) (infoCall (cl w)) = inr info
        /\ completeInfo info
        /\ (info_Ltime info <> "" ->
            clientLtime (cl (GetInfo srv w).2) = info_Ltime info)
        /\ (info_Ltime info <> "" -> info_Ltime info <> clientLtime (cl w) ->
            GetActualCacheSizes (cl (GetInfo srv w).2) = (0%nat, 0%nat)
            /\ mkModels (cl (GetInfo srv w).2) = []
            /\ deviceMakes (cl (GetInfo srv w).2) = []
            /\ deviceMakesMap (cl (GetInfo srv w).2) = ∅
            /\ deviceOses (cl (GetInfo srv w).2) = []
            /\ deviceOsVerMap (cl (GetInfo srv w).2) = ∅)).
Proof.
  unfold GetInfo, internalGet. fold (infoCall (cl w)).
  destruct (serveInfo srv (sent w) (infoCall (cl w))) as [e|info] eqn:Hserve.
  - simpl. split; [reflexivity|]. split; [intros; split; reflexivity|].
    intros info [=].
  - destruct (checkData info) eqn:Hck; simpl.
    + split; [reflexivity|]. split; [intros e [=]|].
      intros info' [= <-]. split; [reflexivity|]. split; [reflexivity|].
      split; [apply checkData_complete, Hck|]. split.
      * intros Hne.
        destruct (String.eqb_spec (info_Ltime info) (clientLtime (cl w))) as [Heq|Hdiff].
        -- rewrite clearCachesIfNeeded_idle by (right; exact Heq). symmetry; exact Heq.
        -- rewrite clearCachesIfNeeded_fires by assumption.
           rewrite clearCache_clientLtime. reflexivity.
      * intros Hne Hdiff. rewrite clearCachesIfNeeded_fires by assumption.
        split; [apply clearCache_sizes|].
        exact (clearCache_tables (set_clientLtime (info_Ltime info) (cl w))).
    + split; [reflexivity|]. split; [intros; split; reflexivity|].
      intros info' [=].
Qed.

(** X23: Create returns a client exactly when the handshake is served
    an info record that passes the completeness test.  The client it
    returns is a fresh one: caching is off (both caches are nil), no
    capability was requested, the tables are empty and the stored token
    is the token of the served record. *)
Theorem Create_succeeds_iff_info_complete (srv : Server)
    (Scheme Host Port BaseURI : string) (log : Log) :
  ((exists c, (Create srv Scheme Host Port BaseURI log).1 = (Some c, None))
   <-> exists info,
        serveInfo srv log (handshakeCall Scheme Host Port BaseURI) = inr info
        /\ completeInfo info)
  /\ forall c, (Create srv Scheme Host Port BaseURI log).1.1 = Some c ->
       deviceCache c = None /\ userAgentCache c = None
       /\ GetActualCacheSizes c = (0%nat, 0%nat)
       /\ requestedStaticCaps c = None /\ requestedVirtualCaps c = None
       /\ mkModels c = [] /\ deviceMakes c = [] /\ deviceOses c = []
       /\ exists info,
           serveInfo srv log (handshakeCall Scheme Host Port BaseURI) = inr info
           /\ clientLtime c = info_Ltime info.
Proof.
  unfold Create, GetInfo, internalGet. cbn [cl sent].
  fold (handshakeCall Scheme Host Port BaseURI).
  destruct (serveInfo srv log (handshakeCall Scheme Host Port BaseURI))
    as [e|info] eqn:Hserve.
  - simpl. split; [split|].
    + intros (c & [=]).
    + intros (info & [=] & _).
    + intros c [=].
  - destruct (checkData info) eqn:Hck; cbn [negb cl sent fst snd].
    + split; [split|].
      * intros _. exists info. split; [reflexivity|]. apply checkData_complete, Hck.
      * intros _. eexists; reflexivity.
      * intros c [= <-]. unfold clearCachesIfNeeded, GetActualCacheSizes.
        destruct (info_Ltime info) as [|a s] eqn:Hl; unfold clearCache; simpl;
          repeat (split; [reflexivity|]); exists info; rewrite Hl; split; reflexivity.
    + simpl. split; [split|].
      * intros (c & [=]).
      * intros (info' & Hi & Hc). injection Hi as <-.
        apply checkData_complete in Hc. congruence.
      * intros c [=].
Qed.

(** ** Timeouts *)

Lemma wrap64_small (x : Z) :
  (- 2 ^ 63 <= x < 2 ^ 63)%Z -> wrap64 x = x.
Proof.
  intros H. unfold wrap64.
  rewrite Z.mod_small by lia. lia.
Qed.

Lemma seconds_exact (n : Z) :
  (0 < n <= 9223372036)%Z -> wrap64 (wrap64 n * time_Second) = (n * 1000000000)%Z.
Proof.
  intros H. unfold time_Second.
  rewrite (wrap64_small n) by lia. apply wrap64_small. lia.
Qed.

(** X24: SetHTTPTimeout counts in seconds and falls back on the
    defaults.  A connection (transfer) value that is zero or negative
    gives the default of 10 (60) seconds; a value from 1 to
    9223372036 gives exactly that many seconds, in nanoseconds.  The
    http client that is installed dials with the connection timeout and
    bounds a whole exchange by the transfer timeout; the time it waits
    for the response headers is 10 seconds whatever was asked. *)
Theorem SetHTTPTimeout_counts_seconds (connection transfer : Z) :
  let connTimeout := (SetHTTPTimeout connection transfer).1.1 in
  let transferTimeout := (SetHTTPTimeout connection transfer).1.2 in
  let httpClient := (SetHTTPTimeout connection transfer).2 in
  ((connection <= 0)%Z -> connTimeout = 10000000000%Z)
  /\ ((0 < connection <= 9223372036)%Z -> connTimeout = (connection * 1000000000)%Z)
  /\ ((transfer <= 0)%Z -> transferTimeout = 60000000000%Z)
  /\ ((0 < transfer <= 9223372036)%Z -> transferTimeout = (transfer * 1000000000)%Z)
  /\ Dial_Timeout httpClient = connTimeout
  /\ Timeout httpClient = transferTimeout
  /\ ResponseHeaderTimeout httpClient = 10000000000%Z.
Proof.
  cbv zeta. unfold SetHTTPTimeout. cbn [fst snd createHTTPClient Dial_Timeout Timeout
                                        ResponseHeaderTimeout].
  split; [|split; [|split; [|split]]].
  - intros H. apply Z.leb_le in H. rewrite H. reflexivity.
  - intros H. destruct (Z.leb_spec connection 0); [lia|]. apply seconds_exact, H.
  - intros H. apply Z.leb_le in H. rewrite H. reflexivity.
  - intros H. destruct (Z.leb_spec transfer 0); [lia|]. apply seconds_exact, H.
  - split; [reflexivity|]. split; reflexivity.
Qed.

(** Past 9223372036 seconds the product leaves the int64 range: the
    timeout that is stored is negative. *)
Example SetHTTPTimeout_wraps :
  (SetHTTPTimeout 9223372037 1).1.1 = (-9223372036709551616)%Z.
Proof. vm_compute. reflexivity. Qed.

End Client.

(** * The properties on sample runs

    The sample data are ASCII: on them [strings.ToLower] is
    [lowerASCII], and a lookup under [asciiLowering] is the lookup
    under any lowering (lemma [lookup_ASCII]). *)

Lemma lowerKeyMap_ASCII (L : Lowering) (headers : list (string * string)) :
  Forall (fun kv => isASCII kv.1 = true) headers ->
  @lowerKeyMap L headers = @lowerKeyMap asciiLowering headers.
Proof.
  unfold lowerKeyMap. generalize (∅ : gmap string string).
  induction headers as [|kv headers IH]; intros m H; [reflexivity|].
  apply Forall_cons in H. destruct H as [Hkv H]. cbn [fold_left].
  rewrite (ToLower_ASCII _ Hkv). apply IH. exact H.
Qed.

Lemma normalizedHeaders_ASCII (L : Lowering) (c : WmClient)
    (headers : list (string * string)) :
  Forall (fun h => isASCII h = true) (ImportantHeaders c) ->
  Forall (fun kv => isASCII kv.1 = true) headers ->
  @normalizedHeaders L c headers = @normalizedHeaders asciiLowering c headers.
Proof.
  intros Hc Hh. unfold normalizedHeaders. rewrite (lowerKeyMap_ASCII L headers Hh).
  apply copyHeaders_ext. intros name Hin.
  rewrite List.Forall_forall in Hc. rewrite (ToLower_ASCII name (Hc name Hin)).
  reflexivity.
Qed.

Lemma lookup_ASCII (L : Lowering) (srv : Server) (q : Query) (w : World) :
  asciiQuery (cl w) q ->
  @lookup L srv q w = @lookup asciiLowering srv q w
  /\ @cacheKey L (cl w) q = @cacheKey asciiLowering (cl w) q.
Proof.
  destruct q as [request|headers|userAgent|deviceID]; simpl;
    try (intros _; split; reflexivity).
  intros [Hc Hh]. unfold LookupHeaders, cacheKey. cbn [cl queryHeaders].
  rewrite (normalizedHeaders_ASCII L (cl w) headers Hc Hh). split; reflexivity.
Qed.

#[local] Existing Instance asciiLowering.

Lemma application_error_keeps_partial_result_witness :
  let srv := sampleServer [sampleError "device not found" "2019-10-01"] in
  let w := {| cl := SetCacheSize 1000 sampleClient; sent := [] |} in
  Forall (fun q =>
            exists d',
              (lookup srv q w).1
              = (Some d', Some "Received error from WM server: device not found")
              /\ APIVersion d' = "WURFL Microservice 2.1.0"
              /\ Mtime d' = 1569926400%Z
              /\ Ltime d' = "2019-10-01"
              /\ Capabilities d' = ∅)
         [ ByDeviceID "nokia_generic_series40_wrong";
           ByUserAgent "Mozilla/5.0";
           ByHeaders [("user-agent", "Mozilla/5.0")];
           ByRequest (sampleRequest "Mozilla/5.0") ].
Proof.
  cbv zeta. repeat apply Forall_cons_2; try apply Forall_nil_2; cbv beta;
    (apply (application_error_keeps_partial_result _ _ _
              (sampleError "device not found" "2019-10-01"));
     [vm_compute; reflexivity | vm_compute; reflexivity | vm_compute; discriminate]).
Defined.

Lemma lookup_result_has_no_error_field_witness :
  let srv := sampleServer [sampleError "device not found" "2019-10-01"] in
  let w := step srv (OpSetCacheSize 1000)
             {| cl := sampleClient;
                sent := [handshakeCall "http" "localhost" "8080" ""] |} in
  Forall (fun q =>
            (lookup srv q w).1
            = (Some (sampleError "" "2019-10-01"),
               Some "Received error from WM server: device not found")
            /\ forall d e, (lookup srv q w).1 = (Some d, e) -> Error d = "")
         [ ByDeviceID "nokia_generic_series40_wrong";
           ByUserAgent "Mozilla/5.0";
           ByHeaders [("user-agent", "Mozilla/5.0")];
           ByRequest (sampleRequest "Mozilla/5.0") ].
Proof.
  cbv zeta.
  assert (reachable (sampleServer [sampleError "device not found" "2019-10-01"])
            (step (sampleServer [sampleError "device not found" "2019-10-01"])
               (OpSetCacheSize 1000)
               {| cl := sampleClient;
                  sent := [handshakeCall "http" "localhost" "8080" ""] |})) as Hr.
  { apply reach_step. apply (reach_Create _ "http" "localhost" "8080" "" []).
    vm_compute. reflexivity. }
  repeat apply Forall_cons_2; try apply Forall_nil_2; cbv beta;
    (match goal with
     | |- (lookup ?s ?q ?w0).1 = _ /\ _ =>
         destruct (lookup_result_has_no_error_field s w0 q Hr) as [H1 H2];
         split;
         [ apply (H2 (sampleError "device not found" "2019-10-01"));
           [vm_compute; reflexivity | vm_compute; reflexivity | vm_compute; discriminate]
         | exact H1 ]
     end).
Defined.

Lemma repeated_lookup_served_from_cache_witness :
  let d := sampleDevice "generic_web_browser" "2019-10-01" in
  let srv := sampleServer [d] in
  let w := {| cl := SetCacheSize 1000 sampleClient; sent := [] |} in
  Forall (fun s : Query * list Query * Query =>
            let w1 := (lookup srv s.1.1 w).2 in
            let wn := lookups srv s.1.2 w1 in
            (lookup srv s.1.1 w).1 = (Some d, None)
            /\ (lookup srv s.2 wn).1 = (Some d, None)
            /\ sent (lookup srv s.2 wn).2 = sent w1
            /\ GetActualCacheSizes (cl (lookup srv s.2 wn).2)
               = GetActualCacheSizes (cl w1))
         [ (ByUserAgent "Mozilla/5.0",
            [ByUserAgent "Mozilla/5.0"; ByHeaders [("user-agent", "Mozilla/5.0")]],
            ByUserAgent "Mozilla/5.0");
           (ByDeviceID "generic_web_browser",
            [ByDeviceID "generic_web_browser"; ByDeviceID "generic_web_browser"],
            ByDeviceID "generic_web_browser");
           (ByRequest (sampleRequest "Mozilla/5.0"),
            [ByHeaders [("USER-AGENT", "Mozilla/5.0")]],
            ByUserAgent "Mozilla/5.0") ].
Proof.
  cbv zeta. repeat apply Forall_cons_2; try apply Forall_nil_2;
    cbv beta; cbn [fst snd];
    (split; [vm_compute; reflexivity|]).
  - apply (repeated_lookup_served_from_cache
             (sampleServer [sampleDevice "generic_web_browser" "2019-10-01"])
             (ByUserAgent "Mozilla/5.0")
             {| cl := SetCacheSize 1000 sampleClient; sent := [] |}
             _ _ (lru.New 1000)).
    + reflexivity.
    + vm_compute. discriminate.
    + vm_compute. reflexivity.
    + repeat constructor; vm_compute; reflexivity.
    + split; vm_compute; reflexivity.
  - apply (repeated_lookup_served_from_cache
             (sampleServer [sampleDevice "generic_web_browser" "2019-10-01"])
             (ByDeviceID "generic_web_browser")
             {| cl := SetCacheSize 1000 sampleClient; sent := [] |}
             _ _ (lru.New deviceDefaultCacheSize)).
    + reflexivity.
    + vm_compute. discriminate.
    + vm_compute. reflexivity.
    + repeat constructor; vm_compute; reflexivity.
    + split; vm_compute; reflexivity.
  - apply (repeated_lookup_served_from_cache
             (sampleServer [sampleDevice "generic_web_browser" "2019-10-01"])
             (ByRequest (sampleRequest "Mozilla/5.0"))
             {| cl := SetCacheSize 1000 sampleClient; sent := [] |}
             _ _ (lru.New 1000)).
    + reflexivity.
    + vm_compute. discriminate.
    + vm_compute. reflexivity.
    + repeat constructor; vm_compute; reflexivity.
    + split; vm_compute; reflexivity.
Defined.

(** C8, as stated, fails on a client whose cache was enabled with a
    negative size: the lru cache then evicts every entry as it is
    added, so that after a first successful lookup the repeat of it
    goes to the server again. *)
Lemma negative_capacity_caches_nothing :
  let d := sampleDevice "generic_web_browser" "2019-10-01" in
  let srv := sampleServer [d; d] in
  let w := {| cl := SetCacheSize (-1) sampleClient; sent := [] |} in
  let q := ByUserAgent "Mozilla/5.0" in
  let r1 := lookup srv q w in
  let r2 := lookup srv q r1.2 in
  userAgentCache (cl w) = Some (lru.New (-1))
  /\ r1.1 = (Some d, None)
  /\ GetActualCacheSizes (cl r1.2) = (0%nat, 0%nat)
  /\ r2.1 = (Some d, None)
  /\ sent r2.2 = sent r1.2 ++ [lookupCall (cl r1.2) q]
  /\ sent r2.2 <> sent r1.2.
Proof.
  cbv zeta. repeat (split; [vm_compute; reflexivity|]).
  vm_compute. discriminate.
Qed.

Lemma token_change_leaves_only_new_entry_witness :
  let srv := sampleServer [sampleDevice "nokia_generic_series40" "2019-10-01";
                           sampleDevice "generic_web_browser" "2199-12-31"] in
  let w := {| cl := SetCacheSize 1000 sampleClient; sent := [] |} in
  let w1 := (lookup srv (ByDeviceID "nokia_generic_series40") w).2 in
  let w2 := (lookup srv (ByUserAgent "Mozilla/5.0") w1).2 in
  clientLtime (cl w2) = "2199-12-31"
  /\ cacheLen (otherCacheOf (cl w2) (ByUserAgent "Mozilla/5.0")) = 0%nat
  /\ cacheLen (cacheOf (cl w2) (ByUserAgent "Mozilla/5.0")) = 1%nat.
Proof.
  cbv zeta.
  destruct (token_change_leaves_only_new_entry
              (sampleServer [sampleDevice "nokia_generic_series40" "2019-10-01";
                             sampleDevice "generic_web_browser" "2199-12-31"])
              (ByDeviceID "nokia_generic_series40") (ByUserAgent "Mozilla/5.0")
              {| cl := SetCacheSize 1000 sampleClient; sent := [] |}
              (lookup (sampleServer [sampleDevice "nokia_generic_series40" "2019-10-01";
                                     sampleDevice "generic_web_browser" "2199-12-31"])
                      (ByDeviceID "nokia_generic_series40")
                      {| cl := SetCacheSize 1000 sampleClient; sent := [] |}).2
              (lookup (sampleServer [sampleDevice "nokia_generic_series40" "2019-10-01";
                                     sampleDevice "generic_web_browser" "2199-12-31"])
                      (ByUserAgent "Mozilla/5.0")
                      (lookup (sampleServer [sampleDevice "nokia_generic_series40" "2019-10-01";
                                             sampleDevice "generic_web_browser" "2199-12-31"])
                              (ByDeviceID "nokia_generic_series40")
                              {| cl := SetCacheSize 1000 sampleClient; sent := [] |}).2).2
              (sampleDevice "nokia_generic_series40" "2019-10-01")
              (sampleDevice "generic_web_browser" "2199-12-31"))
    as (H1 & H2 & _ & H4).
  - split; vm_compute; reflexivity.
  - vm_compute. discriminate.
  - split; vm_compute; reflexivity.
  - vm_compute. discriminate.
  - vm_compute. discriminate.
  - split; [exact H1|]. split; [exact H2|].
    apply (H4 (lru.New 1000)); [vm_compute; reflexivity | vm_compute; discriminate].
Defined.

(** C3, as stated, fails: a device-id lookup answered with the token
    2019-10-01, then a user-agent lookup answered with the token
    2199-12-31, on a client with caches; right after the second lookup
    the headers cache reports size 1, not 0. *)
Lemma token_change_keeps_new_entry_cached :
  let srv := sampleServer [sampleDevice "nokia_generic_series40" "2019-10-01";
                           sampleDevice "generic_web_browser" "2199-12-31"] in
  let w := {| cl := SetCacheSize 1000 sampleClient; sent := [] |} in
  let r1 := lookup srv (ByDeviceID "nokia_generic_series40") w in
  let r2 := lookup srv (ByUserAgent "Mozilla/5.0") r1.2 in
  r1.1 = (Some (sampleDevice "nokia_generic_series40" "2019-10-01"), None)
  /\ r2.1 = (Some (sampleDevice "generic_web_browser" "2199-12-31"), None)
  /\ length (sent r1.2) = 1%nat /\ length (sent r2.2) = 2%nat
  /\ GetActualCacheSizes (cl r1.2) = (1%nat, 0%nat)
  /\ GetActualCacheSizes (cl r2.2) = (0%nat, 1%nat)
  /\ GetActualCacheSizes (cl r2.2) <> (0%nat, 0%nat).
Proof. vm_compute. repeat split; try reflexivity. discriminate. Qed.

Lemma header_fingerprint_is_canonical_witness :
  headersFingerprint sampleClient
    [("Accept-Encoding", "gzip"); ("UseR-AgEnt", "Mozilla/5.0")]
  = headersFingerprint sampleClient
    [("user-agent", "Mozilla/5.0"); ("Content-Type", "application/json")].
Proof.
  apply (header_fingerprint_is_canonical sampleClient
           [("Accept-Encoding", "gzip"); ("UseR-AgEnt", "Mozilla/5.0")]
           [("user-agent", "Mozilla/5.0"); ("Content-Type", "application/json")]).
  - vm_compute. apply NoDup_cons_2; [apply not_elem_of_nil | apply NoDup_nil_2].
  - vm_compute. reflexivity.
Defined.

(** C2, as stated, fails: a Go map may hold "User-Agent" and
    "user-agent" at once; visited in one order or the other - the only
    difference between the two lists - it gets two fingerprints. *)
Lemma header_fingerprint_depends_on_order :
  let A := [("User-Agent", "a"); ("user-agent", "b")] in
  let B := [("user-agent", "b"); ("User-Agent", "a")] in
  Permutation A B
  /\ NoDup (map fst A)
  /\ sameImportantHeaders sampleClient A B
  /\ headersFingerprint sampleClient A = "92eb5ffee6ae2fec3ad71c777531578f"
  /\ headersFingerprint sampleClient B = "0cc175b9c0f1b6a831c399e269772661"
  /\ headersFingerprint sampleClient A <> headersFingerprint sampleClient B.
Proof.
  cbv zeta. split; [apply perm_swap|].
  split.
  { apply NoDup_cons_2; [|apply NoDup_cons_2; [apply not_elem_of_nil | apply NoDup_nil_2]].
    rewrite list_elem_of_In. simpl. intros [H|[]]. discriminate H. }
  split; [apply sameImportantHeaders_order, perm_swap|].
  split; [vm_compute; reflexivity|].
  split; [vm_compute; reflexivity|].
  vm_compute. discriminate.
Qed.

Lemma failed_lookup_leaves_client_unchanged_witness :
  cl (lookup (sampleServer []) (ByUserAgent "Mozilla/5.0")
        {| cl := warmClient; sent := [] |}).2
  = warmClient.
Proof.
  apply (failed_lookup_leaves_client_unchanged (sampleServer [])
           (ByUserAgent "Mozilla/5.0") {| cl := warmClient; sent := [] |}
           "connection refused").
  vm_compute. reflexivity.
Defined.

Lemma same_token_keeps_caches_witness :
  GetActualCacheSizes
    (cl (lookup (sampleServer [sampleDevice "generic_web_browser" "2019-10-01"])
           (ByDeviceID "generic_web_browser") {| cl := warmClient; sent := [] |}).2)
  = (2%nat, 1%nat).
Proof.
  destruct (same_token_keeps_caches
              (sampleServer [sampleDevice "generic_web_browser" "2019-10-01"])
              (ByDeviceID "generic_web_browser") {| cl := warmClient; sent := [] |}
              (lookup (sampleServer [sampleDevice "generic_web_browser" "2019-10-01"])
                      (ByDeviceID "generic_web_browser")
                      {| cl := warmClient; sent := [] |}).2
              (sampleDevice "generic_web_browser" "2019-10-01")) as [H _].
  - split; vm_compute; reflexivity.
  - right. vm_compute. reflexivity.
  - rewrite H. vm_compute. reflexivity.
Defined.

Lemma lookups_without_cache_witness :
  length (sent (lookups (sampleServer [sampleDevice "generic" "2019-10-01"])
                  [ByUserAgent ""; ByUserAgent ""; ByDeviceID "generic"]
                  {| cl := sampleClient; sent := [] |}))
  = (0 + 3)%nat.
Proof.
  apply (lookups_without_cache (sampleServer [sampleDevice "generic" "2019-10-01"])
           [ByUserAgent ""; ByUserAgent ""; ByDeviceID "generic"]
           {| cl := sampleClient; sent := [] |}); reflexivity.
Defined.

Lemma caches_stay_bounded_witness :
  (Z.of_nat
     (GetActualCacheSizes
        (cl (step (sampleServer [sampleDevice "a" "2019-10-01"]) (OpLookup (ByUserAgent "a"))
               (step (sampleServer [sampleDevice "a" "2019-10-01"]) (OpSetCacheSize 1)
                  {| cl := sampleClient;
                     sent := [handshakeCall "http" "localhost" "8080" ""] |})))).1
   <= 20000)%Z.
Proof.
  refine (proj1 (proj2 (proj2
            (caches_stay_bounded (sampleServer [sampleDevice "a" "2019-10-01"]) _ _)))).
  apply reach_step, reach_step.
  apply (reach_Create _ "http" "localhost" "8080" "" []).
  vm_compute. reflexivity.
Defined.

Example one_entry_cache_evicts :
  GetActualCacheSizes
    (cl (run (sampleServer [sampleDevice "a" "2019-10-01"; sampleDevice "b" "2019-10-01"])
           [OpSetCacheSize 1; OpLookup (ByUserAgent "a"); OpLookup (ByUserAgent "b")]
           {| cl := sampleClient; sent := [] |}))
  = (0%nat, 1%nat).
Proof. vm_compute. reflexivity. Qed.

Lemma user_agent_header_lookup_is_user_agent_lookup_witness :
  sameLookup sampleClient (ByUserAgent "Mozilla/5.0") (ByHeaders [("uSeR-aGeNt", "Mozilla/5.0")]).
Proof.
  apply (user_agent_header_lookup_is_user_agent_lookup sampleClient "uSeR-aGeNt" "Mozilla/5.0").
  - intros h [<-|[<-|[]]]; [reflexivity | vm_compute; discriminate].
  - reflexivity.
Defined.

Lemma failed_load_is_not_reported_witness :
  (GetAllOSes downServer {| cl := sampleClient; sent := [] |}).1 = ([], None)
  /\ (GetAllVersionsForOS downServer "Android" {| cl := sampleClient; sent := [] |}).1
     = ([], Some "Error getting data from WM server: Android does not exist").
Proof.
  destruct (failed_load_is_not_reported downServer {| cl := sampleClient; sent := [] |}
              "connection refused") as [H _].
  - apply (reachable_tablesConsistent (sampleServer [])
             {| cl := sampleClient; sent := [handshakeCall "http" "localhost" "8080" ""] |}).
    apply (reach_Create _ "http" "localhost" "8080" "" []). vm_compute. reflexivity.
  - destruct H as [H1 H2]; [reflexivity | reflexivity |].
    split; [rewrite H1; reflexivity | exact (H2 "Android")].
Defined.

